(** * On-Prem AI Canvas: the request-to-evidence pipeline of
      [src/app/api/chat/route.ts]

    A shallow embedding of the plan validator, the guardrails, the SPL
    template compiler, the panel materializer and the evidence summarizer,
    followed by the properties the specification states about them.

    Conventions.
    - A JavaScript string is the list of its UTF-16 code units.
    - A value of type [unknown] that came out of [JSON.parse] is a [json]
      tree; [undefined] is [None] in [option json].
    - A call that can raise returns a [result]; the only exception the
      modelled code can raise by itself is the [TypeError] of a failed
      conversion to a primitive.
    - Mutation of the plan is explicit state passing: a function that
      updates its argument in place returns the updated record. *)

From Stdlib Require Import ZArith NArith List String Ascii Lia Bool.
From Stdlib Require Import DecimalString DecimalN.
From stdpp Require Import base list option numbers.

Local Open Scope Z_scope.

(** ** Strings *)

Abbreviation jsstring := (list N).

(** A source literal made of ASCII characters. *)
Definition js (s : string) : jsstring := N_of_ascii <$> list_ascii_of_string s.

Definition streq (a b : jsstring) : bool := bool_decide (a = b).

(** [WhiteSpace] and [LineTerminator] of ECMA-262, the characters that
    [String.prototype.trim] removes and that [Number] skips. *)
Definition isWhiteSpace (c : N) : bool :=
  ((9 <=? c) && (c <=? 13) || (c =? 32) || (c =? 160) || (c =? 5760)
   || (8192 <=? c) && (c <=? 8202) || (c =? 8232) || (c =? 8233)
   || (c =? 8239) || (c =? 8287) || (c =? 12288) || (c =? 65279))%N.

Fixpoint dropWhile {A} (p : A -> bool) (l : list A) : list A :=
  match l with
  | x :: r => if p x then dropWhile p r else l
  | [] => []
  end.

Definition trimStart (s : jsstring) : jsstring := dropWhile isWhiteSpace s.

Definition trimEnd (s : jsstring) : jsstring := rev (trimStart (rev s)).

Definition trim (s : jsstring) : jsstring := trimEnd (trimStart s).

Fixpoint startsWith (s pat : jsstring) : bool :=
  match pat, s with
  | [], _ => true
  | p :: pat', c :: s' => (p =? c)%N && startsWith s' pat'
  | _ :: _, [] => false
  end.

(** [s.includes(pat)] *)
Fixpoint includes (s pat : jsstring) : bool :=
  startsWith s pat ||
  match s with
  | [] => false
  | _ :: s' => includes s' pat
  end.

Definition isUpperAscii (c : N) : bool := ((65 <=? c) && (c <=? 90))%N.
Definition isLowerAscii (c : N) : bool := ((97 <=? c) && (c <=? 122))%N.
Definition isDigit (c : N) : bool := ((48 <=? c) && (c <=? 57))%N.

(** [String.prototype.toLowerCase], unit by unit. ASCII letters are
    mapped exactly. Of the non-ASCII code points only two have a lower case
    form that contains an ASCII letter: U+0130 (to "i" followed by U+0307)
    and U+212A, the Kelvin sign (to "k"); both are kept. Every other
    non-ASCII unit is left in place: its real image is again non-ASCII, and
    the code only ever compares lower-cased text with ASCII or caseless
    CJK keywords, so the difference cannot be observed. *)
Definition lowerUnit (c : N) : jsstring :=
  if isUpperAscii c then [(c + 32)%N]
  else if (c =? 304)%N then [105; 775]%N
  else if (c =? 8490)%N then [107%N]
  else [c].

Definition toLowerCase (s : jsstring) : jsstring := s ≫= lowerUnit.

(** [String.prototype.toUpperCase], with the same convention: the entries
    of the Unicode case tables whose image contains an ASCII letter are
    kept (sharp s, dotless i, long s, the "ff" to "st" ligatures and the
    six letters of SpecialCasing that decompose), the other non-ASCII
    units stay in place. *)
Definition upperUnit (c : N) : jsstring :=
  if isLowerAscii c then [(c - 32)%N]
  else if (c =? 223)%N then [83; 83]%N
  else if (c =? 305)%N then [73%N]
  else if (c =? 383)%N then [83%N]
  else if (c =? 329)%N then [700; 78]%N
  else if (c =? 496)%N then [74; 780]%N
  else if (c =? 7830)%N then [72; 817]%N
  else if (c =? 7831)%N then [84; 776]%N
  else if (c =? 7832)%N then [87; 778]%N
  else if (c =? 7833)%N then [89; 778]%N
  else if (c =? 7834)%N then [65; 702]%N
  else if (c =? 64256)%N then [70; 70]%N
  else if (c =? 64257)%N then [70; 73]%N
  else if (c =? 64258)%N then [70; 76]%N
  else if (c =? 64259)%N then [70; 70; 73]%N
  else if (c =? 64260)%N then [70; 70; 76]%N
  else if (c =? 64261)%N then [83; 84]%N
  else if (c =? 64262)%N then [83; 84]%N
  else [c].

Definition toUpperCase (s : jsstring) : jsstring := s ≫= upperUnit.

(** [parts.join(sep)] *)
Fixpoint join (sep : jsstring) (parts : list jsstring) : jsstring :=
  match parts with
  | [] => []
  | [p] => p
  | p :: rest => p ++ sep ++ join sep rest
  end.

(** ** Exceptions *)

Inductive jserror : Set :=
  | TypeError
  | Error (message : list N).

Inductive result (A : Type) : Type :=
  | Ok (a : A)
  | Throw (e : jserror).
Arguments Ok {A} a.
Arguments Throw {A} e.

#[global] Instance result_ret : MRet result := fun A a => Ok a.
#[global] Instance result_bind : MBind result := fun A B f m =>
  match m with
  | Ok a => f a
  | Throw e => Throw e
  end.
#[global] Instance result_fmap : FMap result := fun A B f m =>
  match m with
  | Ok a => Ok (f a)
  | Throw e => Throw e
  end.

Definition returns {A} (m : result A) : Prop := exists a, m = Ok a.

(** ** Numbers

    A finite Number is kept as the decimal [m * 10^e]; [Number::toString]
    prints the shortest such decimal, and the integer part of that decimal
    is the integer part of the double, so [Math.floor] and the comparisons
    of [clampInt] are exact on this representation. *)

Inductive jsnum : Set :=
  | NaN
  | PosInf
  | NegInf
  | Fin (m e : Z).

Definition ofZ (z : Z) : jsnum := Fin z 0.


(** [Math.floor] of a finite number *)
Definition floorFin (m e : Z) : Z :=
  if 0 <=? e then m * 10 ^ e else m / 10 ^ (- e).

Definition isZeroNum (x : jsnum) : bool :=
  match x with
  | Fin m _ => m =? 0
  | _ => false
  end.

Definition decN (n : N) : jsstring := js (NilEmpty.string_of_uint (N.to_uint n)).

(** The decimal numeral of an integer, as a template literal prints it. *)
Definition decZ (z : Z) : jsstring :=
  if z <? 0 then js "-" ++ decN (Z.abs_N z) else decN (Z.abs_N z).

Definition stripZeros (digits : jsstring) : jsstring * Z :=
  let kept := rev (dropWhile (N.eqb 48) (rev digits)) in
  (kept, Z.of_nat (length digits) - Z.of_nat (length kept)).

(** [Number::toString] for a positive finite value [m * 10^e], [m > 0]. *)
Definition positiveToString (m e : Z) : jsstring :=
  let '(s, z) := stripZeros (decN (Z.to_N m)) in
  let k := Z.of_nat (length s) in
  let n := k + e + z in
  if (k <=? n) && (n <=? 21) then s ++ replicate (Z.to_nat (n - k)) 48%N
  else if (0 <? n) && (n <=? 21) then
    take (Z.to_nat n) s ++ js "." ++ drop (Z.to_nat n) s
  else if (-6 <? n) && (n <=? 0) then
    js "0." ++ replicate (Z.to_nat (- n)) 48%N ++ s
  else
    let x := n - 1 in
    let sign := if x <? 0 then js "-" else js "+" in
    if k =? 1 then s ++ js "e" ++ sign ++ decN (Z.abs_N x)
    else take 1 s ++ js "." ++ drop 1 s ++ js "e" ++ sign ++ decN (Z.abs_N x).

Definition numberToString (x : jsnum) : jsstring :=
  match x with
  | NaN => js "NaN"
  | PosInf => js "Infinity"
  | NegInf => js "-Infinity"
  | Fin m e =>
      if m =? 0 then js "0"
      else if m <? 0 then js "-" ++ positiveToString (- m) e
      else positiveToString m e
  end.

(** [Number(s)] on a string: the [StringNumericLiteral] grammar. The
    value of a decimal literal is kept exact where the runtime rounds it to
    the nearest double; a magnitude that rounds to an infinity is mapped to
    it, all the code does with other values is [Math.floor] and a
    comparison with small integers. *)

Fixpoint spanWhile {A} (p : A -> bool) (l : list A) : list A * list A :=
  match l with
  | x :: r => if p x then let '(a, b) := spanWhile p r in (x :: a, b) else ([], l)
  | [] => ([], [])
  end.

Definition digitsValue (ds : jsstring) : Z :=
  fold_left (fun acc c => 10 * acc + (Z.of_N c - 48)) ds 0.

Definition radixDigit (radix : Z) (c : N) : option Z :=
  let v := if isDigit c then Z.of_N c - 48
           else if ((97 <=? c) && (c <=? 102))%N then Z.of_N c - 87
           else if ((65 <=? c) && (c <=? 70))%N then Z.of_N c - 55
           else radix in
  if v <? radix then Some v else None.

Definition parseRadix (radix : Z) (ds : jsstring) : option Z :=
  match ds with
  | [] => None
  | _ => fold_left (fun acc c => a ← acc; v ← radixDigit radix c; Some (radix * a + v))
                   ds (Some 0)
  end.

Definition nonDecimalLiteral (t : jsstring) : option Z :=
  match t with
  | 48%N :: p :: ds =>
      if (p =? 120)%N || (p =? 88)%N then parseRadix 16 ds
      else if (p =? 111)%N || (p =? 79)%N then parseRadix 8 ds
      else if (p =? 98)%N || (p =? 66)%N then parseRadix 2 ds
      else None
  | _ => None
  end.

(** The least magnitude that rounds to an infinity. *)
Definition overflowBound : Z := 2 ^ 1024 - 2 ^ 970.

Definition fromDecimal (m e : Z) : jsnum :=
  let over := if 0 <=? e then overflowBound <=? Z.abs m * 10 ^ e
              else overflowBound * 10 ^ (- e) <=? Z.abs m in
  if over then (if m <? 0 then NegInf else PosInf) else Fin m e.

Definition exponentPart (r : jsstring) : option Z :=
  match r with
  | [] => Some 0
  | c :: r' =>
      if (c =? 101)%N || (c =? 69)%N then
        let '(neg, ds) := match r' with
                          | 43%N :: d => (false, d)
                          | 45%N :: d => (true, d)
                          | _ => (false, r')
                          end in
        match ds with
        | [] => None
        | _ => if forallb isDigit ds
               then Some (if neg : bool then - digitsValue ds else digitsValue ds)
               else None
        end
      else None
  end.

Definition StringToNumber (s : jsstring) : jsnum :=
  let t := trim s in
  match t with
  | [] => Fin 0 0
  | _ =>
    match nonDecimalLiteral t with
    | Some z => fromDecimal z 0
    | None =>
      let '(neg, u) := match t with
                       | 43%N :: r => (false, r)
                       | 45%N :: r => (true, r)
                       | _ => (false, t)
                       end in
      if streq u (js "Infinity") then (if neg : bool then NegInf else PosInf)
      else
        let '(ip, r1) := spanWhile isDigit u in
        let '(fp, r2) := match r1 with
                         | 46%N :: r => spanWhile isDigit r
                         | _ => ([], r1)
                         end in
        match ip ++ fp with
        | [] => NaN
        | ds =>
          match exponentPart r2 with
          | Some x =>
              let m := digitsValue ds in
              fromDecimal (if neg then - m else m) (x - Z.of_nat (length fp))
          | None => NaN
          end
        end
    end
  end.

(** ** Values decoded from JSON *)

Set Warnings "-register-all".

Inductive json : Type :=
  | JNull
  | JBool (b : bool)
  | JNum (x : jsnum)
  | JStr (s : jsstring)
  | JArr (items : list json)
  | JObj (fields : list (jsstring * json)).

(** Own properties of a decoded object, in enumeration order. *)
Fixpoint lookupField (k : jsstring) (fields : list (jsstring * json)) : option json :=
  match fields with
  | [] => None
  | (k', v) :: r => if streq k k' then Some v else lookupField k r
  end.

(** [v?.k] and [v.k] for the property names the code reads. None of them
    exists on [Object.prototype], [Array.prototype] or on a primitive
    wrapper, except [split] on a string, which the code can only reach on
    an output whose [template] is ["trend"], hence on an object. *)
Definition get (v : option json) (k : string) : option json :=
  match v with
  | Some (JObj fields) => lookupField (js k) fields
  | _ => None
  end.

Definition hasOwn (k : string) (fields : list (jsstring * json)) : bool :=
  bool_decide (is_Some (lookupField (js k) fields)).

(** [ToString] on a decoded value. An object converts through
    [OrdinaryToPrimitive]: an own, hence non-callable, [toString] property
    hides [Object.prototype.toString], [valueOf] gives back the object, and
    the conversion raises [TypeError]. An array converts by joining its
    elements with [","], [null] elements as the empty string. *)
Fixpoint ToString (v : json) : result jsstring :=
  match v with
  | JNull => Ok (js "null")
  | JBool b => Ok (if b then js "true" else js "false")
  | JNum x => Ok (numberToString x)
  | JStr s => Ok s
  | JArr items =>
      let fix elems (l : list json) : result (list jsstring) :=
        match l with
        | [] => Ok []
        | x :: r =>
            s ← match x with JNull => Ok [] | _ => ToString x end;
            ss ← elems r;
            Ok (s :: ss)
        end in
      join (js ",") <$> elems items
  | JObj fields =>
      if hasOwn "toString" fields then Throw TypeError else Ok (js "[object Object]")
  end.

(** [String(v)] *)
Definition String_ (v : option json) : result jsstring :=
  match v with
  | None => Ok (js "undefined")
  | Some x => ToString x
  end.

(** [Number(v)] *)
Definition Number_ (v : option json) : result jsnum :=
  match v with
  | None => Ok NaN
  | Some JNull => Ok (Fin 0 0)
  | Some (JBool b) => Ok (if b then Fin 1 0 else Fin 0 0)
  | Some (JNum x) => Ok x
  | Some (JStr s) => Ok (StringToNumber s)
  | Some (JArr items) => StringToNumber <$> ToString (JArr items)
  | Some (JObj fields) =>
      if hasOwn "toString" fields then Throw TypeError else Ok NaN
  end.

(** Truthiness of a value, as [||], [&&] and [!] see it. *)
Definition truthy (v : option json) : bool :=
  match v with
  | None | Some JNull => false
  | Some (JBool b) => b
  | Some (JNum NaN) => false
  | Some (JNum x) => negb (isZeroNum x)
  | Some (JStr s) => negb (streq s [])
  | Some (JArr _) | Some (JObj _) => true
  end.

(** The elements of [v] when [Array.isArray(v)]. *)
Definition asArray (v : option json) : option (list json) :=
  match v with
  | Some (JArr items) => Some items
  | _ => None
  end.

(** [typeof v === "string" && v.trim() ? v.trim() : dflt] *)
Definition trimmedOr (v : option json) (dflt : jsstring) : jsstring :=
  match v with
  | Some (JStr s) => match trim s with [] => dflt | t => t end
  | _ => dflt
  end.

(** ** [clampInt] *)

(** The body of [clampInt] once [Number(n)] has been taken. *)
Definition clampNum (x : jsnum) (lo hi dflt : Z) : Z :=
  match x with
  | Fin m e => Z.min hi (Z.max lo (floorFin m e))
  | _ => dflt
  end.

Definition clampInt (n : option json) (lo hi dflt : Z) : result Z :=
  x ← Number_ n; Ok (clampNum x lo hi dflt).

(** ** The security plan *)

Inductive VizKind : Set := kind_none | kind_single | kind_table | kind_bar | kind_pie | kind_line.
Inductive Template : Set := tpl_count | tpl_table | tpl_count_by | tpl_trend.
Inductive GroupBy : Set :=
  gb_Severity | gb_node_pod_container | gb_recent_network_activity | gb_tag.
Inductive Split : Set := split_none | split_severity.
Inductive Severity : Set := CRITICAL | WARNING | INFO.
Inductive Language : Set := en | zh.

#[global] Instance VizKind_eq_dec : EqDecision VizKind.
Proof. solve_decision. Defined.
#[global] Instance Template_eq_dec : EqDecision Template.
Proof. solve_decision. Defined.
#[global] Instance GroupBy_eq_dec : EqDecision GroupBy.
Proof. solve_decision. Defined.
#[global] Instance Split_eq_dec : EqDecision Split.
Proof. solve_decision. Defined.
#[global] Instance Severity_eq_dec : EqDecision Severity.
Proof. solve_decision. Defined.
#[global] Instance Language_eq_dec : EqDecision Language.
Proof. solve_decision. Defined.

Record OutputSpec : Type := mkOutputSpec {
  kind : VizKind;
  title : jsstring;
  template : Template;
  group_by : option GroupBy;
  limit : option Z;
  span : option jsstring;
  split : option Split;
}.

Record Filters : Type := mkFilters {
  severity_exact : option (list Severity);
  description_like : option jsstring;
  details_like : option jsstring;
  node_like : option jsstring;
  has_network_activity : option bool;
  tags_exact : option (list jsstring);
}.

Record Plan : Type := mkPlan {
  language : Language;
  earliest_time : jsstring;
  latest_time : jsstring;
  filters : Filters;
  outputs : list OutputSpec;
}.

(** The two variables of [process.env] that the plan reads. *)
Record Env : Type := mkEnv {
  DEFAULT_EARLIEST_TIME : option jsstring;
  DEFAULT_LATEST_TIME : option jsstring;
}.

(** [process.env.X || dflt] *)
Definition envOr (v : option jsstring) (dflt : jsstring) : jsstring :=
  match v with
  | Some (c :: r) => c :: r
  | _ => dflt
  end.

(** [/[\u4e00-\u9fff]/.test(msg)] *)
Definition detectLanguage (msg : jsstring) : Language :=
  if existsb (fun c => (0x4e00 <=? c) && (c <=? 0x9fff))%N msg then zh else en.

(** *** Tag tokens of the user message *)

(** One pattern character against one input unit under the [i] flag of a
    non-unicode regular expression: only the two ASCII cases of a letter
    canonicalize to the same unit. *)
Definition ciEq (p c : N) : bool :=
  (c =? p)%N || (isUpperAscii c && (c + 32 =? p)%N).

Fixpoint startsWithCI (s pat : jsstring) : bool :=
  match pat, s with
  | [], _ => true
  | p :: pat', c :: s' => ciEq p c && startsWithCI s' pat'
  | _ :: _, [] => false
  end.

Definition digitsAt (n : nat) (s : jsstring) : bool :=
  bool_decide (length (take n s) = n) && forallb isDigit (take n s).

(** [/attack\.t\d{4}(?:\.\d{3})?/i] tried at the head of [s]: the length of
    the match. *)
Definition matchAttackAt (s : jsstring) : option nat :=
  if startsWithCI s (js "attack.t") && digitsAt 4 (drop 8 s) then
    match drop 12 s with
    | 46%N :: r => if digitsAt 3 r then Some 16%nat else Some 12%nat
    | _ => Some 12%nat
    end
  else None.

(** The class [[a-z0-9._-]]; [ci] is the [i] flag. *)
Definition isTagChar (ci : bool) (c : N) : bool :=
  isLowerAscii c || isDigit c || (c =? 46)%N || (c =? 95)%N || (c =? 45)%N
  || (ci && isUpperAscii c).

(** [/nist\.[a-z0-9._-]+/i] tried at the head of [s]. *)
Definition matchNistAt (s : jsstring) : option nat :=
  if startsWithCI s (js "nist.") then
    match spanWhile (isTagChar true) (drop 5 s) with
    | ([], _) => None
    | (body, _) => Some (5 + length body)%nat
    end
  else None.

(** [s.match(re)] for a global [re]: the leftmost match, then the leftmost
    match after it, and so on. [skip] counts the units of the current match
    that are still to be passed over. *)
Fixpoint matchAll (matchAt : jsstring -> option nat) (skip : nat) (s : jsstring)
  : list jsstring :=
  match s with
  | [] => []
  | _ :: r =>
      match skip with
      | S k => matchAll matchAt k r
      | O =>
          match matchAt s with
          | Some n => take n s :: matchAll matchAt (Nat.pred n) r
          | None => matchAll matchAt O r
          end
      end
  end.

(** [out.add(x)] on a [Set], kept in insertion order. *)
Definition Set_add (out : list jsstring) (x : jsstring) : list jsstring :=
  if bool_decide (x ∈ out) then out else out ++ [x].

Definition extractTagTokens (userMsg : jsstring) : list jsstring :=
  let out := [] in
  let out := fold_left (fun out m => Set_add out (toLowerCase m))
                       (matchAll matchAttackAt O userMsg) out in
  let out := fold_left (fun out m => Set_add out (toLowerCase m))
                       (matchAll matchNistAt O userMsg) out in
  out.

Definition userExplicitTagIntent (userMsg : jsstring) : bool :=
  let s := toLowerCase userMsg in
  if includes s (js "mitre") || includes s (js "att&ck") || includes s (js "attack.")
  then true
  else if includes s (js "nist") then true
  else negb (bool_decide (length (extractTagTokens userMsg) = 0%nat)).

Definition containsNetworkActivityIntent (userMsg : jsstring) : bool :=
  let s := toLowerCase userMsg in
  if includes s (js "network activity") then true
  else if includes s (js "egress") || includes s (js "ingress") then true
  else if includes userMsg [0x7f51; 0x7edc]%N then true
  else false.

(** *** [normalizeOutputs] *)

Definition parseKind (s : jsstring) : option VizKind :=
  if streq s (js "none") then Some kind_none
  else if streq s (js "single") then Some kind_single
  else if streq s (js "table") then Some kind_table
  else if streq s (js "bar") then Some kind_bar
  else if streq s (js "pie") then Some kind_pie
  else if streq s (js "line") then Some kind_line
  else None.

Definition parseTemplate (s : jsstring) : option Template :=
  if streq s (js "count") then Some tpl_count
  else if streq s (js "table") then Some tpl_table
  else if streq s (js "count_by") then Some tpl_count_by
  else if streq s (js "trend") then Some tpl_trend
  else None.

Definition parseGroupBy (s : jsstring) : option GroupBy :=
  if streq s (js "Severity") then Some gb_Severity
  else if streq s (js "node_pod_container") then Some gb_node_pod_container
  else if streq s (js "recent_network_activity") then Some gb_recent_network_activity
  else if streq s (js "tag") then Some gb_tag
  else None.

Definition parseSplit (s : jsstring) : option Split :=
  if streq s (js "none") then Some split_none
  else if streq s (js "severity") then Some split_severity
  else None.

Definition set_kind (k : VizKind) (o : OutputSpec) : OutputSpec :=
  mkOutputSpec k (title o) (template o) (group_by o) (limit o) (span o) (split o).
Definition set_group_by (g : GroupBy) (o : OutputSpec) : OutputSpec :=
  mkOutputSpec (kind o) (title o) (template o) (Some g) (limit o) (span o) (split o).
Definition set_limit (n : Z) (o : OutputSpec) : OutputSpec :=
  mkOutputSpec (kind o) (title o) (template o) (group_by o) (Some n) (span o) (split o).
Definition set_span (sp : jsstring) (o : OutputSpec) : OutputSpec :=
  mkOutputSpec (kind o) (title o) (template o) (group_by o) (limit o) (Some sp) (split o).
Definition set_split (sp : Split) (o : OutputSpec) : OutputSpec :=
  mkOutputSpec (kind o) (title o) (template o) (group_by o) (limit o) (span o) (Some sp).

(** The body of the loop of [normalizeOutputs], for one element [o]. *)
Definition normalizeOutput (o : option json) : result OutputSpec :=
  kindS ← String_ (get o "kind");
  let kind' := default kind_none (parseKind kindS) in
  templateS ← String_ (get o "template");
  let template' := default tpl_table (parseTemplate templateS) in
  let title' := trimmedOr (get o "title") (js "Result") in
  let spec := mkOutputSpec kind' title' template' None None None None in
  spec ← (if decide (template' = tpl_count_by) then
            g ← String_ (get o "group_by");
            let spec := set_group_by (default gb_Severity (parseGroupBy g)) spec in
            n ← clampInt (get o "limit") 3 50 10;
            let spec := set_limit n spec in
            Ok (if decide (spec.(kind) ≠ kind_bar ∧ spec.(kind) ≠ kind_pie)
                then set_kind kind_bar spec else spec)
          else Ok spec);
  spec ← (if decide (template' = tpl_trend) then
            let spec := set_span (trimmedOr (get o "span") (js "5m")) spec in
            sp ← String_ (get o "split");
            let spec := set_split (default split_none (parseSplit sp)) spec in
            Ok (set_kind kind_line spec)
          else Ok spec);
  let spec := if decide (template' = tpl_count) then set_kind kind_single spec else spec in
  (if decide (template' = tpl_table) then
     let spec := set_kind kind_table spec in
     n ← clampInt (get o "limit") 5 200 50;
     Ok (set_limit n spec)
   else Ok spec).

Definition normalizeOutputs (rawOutputs : option json) : result (list OutputSpec) :=
  let outputsIn := default [] (asArray rawOutputs) in
  mapM (fun o => normalizeOutput (Some o)) outputsIn.

(** *** [normalizePlan] *)

(** [String(x || "")] *)
Definition stringOrEmpty (x : json) : result jsstring :=
  if truthy (Some x) then ToString x else Ok [].

Definition parseSeverity (s : jsstring) : option Severity :=
  if streq s (js "CRITICAL") then Some CRITICAL
  else if streq s (js "WARNING") then Some WARNING
  else if streq s (js "INFO") then Some INFO
  else None.

(** [/^[a-z0-9._-]+$/.test(x)] *)
Definition isTagToken (x : jsstring) : bool :=
  negb (streq x []) && forallb (isTagChar false) x.

(** [v] when it is a string with a non-blank trimmed form, trimmed. *)
Definition trimmedString (v : option json) : option jsstring :=
  match v with
  | Some (JStr s) => match trim s with [] => None | t => Some t end
  | _ => None
  end.

(** [a ?? b] *)
Definition nullish (a b : option json) : option json :=
  match a with
  | None | Some JNull => b
  | _ => a
  end.

Definition isObject (v : option json) : bool :=
  match v with
  | Some (JArr _) | Some (JObj _) => true
  | _ => false
  end.

Definition nonEmpty {A} (l : list A) : option (list A) :=
  match l with
  | [] => None
  | _ => Some l
  end.

Definition normalizePlan (env : Env) (raw : option json) (userMsg : jsstring) : result Plan :=
  let lang := detectLanguage userMsg in
  let earliest := trimmedOr (get raw "earliest_time")
                            (envOr (DEFAULT_EARLIEST_TIME env) (js "-15m")) in
  let latest := trimmedOr (get raw "latest_time")
                          (envOr (DEFAULT_LATEST_TIME env) (js "now")) in
  let rf := nullish (get raw "filters") (Some (JObj [])) in
  let sevRaw := if isObject rf
                then nullish (get rf "severity_exact") (get rf "severity")
                else None in
  sev ← match asArray sevRaw with
        | Some items =>
            strs ← mapM (fun x => s ← stringOrEmpty x; Ok (toUpperCase (trim s))) items;
            Ok (nonEmpty (omap parseSeverity strs))
        | None => Ok None
        end;
  let description := trimmedString (get rf "description_like") in
  let details := trimmedString (get rf "details_like") in
  let node := trimmedString (get rf "node_like") in
  let net := match get rf "has_network_activity" with
             | Some (JBool b) => Some b
             | _ => None
             end in
  tags ← match asArray (get rf "tags_exact") with
         | Some items =>
             strs ← mapM (fun x => s ← stringOrEmpty x; Ok (toLowerCase (trim s))) items;
             Ok (nonEmpty (filter (fun x => isTagToken x = true) strs))
         | None => Ok None
         end;
  outs ← normalizeOutputs (get raw "outputs");
  Ok (mkPlan lang earliest latest (mkFilters sev description details node net tags) outs).

(** *** [ensureGuardrails] *)

Definition defaultTable : OutputSpec :=
  mkOutputSpec kind_table (js "Events") tpl_table None (Some 50) None None.

Definition set_tags (t : option (list jsstring)) (f : Filters) : Filters :=
  mkFilters (severity_exact f) (description_like f) (details_like f) (node_like f)
            (has_network_activity f) t.
Definition set_network (b : bool) (f : Filters) : Filters :=
  mkFilters (severity_exact f) (description_like f) (details_like f) (node_like f)
            (Some b) (tags_exact f).

(** [plan.outputs.some((o) => o.kind !== "none")] *)
Definition meaningful (outs : list OutputSpec) : bool :=
  existsb (fun o => negb (bool_decide (kind o = kind_none))) outs.

(** The plan is updated in place by the source; here the updated plan is
    returned. *)
Definition ensureGuardrails (plan : Plan) (userMsg : jsstring) : Plan :=
  let lang := detectLanguage userMsg in
  let tokens := extractTagTokens userMsg in
  let f := filters plan in
  let f := if negb (userExplicitTagIntent userMsg) || bool_decide (length tokens = 0%nat)
           then set_tags None f
           else set_tags (Some tokens) f in
  let f := if containsNetworkActivityIntent userMsg
              && negb (bool_decide (is_Some (has_network_activity f)))
           then set_network true f else f in
  let outs := outputs plan in
  let outs := if bool_decide (length outs = 0%nat) then [defaultTable] else outs in
  let outs := if negb (meaningful outs) then [defaultTable] else outs in
  let outs := take 4 outs in
  mkPlan lang (earliest_time plan) (latest_time plan) f outs.

Definition noFilters : Filters := mkFilters None None None None None None.

Definition defaultPlan (env : Env) (userMsg : jsstring) : Plan :=
  let lang := detectLanguage userMsg in
  let earliest := envOr (DEFAULT_EARLIEST_TIME env) (js "-15m") in
  let latest := envOr (DEFAULT_LATEST_TIME env) (js "now") in
  let outs := [defaultTable] in
  let outs :=
    if containsNetworkActivityIntent userMsg
    then mkOutputSpec kind_bar (js "Network Activity") tpl_count_by
                      (Some gb_recent_network_activity) (Some 10) None None :: outs
    else mkOutputSpec kind_bar (js "Severity") tpl_count_by
                      (Some gb_Severity) (Some 10) None None :: outs in
  mkPlan lang earliest latest noFilters (take 4 outs).

(** The planning stage of [POST] for the security workspace, from
    [planObj], the object decoded from the planner's answer ([None] when
    the call failed or nothing could be decoded): an exception raised
    while normalizing is caught and the default plan is substituted. *)
Definition planSecurity (env : Env) (planObj : option json) (userMsg : jsstring) : Plan :=
  let plan :=
    if truthy planObj then
      match normalizePlan env planObj userMsg with
      | Ok p => Some (ensureGuardrails p userMsg)
      | Throw _ => None
      end
    else None in
  match plan with
  | Some p => p
  | None => ensureGuardrails (defaultPlan env userMsg) userMsg
  end.

(** ** The observability plan *)

Inductive ObservabilityViz : Set := viz_line | viz_network.
Inductive ObservabilityMcp : Set := grafana | hubble | ndi.
Inductive ObservabilityTool : Set :=
  query_dashboard_timeseries | fetch_flow_metrics | fetch_anomalies.
Inductive ObservabilityTarget : Set :=
  | hubble_l7_http_metrics_by_workload
  | nvidia_dcgm_exporter_dashboard
  | vllm_dashboard
  | ai_serving_foundation_instruct_vllm
  | fdtn_ai_Foundation_Sec_8B_Instruct
  | default_cluster.
Inductive ObservabilityMetric : Set :=
  success_count_per_minute | success_rate | gpu_utilization | policy_drop_flows | anomaly_events.

#[global] Instance ObservabilityViz_eq_dec : EqDecision ObservabilityViz.
Proof. solve_decision. Defined.
#[global] Instance ObservabilityMcp_eq_dec : EqDecision ObservabilityMcp.
Proof. solve_decision. Defined.
#[global] Instance ObservabilityTool_eq_dec : EqDecision ObservabilityTool.
Proof. solve_decision. Defined.
#[global] Instance ObservabilityTarget_eq_dec : EqDecision ObservabilityTarget.
Proof. solve_decision. Defined.
#[global] Instance ObservabilityMetric_eq_dec : EqDecision ObservabilityMetric.
Proof. solve_decision. Defined.

Definition targetName (t : ObservabilityTarget) : jsstring :=
  match t with
  | hubble_l7_http_metrics_by_workload => js "hubble-l7-http-metrics-by-workload"
  | nvidia_dcgm_exporter_dashboard => js "nvidia-dcgm-exporter-dashboard"
  | vllm_dashboard => js "vllm-dashboard"
  | ai_serving_foundation_instruct_vllm => js "ai-serving/foundation-instruct-vllm"
  | fdtn_ai_Foundation_Sec_8B_Instruct => js "fdtn-ai/Foundation-Sec-8B-Instruct"
  | default_cluster => js "default-cluster"
  end.

Definition metricName (m : ObservabilityMetric) : jsstring :=
  match m with
  | success_count_per_minute => js "success_count_per_minute"
  | success_rate => js "success_rate"
  | gpu_utilization => js "gpu_utilization"
  | policy_drop_flows => js "policy_drop_flows"
  | anomaly_events => js "anomaly_events"
  end.

Record ObservabilityRequest : Type := mkRequest {
  mcp : ObservabilityMcp;
  tool : ObservabilityTool;
  target : ObservabilityTarget;
  metric : ObservabilityMetric;
  viz : ObservabilityViz;
  req_title : jsstring;
}.

Record ObservabilityPlan : Type := mkObservabilityPlan {
  obs_language : Language;
  obs_earliest_time : jsstring;
  obs_latest_time : jsstring;
  requests : list ObservabilityRequest;
}.

Inductive ObservabilityIntent : Set :=
  intent_success_rate | intent_success_count | intent_anomaly | intent_gpu | intent_unknown.

(** Membership in the sets [OBSERVABILITY_ALLOWED_*]: [Set.has] compares
    with SameValueZero, so only a string equal to a member is found. *)
Fixpoint named {A} (names : list (jsstring * A)) (s : jsstring) : option A :=
  match names with
  | [] => None
  | (k, a) :: r => if streq s k then Some a else named r s
  end.

Definition firstNamed {A} (names : list (jsstring * A)) (v : option json) : option A :=
  match v with
  | Some (JStr s) => named names s
  | _ => None
  end.

Definition OBSERVABILITY_ALLOWED_TIMES : list jsstring := [js "-15m"; js "-30m"; js "-60m"].

Definition OBSERVABILITY_ALLOWED_MCPS : list (jsstring * ObservabilityMcp) :=
  [(js "grafana", grafana); (js "hubble", hubble); (js "ndi", ndi)].

Definition OBSERVABILITY_ALLOWED_TOOLS : list (jsstring * ObservabilityTool) :=
  [(js "query_dashboard_timeseries", query_dashboard_timeseries);
   (js "fetch_flow_metrics", fetch_flow_metrics);
   (js "fetch_anomalies", fetch_anomalies)].

Definition OBSERVABILITY_ALLOWED_TARGETS : list (jsstring * ObservabilityTarget) :=
  (fun t => (targetName t, t)) <$>
  [hubble_l7_http_metrics_by_workload; nvidia_dcgm_exporter_dashboard; vllm_dashboard;
   ai_serving_foundation_instruct_vllm; fdtn_ai_Foundation_Sec_8B_Instruct; default_cluster].

Definition OBSERVABILITY_ALLOWED_METRICS : list (jsstring * ObservabilityMetric) :=
  (fun m => (metricName m, m)) <$>
  [success_count_per_minute; success_rate; gpu_utilization; policy_drop_flows; anomaly_events].

Definition OBSERVABILITY_ALLOWED_VIZ : list (jsstring * ObservabilityViz) :=
  [(js "line", viz_line); (js "network", viz_network)].

Definition isAllowedObservabilityCombo (req : ObservabilityRequest) : bool :=
  if decide (mcp req = grafana) then
    if negb (bool_decide (tool req = query_dashboard_timeseries))
       || negb (bool_decide (viz req = viz_line)) then false
    else if bool_decide (target req = vllm_dashboard)
            && bool_decide (metric req = success_count_per_minute) then true
    else if bool_decide (target req = hubble_l7_http_metrics_by_workload)
            && bool_decide (metric req = success_rate) then true
    else if bool_decide (target req = nvidia_dcgm_exporter_dashboard)
            && bool_decide (metric req = gpu_utilization) then true
    else false
  else if decide (mcp req = hubble) then
    bool_decide (tool req = fetch_flow_metrics) && bool_decide (viz req = viz_network)
    && bool_decide (target req = ai_serving_foundation_instruct_vllm)
    && bool_decide (metric req = policy_drop_flows)
  else
    bool_decide (mcp req = ndi) && bool_decide (tool req = fetch_anomalies)
    && bool_decide (viz req = viz_network) && bool_decide (target req = default_cluster)
    && bool_decide (metric req = anomaly_events).

(** The body of the loop of [normalizeObservabilityPlan]: the request that
    element [r] contributes, if any. *)
Definition normalizeRequest (r : json) : option ObservabilityRequest :=
  let reqObj := nullish (Some r) (Some (JObj [])) in
  let mcp' := firstNamed OBSERVABILITY_ALLOWED_MCPS (get reqObj "mcp") in
  let tool' := firstNamed OBSERVABILITY_ALLOWED_TOOLS (get reqObj "tool") in
  let target' := firstNamed OBSERVABILITY_ALLOWED_TARGETS (get reqObj "target") in
  let metric' := firstNamed OBSERVABILITY_ALLOWED_METRICS (get reqObj "metric") in
  let viz' := firstNamed OBSERVABILITY_ALLOWED_VIZ (get reqObj "viz") in
  let title' := trimmedOr (get reqObj "title") (js "Observability") in
  match mcp', tool', target', metric', viz' with
  | Some a, Some b, Some c, Some d, Some e =>
      let req := mkRequest a b c d e title' in
      if negb (isAllowedObservabilityCombo req) then None else Some req
  | _, _, _, _, _ => None
  end.

Definition normalizeObservabilityPlan (raw : option json) (userMsg : jsstring)
  : ObservabilityPlan :=
  let lang := detectLanguage userMsg in
  let earliest :=
    match get raw "earliest_time" with
    | Some (JStr t) => if bool_decide (t ∈ OBSERVABILITY_ALLOWED_TIMES) then t else js "-15m"
    | _ => js "-15m"
    end in
  let latest := js "now" in
  let requestsIn := default [] (asArray (get raw "requests")) in
  let reqs := omap normalizeRequest requestsIn in
  mkObservabilityPlan lang earliest latest (take 3 reqs).

Definition isAnomalyText (s : jsstring) : bool :=
  includes s [0x901a; 0x4fe1; 0x5f02; 0x5e38]%N || includes s (js "anomaly")
  || includes s (js "abnormal") || includes s (js "drop").

Definition isSuccessRateText (s : jsstring) : bool :=
  includes s [0x6210; 0x529f; 0x7387]%N || includes s (js "success rate").

Definition hubbleRequest (lang : Language) : ObservabilityRequest :=
  mkRequest hubble fetch_flow_metrics ai_serving_foundation_instruct_vllm policy_drop_flows
    viz_network
    (if decide (lang = zh) then [0x901a; 0x4fe1; 0x5f02; 0x5e38; 0x62d3; 0x6251]%N
     else js "Communication anomaly topology").

Definition ndiRequest (lang : Language) : ObservabilityRequest :=
  mkRequest ndi fetch_anomalies default_cluster anomaly_events viz_network
    (if decide (lang = zh) then [0x4f4e; 0x5c42; 0x7f51; 0x7edc; 0x5f02; 0x5e38]%N
     else js "Underlay anomalies").

Definition successRateRequest (lang : Language) : ObservabilityRequest :=
  mkRequest grafana query_dashboard_timeseries hubble_l7_http_metrics_by_workload success_rate
    viz_line
    (if decide (lang = zh) then [0x6210; 0x529f; 0x7387; 0x8d8b; 0x52bf]%N
     else js "Success rate trend").

Definition gpuRequest (lang : Language) : ObservabilityRequest :=
  mkRequest grafana query_dashboard_timeseries nvidia_dcgm_exporter_dashboard gpu_utilization
    viz_line
    (if decide (lang = zh) then js "GPU" ++ [0x5229; 0x7528; 0x7387; 0x8d8b; 0x52bf]%N
     else js "GPU utilization trend").

Definition successCountRequest (lang : Language) : ObservabilityRequest :=
  mkRequest grafana query_dashboard_timeseries vllm_dashboard success_count_per_minute
    viz_line
    (if decide (lang = zh)
     then js "vLLM" ++ [0x6210; 0x529f; 0x6b21; 0x6570; 0x8d8b; 0x52bf]%N
     else js "vLLM success count trend").

Definition fallbackObservabilityPlan (userMsg : jsstring) : ObservabilityPlan :=
  let lang := detectLanguage userMsg in
  let s := toLowerCase userMsg in
  if isAnomalyText s then
    mkObservabilityPlan lang (js "-15m") (js "now") [hubbleRequest lang; ndiRequest lang]
  else if isSuccessRateText s then
    mkObservabilityPlan lang (js "-15m") (js "now") [successRateRequest lang]
  else if includes s (js "gpu") then
    mkObservabilityPlan lang (js "-15m") (js "now") [gpuRequest lang]
  else
    mkObservabilityPlan lang (js "-15m") (js "now") [successCountRequest lang].

Definition detectObservabilityIntent (userMsg : jsstring) : ObservabilityIntent :=
  let s := toLowerCase userMsg in
  if isAnomalyText s then intent_anomaly
  else if isSuccessRateText s then intent_success_rate
  else if includes s (js "gpu") then intent_gpu
  else if includes s [0x6210; 0x529f; 0x6b21; 0x6570]%N || includes s (js "success count")
  then intent_success_count
  else intent_unknown.

Definition buildObservabilityRequest (intent : ObservabilityIntent) (lang : Language)
  : list ObservabilityRequest :=
  match intent with
  | intent_anomaly => [hubbleRequest lang; ndiRequest lang]
  | intent_success_rate => [successRateRequest lang]
  | intent_gpu => [gpuRequest lang]
  | _ => [successCountRequest lang]
  end.

Definition enforceObservabilityIntent (plan : ObservabilityPlan) (userMsg : jsstring)
  : ObservabilityPlan :=
  let intent := detectObservabilityIntent userMsg in
  match intent with
  | intent_unknown => plan
  | _ =>
      let reqs := buildObservabilityRequest intent (obs_language plan) in
      mkObservabilityPlan (obs_language plan) (obs_earliest_time plan) (obs_latest_time plan) reqs
  end.

(** The planning stage of [POST] for the observability workspace. *)
Definition planObservability (planObj : option json) (userMsg : jsstring) : ObservabilityPlan :=
  let plan := if truthy planObj then Some (normalizeObservabilityPlan planObj userMsg)
              else None in
  let plan := match plan with
              | Some p => if bool_decide (length (requests p) = 0%nat)
                          then fallbackObservabilityPlan userMsg else p
              | None => fallbackObservabilityPlan userMsg
              end in
  enforceObservabilityIntent plan userMsg.

(** ** The SPL template compiler *)

(** [s.replace(/c/g, by)] for a one-character pattern and a replacement
    text without [$]. *)
Definition replaceAll (c : N) (by_ : jsstring) (s : jsstring) : jsstring :=
  s ≫= (fun x => if (x =? c)%N then by_ else [x]).

Definition backslash : N := 92%N.
Definition dquote : N := 34%N.

Definition escapeSplString (s : jsstring) : jsstring :=
  replaceAll dquote [backslash; dquote] (replaceAll backslash [backslash; backslash] s).

(** A double-quoted literal of the query language. *)
Definition quoted (s : jsstring) : jsstring := [dquote] ++ s ++ [dquote].

Definition newline : jsstring := [10%N].

Definition BASE_SEARCH : jsstring :=
  join newline
    [js "| savedsearch " ++ quoted (js "Event_Table");
     js "| eval _time=strptime(Time," ++ quoted (js "%Y-%m-%d %H:%M:%S") ++ js ")";
     js "| rename " ++ quoted (js "Recent Network Activity")
       ++ js " as recent_network_activity " ++ quoted (js "Node: Pod/Container")
       ++ js " as node_pod_container"].

Definition severityName (v : Severity) : jsstring :=
  match v with
  | CRITICAL => js "CRITICAL"
  | WARNING => js "WARNING"
  | INFO => js "INFO"
  end.

(** [x && x.length > 0] on an optional string or array *)
Definition present {A} (x : option (list A)) : option (list A) :=
  match x with
  | Some (a :: r) => Some (a :: r)
  | _ => None
  end.

Definition likeClause (field : string) (x : option jsstring) : list jsstring :=
  match present x with
  | Some v => [js "like(" ++ js field ++ js ", " ++ quoted (js "%" ++ escapeSplString v ++ js "%")
               ++ js ")"]
  | None => []
  end.

Definition buildFilterPipeline (f : Filters) : list jsstring :=
  let lines :=
    match present (tags_exact f) with
    | Some tags =>
        let ors := join (js " OR ")
                     ((fun t => js "mvfind(__tags," ++ quoted (escapeSplString t) ++ js ")>=0")
                        <$> tags) in
        [js "| eval __tags=split(Tags, " ++ quoted (js ", ") ++ js ")";
         js "| where (" ++ ors ++ js ")"]
    | None => []
    end in
  let clauses :=
    match present (severity_exact f) with
    | Some sevs =>
        let list_ := join (js ",")
                       ((fun v => quoted (escapeSplString (severityName v))) <$> sevs) in
        [js "in(Severity, " ++ list_ ++ js ")"]
    | None => []
    end in
  let clauses := clauses ++ likeClause "Description" (description_like f) in
  let clauses := clauses ++ likeClause "Details" (details_like f) in
  let clauses := clauses ++ likeClause "node_pod_container" (node_like f) in
  let clauses :=
    match has_network_activity f with
    | Some b =>
        clauses ++ [if b then js "recent_network_activity!=" ++ quoted (js "N/A")
                    else js "recent_network_activity=" ++ quoted (js "N/A")]
    | None => clauses
    end in
  match clauses with
  | [] => lines
  | _ => lines ++ [js "| where " ++ join (js " AND ") clauses]
  end.

Definition splCount (f : Filters) : jsstring :=
  let fp := buildFilterPipeline f in
  join newline ([BASE_SEARCH] ++ fp ++ [js "| stats count as value"]).

(** [limit] has type [number] here: [Number(limit)] is [limit]. *)
Definition splTable (f : Filters) (limit : jsnum) : jsstring :=
  let n := clampNum limit 5 200 50 in
  let fp := buildFilterPipeline f in
  join newline
    ([BASE_SEARCH] ++ fp ++
     [js "| sort 0 -_time";
      js "| head " ++ decZ n;
      js "| table Time Severity Description Tags Details recent_network_activity node_pod_container";
      js "| rename recent_network_activity as " ++ quoted (js "Recent Network Activity")
        ++ js " node_pod_container as " ++ quoted (js "Node: Pod/Container")]).

Definition splCountBy (f : Filters) (groupBy : GroupBy) (limit : jsnum) : jsstring :=
  let n := clampNum limit 3 50 10 in
  let fp := buildFilterPipeline f in
  match groupBy with
  | gb_tag =>
      join newline
        ([BASE_SEARCH] ++ fp ++
         [js "| eval tag=split(Tags, " ++ quoted (js ", ") ++ js ")";
          js "| mvexpand tag";
          js "| stats count as count by tag";
          js "| sort 0 -count";
          js "| head " ++ decZ n])
  | gb_Severity =>
      join newline
        ([BASE_SEARCH] ++ fp ++
         [js "| stats count as count by Severity"; js "| sort 0 -count"; js "| head " ++ decZ n])
  | gb_node_pod_container =>
      join newline
        ([BASE_SEARCH] ++ fp ++
         [js "| stats count as count by node_pod_container"; js "| sort 0 -count";
          js "| head " ++ decZ n])
  | gb_recent_network_activity =>
      join newline
        ([BASE_SEARCH] ++ fp ++
         [js "| stats count as count by recent_network_activity"; js "| sort 0 -count";
          js "| head " ++ decZ n])
  end.

Definition evalSeverity (name : string) : jsstring :=
  js "  count(eval(Severity=" ++ quoted (js name) ++ js ")) as ".

Definition strftimeLine : jsstring :=
  js "| eval time=strftime(_time," ++ quoted (js "%H:%M") ++ js ")".

Definition splTrend (f : Filters) (span : jsstring) (sp : Split) : jsstring :=
  let fp := buildFilterPipeline f in
  let bucket := match trim span with [] => js "5m" | t => t end in
  match sp with
  | split_severity =>
      join newline
        ([BASE_SEARCH] ++ fp ++
         [js "| timechart span=" ++ bucket;
          js "  count as total";
          evalSeverity "CRITICAL" ++ js "critical";
          evalSeverity "WARNING" ++ js "warning";
          evalSeverity "INFO" ++ js "info";
          strftimeLine;
          js "| fields time total critical warning info"])
  | split_none =>
      join newline
        ([BASE_SEARCH] ++ fp ++
         [js "| timechart span=" ++ bucket ++ js " count as total";
          strftimeLine;
          js "| fields time total"])
  end.

(** [Number(out.limit)] for a limit of type [number | undefined]. *)
Definition numOfLimit (l : option Z) : jsnum :=
  match l with
  | Some z => ofZ z
  | None => NaN
  end.

(** The query that [runPanels] compiles for one output of a plan; an
    output of kind ["none"] is skipped. *)
Definition compileOutput (f : Filters) (out : OutputSpec) : option jsstring :=
  if decide (kind out = kind_none) then None
  else match template out with
       | tpl_count => Some (splCount f)
       | tpl_table => Some (splTable f (ofZ (clampNum (numOfLimit (limit out)) 5 200 50)))
       | tpl_count_by =>
           Some (splCountBy f (default gb_Severity (group_by out))
                            (ofZ (clampNum (numOfLimit (limit out)) 3 50 10)))
       | tpl_trend =>
           Some (splTrend f (default (js "5m") (span out))
                          (if decide (split out = Some split_severity)
                           then split_severity else split_none))
       end.

(** ** Panels *)

(** A row as the backend adapter returns it. *)
Abbreviation McpRow := (list (jsstring * json)).

(** A cell of a chart datum ([string | number]) or of a table row
    ([string | number | null | undefined]). *)
Inductive cell : Set :=
  | CStr (s : list N)
  | CNum (x : jsnum)
  | CNull
  | CUndefined.

Abbreviation ChartDatum := (list (jsstring * cell)).
Abbreviation TableRow := (list (jsstring * cell)).

Inductive Drilldown : Set := dd_severity | dd_tag | dd_node | dd_net.
Inductive NodeStatus : Set := status_ok | status_alert.

Record NetworkNode : Set := mkNode { node_id : list N; node_label : list N; node_status : NodeStatus }.
Record NetworkEdge : Set := mkEdge { edge_from : list N; edge_to : list N; edge_label : option (list N) }.
Record NetworkAnnotation : Set := mkAnnotation { nodeId : list N; annotation_label : list N }.
Record NetworkStats : Set := mkStats { policy_drop : option jsnum; anomalies : option jsnum }.
Record NetworkRow : Set := mkNetworkRow {
  source : list N;
  nodes : list NetworkNode;
  edges : list NetworkEdge;
  annotations : option (list NetworkAnnotation);
  stats : option NetworkStats;
}.

Inductive Panel : Type :=
  | panel_single (panel_id title spl label : jsstring) (value : jsnum)
  | panel_table (panel_id title spl : jsstring) (columns : list jsstring) (rows : list TableRow)
  | panel_bar (panel_id title spl xKey yKey : jsstring) (data : list ChartDatum)
              (drilldownType : Drilldown)
  | panel_pie (panel_id title spl xKey yKey : jsstring) (data : list ChartDatum)
              (drilldownType : Drilldown)
  | panel_line (panel_id title spl xKey : jsstring) (seriesKeys : list jsstring)
               (data : list ChartDatum)
  | panel_network (panel_id title : jsstring) (rows : list NetworkRow).

Definition panelTitle (p : Panel) : jsstring :=
  match p with
  | panel_single _ t _ _ _ | panel_table _ t _ _ _ | panel_bar _ t _ _ _ _ _
  | panel_pie _ t _ _ _ _ _ | panel_line _ t _ _ _ _ | panel_network _ t _ => t
  end.

Definition panelId (p : Panel) : jsstring :=
  match p with
  | panel_single i _ _ _ _ | panel_table i _ _ _ _ | panel_bar i _ _ _ _ _ _
  | panel_pie i _ _ _ _ _ _ | panel_line i _ _ _ _ _ | panel_network i _ _ => i
  end.

(** The query or request description a panel carries. *)
Definition panelSpl (p : Panel) : option jsstring :=
  match p with
  | panel_single _ _ q _ _ | panel_table _ _ q _ _ | panel_bar _ _ q _ _ _ _
  | panel_pie _ _ q _ _ _ _ | panel_line _ _ q _ _ _ => Some q
  | panel_network _ _ _ => None
  end.

(** *** The run: backend, clock and emitted panels

    What lies outside the program is an oracle: the answer of the Splunk
    adapter to the [n]-th call of the run (rows, or a raised [Error]), the
    value of the [n]-th reading of [Date.now()], and the local-time label
    [toTimeString().slice(0, 5)] of an instant. *)
Record World : Type := mkWorld {
  splunk : nat -> jsstring -> jsstring -> jsstring -> Z -> result (list McpRow);
  clock : nat -> Z;
  timeLabel : Z -> jsstring;
}.

(** The effects of a run so far; [emitted] lists the panels handed to
    [pushPanel], oldest first. *)
Record Trace : Type := mkTrace {
  calls : nat;
  ticks : nat;
  emitted : list Panel;
}.

Definition IO (A : Type) : Type := Trace -> result A * Trace.

#[global] Instance IO_ret : MRet IO := fun A a t => (Ok a, t).
#[global] Instance IO_bind : MBind IO := fun A B f m t =>
  match m t with
  | (Ok a, t') => f a t'
  | (Throw e, t') => (Throw e, t')
  end.

Definition liftResult {A} (r : result A) : IO A := fun t => (r, t).

Definition Date_now (w : World) : IO Z :=
  fun t => (Ok (clock w (ticks t)), mkTrace (calls t) (S (ticks t)) (emitted t)).

Definition callSplunkMcp (w : World) (query earliest latest : jsstring) (row_limit : Z)
  : IO (list McpRow) :=
  fun t => (splunk w (calls t) query earliest latest row_limit,
            mkTrace (S (calls t)) (ticks t) (emitted t)).

Definition pushPanel (p : Panel) : IO unit :=
  fun t => (Ok tt, mkTrace (calls t) (ticks t) (emitted t ++ [p])).

Definition newPanelId (w : World) (prefix : string) (seq : nat) : IO jsstring :=
  now ← Date_now w;
  mret (js prefix ++ js "_" ++ decZ now ++ js "_" ++ decN (N.of_nat seq)).

(** *** Row shaping *)

(** One entry of [normalizeChartData]. Assigning to the key [__proto__]
    of a fresh object creates no property. *)
Definition chartEntry (kv : jsstring * json) : result (list (jsstring * cell)) :=
  let '(key, value) := kv in
  let keep c := if streq key (js "__proto__") then [] else [(key, c)] in
  match value with
  | JStr s => Ok (keep (CStr s))
  | JNum x => Ok (keep (CNum x))
  | JNull => Ok []
  | _ => s ← ToString value; Ok (keep (CStr s))
  end.

Definition normalizeChartData (rows : list McpRow) : result (list ChartDatum) :=
  mapM (fun row => @List.concat _ <$> mapM chartEntry row) rows.

Definition normalizeTableValue (value : option json) : result cell :=
  match value with
  | None => Ok CUndefined
  | Some JNull => Ok CNull
  | Some (JStr s) => Ok (CStr s)
  | Some (JNum x) => Ok (CNum x)
  | Some v => CStr <$> ToString v
  end.

Definition normalizeTableRows (rows : list McpRow) (columns : list jsstring)
  : result (list TableRow) :=
  mapM (fun row => mapM (fun col => c ← normalizeTableValue (lookupField col row);
                                    Ok (col, c)) columns) rows.

Definition tableColumns : list jsstring :=
  [js "Time"; js "Severity"; js "Description"; js "Tags"; js "Details";
   js "Recent Network Activity"; js "Node: Pod/Container"].

(** *** [runPanels] *)

(** One turn of the loop of [runPanels] for an output that is not
    suppressed: the panel it materializes. *)
Definition materialize (w : World) (plan : Plan) (seq : nat) (out : OutputSpec) : IO Panel :=
  match template out with
  | tpl_count =>
      let spl := splCount (filters plan) in
      rows ← callSplunkMcp w spl (earliest_time plan) (latest_time plan) 5;
      v ← liftResult (Number_ (nullish (get (JObj <$> head rows) "value")
                                       (Some (JNum (Fin 0 0)))));
      id ← newPanelId w "p_single" seq;
      mret (panel_single id (title out) spl (js "count") v)
  | tpl_table =>
      let limit' := clampNum (numOfLimit (limit out)) 5 200 50 in
      let spl := splTable (filters plan) (ofZ limit') in
      rows ← callSplunkMcp w spl (earliest_time plan) (latest_time plan) limit';
      let columns := tableColumns in
      id ← newPanelId w "p_table" seq;
      rows' ← liftResult (normalizeTableRows rows columns);
      mret (panel_table id (title out) spl columns rows')
  | tpl_count_by =>
      let groupBy := default gb_Severity (group_by out) in
      let limit' := clampNum (numOfLimit (limit out)) 3 50 10 in
      let spl := splCountBy (filters plan) groupBy (ofZ limit') in
      rows ← callSplunkMcp w spl (earliest_time plan) (latest_time plan) limit';
      data ← liftResult (normalizeChartData rows);
      let '(xKey, drilldownType) :=
        match groupBy with
        | gb_node_pod_container => (js "node_pod_container", dd_node)
        | gb_recent_network_activity => (js "recent_network_activity", dd_net)
        | gb_tag => (js "tag", dd_tag)
        | gb_Severity => (js "Severity", dd_severity)
        end in
      id ← newPanelId w "p_dist" seq;
      mret (if decide (kind out = kind_pie)
            then panel_pie id (title out) spl xKey (js "count") data drilldownType
            else panel_bar id (title out) spl xKey (js "count") data drilldownType)
  | tpl_trend =>
      let span' := default (js "5m") (span out) in
      let sp := if decide (split out = Some split_severity) then split_severity
                else split_none in
      let spl := splTrend (filters plan) span' sp in
      rows ← callSplunkMcp w spl (earliest_time plan) (latest_time plan) 500;
      data ← liftResult (normalizeChartData rows);
      let seriesKeys := match sp with
                        | split_severity => [js "total"; js "critical"; js "warning"; js "info"]
                        | split_none => [js "total"]
                        end in
      id ← newPanelId w "p_trend" seq;
      mret (panel_line id (title out) spl (js "time") seriesKeys data)
  end.

(** The loop of [runPanels] from sequence number [seq] on. An exception
    leaves the loop; what was pushed before it stays pushed. *)
Fixpoint runPanelsFrom (w : World) (plan : Plan) (seq : nat) (outs : list OutputSpec)
  : IO unit :=
  match outs with
  | [] => mret tt
  | out :: rest =>
      if decide (kind out = kind_none) then runPanelsFrom w plan seq rest
      else
        p ← materialize w plan seq out;
        _ ← pushPanel p;
        runPanelsFrom w plan (S seq) rest
  end.

Definition runPanels (w : World) (plan : Plan) : IO unit :=
  runPanelsFrom w plan 0 (outputs plan).

(** *** [runObservabilityPanels] *)

Definition buildMinuteSeries (w : World) (values : list Z) : IO (list ChartDatum) :=
  now ← Date_now w;
  let start := now - (Z.of_nat (length values) - 1) * 60 * 1000 in
  mret (imap (fun idx value =>
                [(js "time", CStr (timeLabel w (start + Z.of_nat idx * 60 * 1000)));
                 (js "value", CNum (ofZ value))]) values).

Definition mockGrafanaSeries (w : World) (m : ObservabilityMetric) : IO (list ChartDatum) :=
  match m with
  | success_rate =>
      buildMinuteSeries w [100; 100; 98; 95; 92; 85; 75; 60; 45; 30; 20; 10; 5; 2; 0]
  | gpu_utilization =>
      buildMinuteSeries w [42; 45; 48; 50; 55; 58; 60; 62; 64; 66; 68; 70; 72; 74; 76]
  | _ => buildMinuteSeries w [5; 5; 5; 4; 4; 3; 3; 2; 2; 1; 1; 1; 0; 0; 0]
  end.

Definition mockHubbleRow : NetworkRow :=
  mkNetworkRow (js "Hubble MCP (Overlay)")
    [mkNode (js "world") (js "World") status_ok;
     mkNode (js "ai-serving/foundation-instruct-vllm")
            (js "ai-serving/foundation-instruct-vllm") status_alert]
    [mkEdge (js "world") (js "ai-serving/foundation-instruct-vllm")
            (Some (js "Policy Drop: 20"))]
    None
    (Some (mkStats (Some (ofZ 20)) None)).

Fixpoint chainEdges (ns : list NetworkNode) : list NetworkEdge :=
  match ns with
  | a :: (b :: _) as r => mkEdge (node_id a) (node_id b) None :: chainEdges r
  | _ => []
  end.

Definition mockNdiRow : NetworkRow :=
  let nodes :=
    [mkNode (js "world") (js "World") status_ok;
     mkNode (js "router-03") (js "Router-03") status_ok;
     mkNode (js "leaf-02") (js "Leaf-02") status_ok;
     mkNode (js "spine-01") (js "Spine-01") status_ok;
     mkNode (js "leaf-01") (js "Leaf-01") status_ok;
     mkNode (js "loadbalancer-01") (js "Loadbalancer-01") status_ok;
     mkNode (js "leaf01") (js "Leaf01") status_ok;
     mkNode (js "spine-02") (js "Spine-02") status_ok;
     mkNode (js "leaf-03") (js "Leaf-03") status_ok;
     mkNode (js "csco-k8s-03") (js "csco-k8s-03") status_ok] in
  mkNetworkRow (js "NDI MCP (Underlay)") nodes (chainEdges nodes) None
               (Some (mkStats None (Some (ofZ 0)))).

Definition grafanaDescription (plan : ObservabilityPlan) (req : ObservabilityRequest)
  : jsstring :=
  js "MCP: Grafana (mock)" ++ newline ++ js "Dashboard: " ++ targetName (target req)
  ++ newline ++ js "Metric: " ++ metricName (metric req)
  ++ newline ++ js "Range: " ++ obs_earliest_time plan ++ js " -> " ++ obs_latest_time plan.

(** The loop of [runObservabilityPanels]; it returns the sequence number
    and the network rows collected when the loop ends. *)
Fixpoint runObservabilityFrom (w : World) (plan : ObservabilityPlan) (seq : nat)
    (networkRows : list NetworkRow) (reqs : list ObservabilityRequest)
  : IO (nat * list NetworkRow) :=
  match reqs with
  | [] => mret (seq, networkRows)
  | req :: rest =>
      if decide (viz req = viz_line) then
        data ← mockGrafanaSeries w (metric req);
        let spl := grafanaDescription plan req in
        id ← newPanelId w "p_trend" seq;
        _ ← pushPanel (panel_line id (req_title req) spl (js "time") [js "value"] data);
        runObservabilityFrom w plan (S seq) networkRows rest
      else
        let networkRows := if decide (mcp req = hubble)
                           then networkRows ++ [mockHubbleRow] else networkRows in
        let networkRows := if decide (mcp req = ndi)
                           then networkRows ++ [mockNdiRow] else networkRows in
        runObservabilityFrom w plan seq networkRows rest
  end.

Definition networkTitle (lang : Language) : jsstring :=
  if decide (lang = zh)
  then [0x901a; 0x4fe1; 0x5f02; 0x5e38; 0xff08]%N ++ js "Overlay/Underlay" ++ [0xff09%N]
  else js "Communication anomalies (Overlay/Underlay)".

Definition runObservabilityPanels (w : World) (plan : ObservabilityPlan) : IO unit :=
  '(seq, networkRows) ← runObservabilityFrom w plan 0 [] (requests plan);
  match networkRows with
  | [] => mret tt
  | _ =>
      let title := networkTitle (obs_language plan) in
      id ← newPanelId w "p_net" seq;
      pushPanel (panel_network id title networkRows)
  end.

(** The trace of a run that starts with nothing emitted. *)
Definition startTrace : Trace := mkTrace 0 0 [].

(** ** Evidence for the narration stage *)








(** ** Definitions used to state the properties *)

(** What one pass over the text does to each unit when both replacements
    of [escapeSplString] have been applied. *)
Definition escapeUnit (c : N) : jsstring :=
  if (c =? backslash)%N then [backslash; backslash]
  else if (c =? dquote)%N then [backslash; dquote]
  else [c].

(** The reader's side of the escaping: a backslash stands for the unit
    that follows it. *)
Fixpoint unescapeSplString (s : jsstring) : jsstring :=
  match s with
  | [] => []
  | c :: r =>
      if (c =? backslash)%N then
        match r with
        | d :: r' => d :: unescapeSplString r'
        | [] => [c]
        end
      else c :: unescapeSplString r
  end.

(** The tag-intent signal as the specification words it: one of the
    keywords "mitre", "att&ck", "nist" in the lower-cased text, or a token
    matching one of the two tag patterns. *)
Definition tagIntentSignal (userMsg : jsstring) : bool :=
  let s := toLowerCase userMsg in
  includes s (js "mitre") || includes s (js "att&ck") || includes s (js "nist")
  || negb (bool_decide (matchAll matchAttackAt O userMsg = []))
  || negb (bool_decide (matchAll matchNistAt O userMsg = [])).

(** The pattern matches found in the message, attack tokens first. *)
Definition tagMatches (userMsg : jsstring) : list jsstring :=
  matchAll matchAttackAt O userMsg ++ matchAll matchNistAt O userMsg.

(** No object in the tree carries an own property named [toString]:
    the values whose conversion to a primitive cannot fail. *)
Fixpoint plain (v : json) : bool :=
  match v with
  | JArr items => forallb plain items
  | JObj fields =>
      negb (hasOwn "toString" fields) && forallb (fun kv => plain (snd kv)) fields
  | _ => true
  end.

(** The text and the number a field converts to; the fallbacks are never
    used on a [plain] value. *)
Definition coerced (v : option json) : jsstring :=
  match String_ v with
  | Ok s => s
  | Throw _ => []
  end.

Definition numeric (v : option json) : jsnum :=
  match Number_ v with
  | Ok x => x
  | Throw _ => NaN
  end.

(** The output specification as the data model of the specification
    describes it: the template, [table] when the given one is unknown,
    forces the kind ([count] to [single], [table] to [table], [trend] to
    [line], [count_by] to the given [bar] or [pie] and to [bar]
    otherwise); [count_by] carries a [group_by], [Severity] when unknown,
    and a limit clamped to 3..50 with default 10; [table] carries a limit
    clamped to 5..200 with default 50; [trend] carries a span, ["5m"] by
    default, and a split, [none] when unknown. *)
Definition documentedOutput (o : json) : OutputSpec :=
  let title' := trimmedOr (get (Some o) "title") (js "Result") in
  match default tpl_table (parseTemplate (coerced (get (Some o) "template"))) with
  | tpl_count => mkOutputSpec kind_single title' tpl_count None None None None
  | tpl_table =>
      mkOutputSpec kind_table title' tpl_table None
        (Some (clampNum (numeric (get (Some o) "limit")) 5 200 50)) None None
  | tpl_count_by =>
      mkOutputSpec
        (match parseKind (coerced (get (Some o) "kind")) with
         | Some kind_pie => kind_pie
         | _ => kind_bar
         end)
        title' tpl_count_by
        (Some (default gb_Severity (parseGroupBy (coerced (get (Some o) "group_by")))))
        (Some (clampNum (numeric (get (Some o) "limit")) 3 50 10)) None None
  | tpl_trend =>
      mkOutputSpec kind_line title' tpl_trend None None
        (Some (trimmedOr (get (Some o) "span") (js "5m")))
        (Some (default split_none (parseSplit (coerced (get (Some o) "split")))))
  end.

(** The limit an output may carry. *)
Definition limitInRange (spec : OutputSpec) : Prop :=
  match template spec with
  | tpl_count_by => exists n, limit spec = Some n /\ 3 <= n <= 50
  | tpl_table => exists n, limit spec = Some n /\ 5 <= n <= 200
  | _ => limit spec = None
  end.

(** An output that is not suppressed. *)
Definition live (o : OutputSpec) : Prop := kind o <> kind_none.



Definition suppressedPlan : Plan :=
  mkPlan en (js "-15m") (js "now") noFilters
         [mkOutputSpec kind_none (js "A") tpl_table None None None None;
          mkOutputSpec kind_none (js "B") tpl_count None None None None].

(** A plan in which the model proposed a well-formed tag token. *)
Definition proposedTagsObj : json :=
  JObj [(js "filters", JObj [(js "tags_exact", JArr [JStr (js "attack.t1611")])])].

(** The allow-list of the specification: the five combinations the
    planner may request. *)
Definition Combo : Type :=
  (ObservabilityMcp * ObservabilityTool * ObservabilityTarget * ObservabilityMetric
   * ObservabilityViz)%type.

Definition allowList : list Combo :=
  [(grafana, query_dashboard_timeseries, vllm_dashboard, success_count_per_minute, viz_line);
   (grafana, query_dashboard_timeseries, hubble_l7_http_metrics_by_workload, success_rate,
    viz_line);
   (grafana, query_dashboard_timeseries, nvidia_dcgm_exporter_dashboard, gpu_utilization,
    viz_line);
   (hubble, fetch_flow_metrics, ai_serving_foundation_instruct_vllm, policy_drop_flows,
    viz_network);
   (ndi, fetch_anomalies, default_cluster, anomaly_events, viz_network)].

Definition comboOf (req : ObservabilityRequest) : Combo :=
  (mcp req, tool req, target req, metric req, viz req).

(** The request a candidate element spells out, when each of its five
    fields is one of the known names; nothing is repaired. *)
Definition spelledRequest (r : json) : option ObservabilityRequest :=
  a ← firstNamed OBSERVABILITY_ALLOWED_MCPS (get (Some r) "mcp");
  b ← firstNamed OBSERVABILITY_ALLOWED_TOOLS (get (Some r) "tool");
  c ← firstNamed OBSERVABILITY_ALLOWED_TARGETS (get (Some r) "target");
  d ← firstNamed OBSERVABILITY_ALLOWED_METRICS (get (Some r) "metric");
  e ← firstNamed OBSERVABILITY_ALLOWED_VIZ (get (Some r) "viz");
  Some (mkRequest a b c d e (trimmedOr (get (Some r) "title") (js "Observability"))).

(** The element is kept exactly when its combination is on the list. *)
Definition allowedRequest (r : json) : option ObservabilityRequest :=
  req ← spelledRequest r;
  if bool_decide (comboOf req ∈ allowList) then Some req else None.

Definition validRequestObj : json :=
  JObj [(js "mcp", JStr (js "grafana")); (js "tool", JStr (js "query_dashboard_timeseries"));
        (js "target", JStr (js "vllm-dashboard"));
        (js "metric", JStr (js "success_count_per_minute"));
        (js "viz", JStr (js "line")); (js "title", JStr (js " vLLM "))].

Definition invalidRequestObj : json :=
  JObj [(js "mcp", JStr (js "grafana")); (js "tool", JStr (js "query_dashboard_timeseries"));
        (js "target", JStr (js "vllm-dashboard"));
        (js "metric", JStr (js "gpu_utilization"));
        (js "viz", JStr (js "line")); (js "title", JStr (js "GPU"))].

(** A candidate in which the model asks for the GPU dashboard. *)
Definition gpuRequestObj : json :=
  JObj [(js "requests",
         JArr [JObj [(js "mcp", JStr (js "grafana"));
                     (js "tool", JStr (js "query_dashboard_timeseries"));
                     (js "target", JStr (js "nvidia-dcgm-exporter-dashboard"));
                     (js "metric", JStr (js "gpu_utilization"));
                     (js "viz", JStr (js "line")); (js "title", JStr (js "GPU"))]])].

(** The canonical GPU request of the specification. *)
Definition gpuCombo : Combo :=
  (grafana, query_dashboard_timeseries, nvidia_dcgm_exporter_dashboard, gpu_utilization,
   viz_line).

(** *** Order of the emitted panels *)

(** [ps] answers [xs] one for one, the [k]-th panel standing in relation
    [R] with the [k]-th element and with its sequence number [i + k]. *)
Fixpoint inOrder {A} (R : nat -> A -> Panel -> Prop) (i : nat) (xs : list A) (ps : list Panel)
  : Prop :=
  match xs, ps with
  | [], [] => True
  | x :: xs', p :: ps' => R i x p /\ inOrder R (S i) xs' ps'
  | _, _ => False
  end.

(** A panel identifier made from [prefix] and the sequence number [i]. *)
Definition idOf (prefix : string) (i : nat) (id : jsstring) : Prop :=
  exists stamp : Z, id = js prefix ++ js "_" ++ decZ stamp ++ js "_" ++ decN (N.of_nat i).

(** The panel that answers output [out] of a plan with filters [f]: it has
    the title of the output, carries the query compiled for it, and is of
    the variant the template asks for. *)
Definition panelOfOutput (f : Filters) (i : nat) (out : OutputSpec) (p : Panel) : Prop :=
  panelTitle p = title out /\
  panelSpl p = compileOutput f out /\
  match template out, p with
  | tpl_count, panel_single id _ _ _ _ => idOf "p_single" i id
  | tpl_table, panel_table id _ _ _ _ => idOf "p_table" i id
  | tpl_count_by, panel_pie id _ _ _ _ _ _ => kind out = kind_pie /\ idOf "p_dist" i id
  | tpl_count_by, panel_bar id _ _ _ _ _ _ => kind out <> kind_pie /\ idOf "p_dist" i id
  | tpl_trend, panel_line id _ _ _ _ _ => idOf "p_trend" i id
  | _, _ => False
  end.

(** The outputs of a plan that are not suppressed, in order. *)
Definition liveOutputs (plan : Plan) : list OutputSpec :=
  filter (fun o => kind o <> kind_none) (outputs plan).

(** The line panel that answers a line request. *)
Definition lineOfRequest (plan : ObservabilityPlan) (i : nat) (req : ObservabilityRequest)
    (p : Panel) : Prop :=
  exists id data,
    p = panel_line id (req_title req) (grafanaDescription plan req) (js "time") [js "value"] data
    /\ idOf "p_trend" i id /\ length data = 15%nat.

Definition lineRequests (plan : ObservabilityPlan) : list ObservabilityRequest :=
  filter (fun r => viz r = viz_line) (requests plan).

(** The topology row a request contributes to the network panel. *)
Definition networkRowOf (req : ObservabilityRequest) : option NetworkRow :=
  match viz req, mcp req with
  | viz_network, hubble => Some mockHubbleRow
  | viz_network, ndi => Some mockNdiRow
  | _, _ => None
  end.

(** The panels that close an observability run: none, or the one network
    panel that gathers the rows of all network requests. *)
Definition networkPanels (plan : ObservabilityPlan) (i : nat) (ps : list Panel) : Prop :=
  match omap networkRowOf (requests plan) with
  | [] => ps = []
  | rows => exists id,
      ps = [panel_network id (networkTitle (obs_language plan)) rows] /\ idOf "p_net" i id
  end.

(** The reading of C8 for requests: the panel is of the variant the
    request asks for and, for a line, has its title. *)
Definition panelMatchesRequest (req : ObservabilityRequest) (p : Panel) : bool :=
  match viz req, p with
  | viz_line, panel_line _ t _ _ _ _ => streq t (req_title req)
  | viz_network, panel_network _ _ _ => true
  | _, _ => false
  end.

Fixpoint sameOrder (reqs : list ObservabilityRequest) (ps : list Panel) : bool :=
  match reqs, ps with
  | [], [] => true
  | r :: reqs', p :: ps' => panelMatchesRequest r p && sameOrder reqs' ps'
  | _, _ => false
  end.

(** A world for the examples: the backend answers every query with no
    rows, the clock advances by one millisecond per reading. *)
Definition quietWorld : World :=
  mkWorld (fun _ _ _ _ _ => Ok []) (fun n => 1700000000000 + Z.of_nat n) (fun _ => js "12:00").

(** A candidate that asks for the flow topology first and the GPU trend
    second; both combinations are on the allow-list. *)
Definition mixedRequestsObj : json :=
  JObj [(js "requests",
         JArr [JObj [(js "mcp", JStr (js "hubble")); (js "tool", JStr (js "fetch_flow_metrics"));
                     (js "target", JStr (js "ai-serving/foundation-instruct-vllm"));
                     (js "metric", JStr (js "policy_drop_flows"));
                     (js "viz", JStr (js "network")); (js "title", JStr (js "Flows"))];
               JObj [(js "mcp", JStr (js "grafana"));
                     (js "tool", JStr (js "query_dashboard_timeseries"));
                     (js "target", JStr (js "nvidia-dcgm-exporter-dashboard"));
                     (js "metric", JStr (js "gpu_utilization"));
                     (js "viz", JStr (js "line")); (js "title", JStr (js "Load"))]])].

(** *** Size of panels and of evidence *)





(** *** A span that carries query syntax *)

Definition injectedSpan : jsstring :=
  js "1m | eval note=" ++ quoted (js "x") ++ js " | timechart span=5m".

(** A candidate plan whose only output is a trend with that span. *)
Definition injectedSpanObj : json :=
  JObj [(js "outputs",
         JArr [JObj [(js "kind", JStr (js "line")); (js "title", JStr (js "Trend"));
                     (js "template", JStr (js "trend")); (js "span", JStr injectedSpan)]])].

(** A list without its repetitions, each element at its first
    occurrence; [seen] holds the elements already met. *)
Fixpoint keepFirst (seen l : list jsstring) : list jsstring :=
  match l with
  | [] => []
  | x :: r =>
      if bool_decide (x ∈ seen) then keepFirst seen r
      else x :: keepFirst (seen ++ [x]) r
  end.

(** ** Configuration, credentials and the model service *)

Definition endsWith (s pat : jsstring) : bool := startsWith (rev s) (rev pat).

(** [a || b] on two optional strings of [process.env]; the empty string
    is falsy. *)
Definition firstSet (a b : option jsstring) : jsstring :=
  match a, b with
  | Some (c :: r), _ => c :: r
  | _, Some s => s
  | _, None => []
  end.

Definition stripQuotes (v : jsstring) : jsstring :=
  let s := trim v in
  if (startsWith s [dquote] && endsWith s [dquote])
     || (startsWith s (js "'") && endsWith s (js "'"))
  then take (length s - 2) (drop 1 s)
  else s.

Definition isSlash (c : N) : bool := (c =? 47)%N.

Definition joinUrl (base path : jsstring) : jsstring :=
  let b := rev (dropWhile isSlash (rev base)) in
  let p := dropWhile isSlash path in
  b ++ js "/" ++ p.

(** [envBool], on the value of the variable read. *)
Definition envBool (value : option jsstring) (dflt : bool) : bool :=
  let v := toLowerCase (trim (default [] value)) in
  match v with
  | [] => dflt
  | _ => streq v (js "1") || streq v (js "true") || streq v (js "yes") || streq v (js "on")
  end.

Record SplunkEnv : Type := mkSplunkEnv {
  SPLUNK_MCP_ENDPOINT : option jsstring;
  MCP_ENDPOINT : option jsstring;
  SPLUNK_MCP_TOKEN : option jsstring;
  MCP_TOKEN : option jsstring;
}.

Definition resolveSplunkMcpConfig (env : SplunkEnv) : result (jsstring * jsstring) :=
  let endpoint := firstSet (SPLUNK_MCP_ENDPOINT env) (MCP_ENDPOINT env) in
  let tokenRaw := firstSet (SPLUNK_MCP_TOKEN env) (MCP_TOKEN env) in
  let token := stripQuotes tokenRaw in
  match endpoint, token with
  | [], _ =>
      Throw (Error (js "Missing Splunk MCP endpoint (SPLUNK_MCP_ENDPOINT or MCP_ENDPOINT)"))
  | _, [] => Throw (Error (js "Missing Splunk MCP token (SPLUNK_MCP_TOKEN or MCP_TOKEN)"))
  | _, _ => Ok (endpoint, token)
  end.

Record QwenEnv : Type := mkQwenEnv {
  QWEN_ENDPOINT : option jsstring;
  QWEN_CHAT_COMPLETIONS : option jsstring;
  QWEN_BASE_URL : option jsstring;
  QWEN_URL : option jsstring;
}.

Definition resolveQwenChatCompletionsUrl (env : QwenEnv) : result jsstring :=
  let direct := firstSet (QWEN_ENDPOINT env) (QWEN_CHAT_COMPLETIONS env) in
  match direct with
  | _ :: _ => Ok direct
  | [] =>
      let base := firstSet (QWEN_BASE_URL env) (QWEN_URL env) in
      match base with
      | [] => Throw (Error (js "Missing Qwen endpoint (QWEN_ENDPOINT or QWEN_BASE_URL)"))
      | _ =>
          let lower := toLowerCase base in
          if includes lower (js "/chat/completions") then Ok base
          else if endsWith lower (js "/v1") || endsWith lower (js "/v1/")
          then Ok (joinUrl base (js "chat/completions"))
          else if negb (includes lower (js "/v1"))
          then Ok (joinUrl (joinUrl base (js "v1")) (js "chat/completions"))
          else Ok (joinUrl base (js "chat/completions"))
      end
  end.

(** [getRequiredAppToken], on the value of [APP_ACCESS_TOKEN]. *)
Definition getRequiredAppToken (APP_ACCESS_TOKEN : option jsstring) : jsstring :=
  trim (firstSet APP_ACCESS_TOKEN None).

(** [/^bearer\s+/i.test(auth)] *)
Definition hasBearerPrefix (auth : jsstring) : bool :=
  startsWithCI auth (js "bearer") &&
  match drop 6 auth with
  | c :: _ => isWhiteSpace c
  | [] => false
  end.

(** [extractBearerToken], on the values of the two headers it reads
    ([None] when the header is absent). *)
Definition extractBearerToken (authorization x_app_token : option jsstring) : jsstring :=
  let auth := firstSet authorization None in
  if hasBearerPrefix auth then trim (dropWhile isWhiteSpace (drop 6 auth))
  else trim (firstSet x_app_token None).

(** [requireAuthIfConfigured(req).ok] *)
Definition requireAuthIfConfigured (APP_ACCESS_TOKEN authorization x_app_token : option jsstring)
  : bool :=
  let required := getRequiredAppToken APP_ACCESS_TOKEN in
  match required with
  | [] => true
  | _ =>
      let got := extractBearerToken authorization x_app_token in
      if streq got [] || negb (streq got required) then false else true
  end.

Inductive Role : Set := role_system | role_user | role_assistant.

#[global] Instance Role_eq_dec : EqDecision Role.
Proof. solve_decision. Defined.

Record Message : Type := mkMessage { role : Role; content : jsstring }.

Definition applyNoThinkIfNeeded (messages : list Message) (disableThinking : bool)
  : list Message :=
  if negb disableThinking then messages
  else imap (fun idx m =>
               if bool_decide (idx = (length messages - 1)%nat)
                  && bool_decide (role m = role_user)
               then mkMessage (role m) (js "/no_think" ++ newline ++ content m)
               else m) messages.

(** ** The fallback narration *)

Definition isSingle (p : Panel) : bool :=
  match p with
  | panel_single _ _ _ _ _ => true
  | _ => false
  end.

Definition singleValue (p : Panel) : option jsnum :=
  match p with
  | panel_single _ _ _ _ v => Some v
  | _ => None
  end.

Definition fallbackMarkdown (lang : Language) (panels : list Panel) : jsstring :=
  let cnt := List.find isSingle panels ≫= singleValue in
  if decide (lang = zh) then
    let head :=
      match cnt with
      | Some v => js "**" ++ [0x8fd4; 0x56de; 0x6570; 0x91cf; 0xff1a]%N ++ numberToString v
                  ++ [0x6761]%N ++ js "**"
      | None => js "**" ++ [0x5df2; 0x8fd4; 0x56de; 0x56fe; 0x8868; 0x4e0e; 0x8868; 0x683c]%N
                ++ js "**"
      end in
    head ++ newline ++ newline
    ++ [0x6a21; 0x578b; 0x89e3; 0x91ca; 0x9636; 0x6bb5; 0x5931; 0x8d25; 0xff0c; 0x4f46]%N
    ++ js " Splunk " ++ [0x6570; 0x636e; 0x9762; 0x677f; 0x5df2; 0x7ecf; 0x8fd4; 0x56de; 0x3002]%N
  else
    let headEn :=
      match cnt with
      | Some v => js "**Returned: " ++ numberToString v ++ js " events**"
      | None => js "**Charts and tables returned**"
      end in
    headEn ++ newline ++ newline
    ++ js "The explanation stage failed, but Splunk panels are already returned.".

(** ** Decoding the answers of the services

    [JSON.parse] belongs to the runtime; the functions that call it take it
    as the argument [JSON_parse], [None] standing for a raised
    [SyntaxError]. *)

Fixpoint indexOf (c : N) (s : jsstring) : option nat :=
  match s with
  | [] => None
  | x :: r => if (x =? c)%N then Some 0%nat else S <$> indexOf c r
  end.

Definition lastIndexOf (c : N) (s : jsstring) : option nat :=
  (fun i => (length s - 1 - i)%nat) <$> indexOf c (rev s).

(** [s.slice(a, b)] for [0 <= a] and [0 <= b] *)
Definition slice (a b : nat) (s : jsstring) : jsstring := take (b - a) (drop a s).

Definition lbrace : N := 123%N.
Definition rbrace : N := 125%N.

(** The decoded object, or [None] for [null]. *)
Definition extractJsonObjectLoose (JSON_parse : jsstring -> option json) (text : jsstring)
  : option json :=
  match indexOf lbrace text, lastIndexOf rbrace text with
  | Some first, Some last =>
      if (last <=? first)%nat then None
      else JSON_parse (slice first (last + 1) text)
  | _, _ => None
  end.

(** [tryParseJson]: the decoded value, [null] when decoding raises. *)
Definition tryParseJson (JSON_parse : jsstring -> option json) (s : jsstring) : json :=
  default JNull (JSON_parse s).

(** The text of a completion: [choices[0].message.content] (or
    [choices[0].delta.content] in a stream frame) when it is a string, the
    empty string otherwise. *)
Definition choiceContent (part : string) (obj : json) : jsstring :=
  if truthy (Some obj) && isObject (Some obj) then
    match asArray (get (Some obj) "choices") with
    | Some choices =>
        let first := head choices in
        if truthy first && isObject first then
          let message := get first part in
          if truthy message && isObject message then
            match get message "content" with
            | Some (JStr raw) => raw
            | _ => []
            end
          else []
        else []
    | None => []
    end
  else [].

(** *** Rows of a backend result *)

(** The prototype of a row: [Object.prototype], as every object literal
    has it, or what an assignment to [__proto__] made it. *)
Inductive Prototype : Type :=
  | proto_Object
  | proto_null
  | proto_of (v : json).

(** A row: its own properties in enumeration order, a cell being
    [None] when the property holds [undefined], and its prototype. *)
Record ResultRow : Type := mkResultRow {
  row_own : list (jsstring * option json);
  row_proto : Prototype;
}.

Definition rowOfObject (fields : list (jsstring * json)) : ResultRow :=
  mkResultRow ((fun kv => (kv.1, Some kv.2)) <$> fields) proto_Object.

(** [items.filter(isMcpRow)]: the elements that are objects and not
    arrays. *)
Definition objectRows (items : list json) : list ResultRow :=
  omap (fun v => match v with JObj fields => Some (rowOfObject fields) | _ => None end) items.

(** The number a key denotes when it is an array index, the keys that
    enumerate first and in ascending order. *)
Definition arrayIndex (k : jsstring) : option Z :=
  match k with
  | [] => None
  | c :: _ =>
      if forallb isDigit k && (streq k (js "0") || negb (c =? 48)%N)
         && (digitsValue k <=? 4294967294)
      then Some (digitsValue k) else None
  end.

(** Creating or updating an own property. *)
Fixpoint setOwn (k : jsstring) (v : option json) (own : list (jsstring * option json))
  : list (jsstring * option json) :=
  match own with
  | [] => [(k, v)]
  | (k', v') :: r =>
      if streq k k' then (k, v) :: r
      else match arrayIndex k, arrayIndex k' with
           | Some i, Some j => if i <? j then (k, v) :: own else (k', v') :: setOwn k v r
           | Some _, None => (k, v) :: own
           | None, _ => (k', v') :: setOwn k v r
           end
  end.

Definition hasOwnKey (k : jsstring) (own : list (jsstring * option json)) : bool :=
  existsb (fun kv => streq k kv.1) own.

(** [obj[f] = v] on a row under construction. The key [__proto__]
    reaches the setter of [Object.prototype] unless the row has that own
    property, has no prototype, or inherits a data property of that name
    from a decoded object; the setter changes the prototype when [v] is an
    object or [null] and does nothing otherwise. *)
Definition assign (obj : ResultRow) (f : jsstring) (v : option json) : ResultRow :=
  let own := mkResultRow (setOwn f v (row_own obj)) (row_proto obj) in
  if negb (streq f (js "__proto__")) then own
  else if hasOwnKey f (row_own obj) then own
  else match row_proto obj with
       | proto_null => own
       | proto_of (JObj fields) => if hasOwn "__proto__" fields then own else
           match v with
           | Some JNull => mkResultRow (row_own obj) proto_null
           | Some (JObj _ as x) | Some (JArr _ as x) => mkResultRow (row_own obj) (proto_of x)
           | _ => obj
           end
       | _ =>
           match v with
           | Some JNull => mkResultRow (row_own obj) proto_null
           | Some (JObj _ as x) | Some (JArr _ as x) => mkResultRow (row_own obj) (proto_of x)
           | _ => obj
           end
       end.

(** The row built from [fields] and one element of [rows]: the loop
    [fields.forEach((f, i) => ...)] from index [i] on. *)
Fixpoint zipFrom (i : nat) (fields : list json) (row : json) (obj : ResultRow) : ResultRow :=
  match fields with
  | [] => obj
  | f :: rest =>
      let obj := match f with
                 | JStr name =>
                     assign obj name (match row with
                                      | JArr cells => cells !! i
                                      | _ => None
                                      end)
                 | _ => obj
                 end in
      zipFrom (S i) rest row obj
  end.

Definition zipRow (fields : list json) (row : json) : ResultRow :=
  zipFrom 0 fields row (mkResultRow [] proto_Object).

(** The first of several attempts that gives rows. *)
Definition orElse {A} (a b : option A) : option A :=
  match a with
  | Some x => Some x
  | None => b
  end.

(** The loop over [content]: the rows of the first entry that has some. *)
Fixpoint contentRows (JSON_parse : jsstring -> option json) (content : list json)
  : option (list ResultRow) :=
  match content with
  | [] => None
  | c :: rest =>
      let next := contentRows JSON_parse rest in
      if truthy (Some c) && isObject (Some c) then
        let viaJson :=
          match get (Some c) "type" with
          | Some (JStr t) =>
              if streq t (js "json") && truthy (get (Some c) "json")
                 && isObject (get (Some c) "json")
              then objectRows <$> asArray (get (get (Some c) "json") "results")
              else None
          | _ => None
          end in
        match viaJson with
        | Some rows => Some rows
        | None =>
            match get (Some c) "type", get (Some c) "text" with
            | Some (JStr t), Some (JStr text) =>
                if streq t (js "text") then
                  let obj := tryParseJson JSON_parse text in
                  if negb (truthy (Some obj)) then next
                  else match asArray (Some obj) with
                       | Some items => Some (objectRows items)
                       | None =>
                           if isObject (Some obj) then
                             match asArray (get (Some obj) "results") with
                             | Some items => Some (objectRows items)
                             | None =>
                                 let sc2 := get (Some obj) "structuredContent" in
                                 if truthy sc2 && isObject sc2 then
                                   match asArray (get sc2 "results") with
                                   | Some items => Some (objectRows items)
                                   | None => next
                                   end
                                 else next
                             end
                           else next
                       end
                else next
            | _, _ => next
            end
        end
      else next
  end.

Definition extractResultsFromMcpResult (JSON_parse : jsstring -> option json) (r : option json)
  : list ResultRow :=
  if negb (truthy r) then []
  else if negb (isObject r) then []
  else
    let sc := get r "structuredContent" in
    let viaStructured :=
      if truthy sc && isObject sc then
        orElse (objectRows <$> asArray (get sc "results"))
               (objectRows <$> asArray (get sc "data"))
      else None in
    let viaResults := objectRows <$> asArray (get r "results") in
    let viaRows :=
      match asArray (get r "rows"), asArray (get r "fields") with
      | Some rows, Some fields => Some (zipRow fields <$> rows)
      | _, _ => None
      end in
    let viaData := objectRows <$> asArray (get r "data") in
    let viaContent := asArray (get r "content") ≫= contentRows JSON_parse in
    default []
      (orElse viaStructured (orElse viaResults (orElse viaRows (orElse viaData viaContent)))).

(** What [callSplunkMcp] makes of the HTTP response: [ok] and [status]
    are those of the response, [text] is its body. *)
Definition splunkResponseRows (JSON_parse : jsstring -> option json)
    (ok : bool) (status : Z) (text : jsstring) : result (list ResultRow) :=
  let parsed := tryParseJson JSON_parse text in
  if negb ok then
    let bodyPreview := match text with [] => [] | _ => slice 0 800 text end in
    Throw (Error (js "Splunk MCP HTTP " ++ decZ status ++ js ": " ++ bodyPreview))
  else if negb (truthy (Some parsed)) || negb (isObject (Some parsed)) then Ok []
  else
    let result_ := get (Some parsed) "result" in
    if negb (truthy result_) then Ok []
    else Ok (extractResultsFromMcpResult JSON_parse result_).

(** ** The model service *)

(** The outcome of a [fetch] and of reading the body as text. *)
Inductive FetchOutcome : Type :=
  | fetch_failed (e : jserror)
  | fetch_response (ok : bool) (status : Z) (text : jsstring).

(** The part of [callQwenNonStream] that follows the request. *)
Definition callQwenNonStream (JSON_parse : jsstring -> option json) (env : QwenEnv)
    (outcome : FetchOutcome) : result jsstring :=
  _ ← resolveQwenChatCompletionsUrl env;
  match outcome with
  | fetch_failed e => Throw e
  | fetch_response ok status text =>
      let parsed := tryParseJson JSON_parse text in
      if negb ok then
        let preview := match text with [] => [] | _ => slice 0 800 text end in
        Throw (Error (js "Qwen HTTP " ++ decZ status ++ js ": " ++ preview))
      else Ok (choiceContent "message" parsed)
  end.

(** [s.split(c)] for a one-character separator; [cur] holds the piece
    being read, last unit first. *)
Fixpoint splitOn (c : N) (cur : jsstring) (s : jsstring) : list jsstring :=
  match s with
  | [] => [rev cur]
  | x :: r => if (x =? c)%N then rev cur :: splitOn c [] r else splitOn c (x :: cur) r
  end.

(** The inner loop of [callQwenStream]: the frames that end with an empty
    line are cut off the buffer, leftmost first; what follows the last of
    them stays in the buffer. *)
Fixpoint takeFrames (cur : jsstring) (buf : jsstring) : list jsstring * jsstring :=
  match buf with
  | [] => ([], rev cur)
  | x :: r =>
      match r with
      | y :: r' =>
          if (x =? 10)%N && (y =? 10)%N
          then let '(fs, rest) := takeFrames [] r' in (rev cur :: fs, rest)
          else takeFrames (x :: cur) r
      | [] => takeFrames (x :: cur) r
      end
  end.

(** What one frame yields: the content of each of its [data:] lines. *)
Definition frameYields (JSON_parse : jsstring -> option json) (chunk : jsstring)
  : list jsstring :=
  let lines := trim <$> splitOn 10%N [] chunk in
  lines ≫= (fun line =>
    if negb (startsWith line (js "data:")) then []
    else
      let payload := trim (drop 5 line) in
      if streq payload [] || streq payload (js "[DONE]") then []
      else
        let obj := tryParseJson JSON_parse payload in
        match choiceContent "delta" obj with
        | [] => []
        | content => [content]
        end).

(** The outer loop of [callQwenStream] over the decoded pieces of the
    body, from buffer [buf] on: the texts it yields. *)
Fixpoint streamYields (JSON_parse : jsstring -> option json) (buf : jsstring)
    (pieces : list jsstring) : list jsstring :=
  match pieces with
  | [] => []
  | value :: rest =>
      let '(frames, buf') := takeFrames [] (buf ++ value) in
      (frames ≫= frameYields JSON_parse) ++ streamYields JSON_parse buf' rest
  end.

(** The outcome of the streamed request: the request fails, the response
    is an HTTP error, it has no body, or it has a body that delivers
    [pieces] and then ends, with an exception when [failure] is one. *)
Inductive StreamOutcome : Type :=
  | stream_failed (e : jserror)
  | stream_http_error (status : Z) (text : jsstring)
  | stream_no_body
  | stream_body (pieces : list jsstring) (failure : option jserror).

(** [callQwenStream]: the texts yielded, and the exception that ends the
    iteration if there is one. *)
Definition callQwenStream (JSON_parse : jsstring -> option json) (env : QwenEnv)
    (outcome : StreamOutcome) : list jsstring * option jserror :=
  match resolveQwenChatCompletionsUrl env with
  | Throw e => ([], Some e)
  | Ok _ =>
      match outcome with
      | stream_failed e => ([], Some e)
      | stream_http_error status text =>
          let preview := match text with [] => [] | _ => slice 0 800 text end in
          ([], Some (Error (js "Qwen HTTP " ++ decZ status ++ js ": " ++ preview)))
      | stream_no_body => ([], Some (Error (js "Qwen stream body missing")))
      | stream_body pieces failure => (streamYields JSON_parse [] pieces, failure)
      end
  end.

(** ** The stream orchestrator *)

Inductive Event : Type :=
  | event_status (stage : jsstring) (message : option jsstring)
  | event_plan (plan : Plan)
  | event_observability_plan (plan : ObservabilityPlan)
  | event_panel (p : Panel)
  | event_delta (text : jsstring)
  | event_done (llm_ok : bool) (llm_error : option jsstring)
  | event_error (stage : jsstring) (message : jsstring).

(** What a run meets outside the program: the decoder of the runtime, the
    text the runtime gives a [TypeError], the configuration of the model
    service, the outcome of the planner request and of the narration
    request, and the world of the panels. An [Error] of the model stands
    for an exception whose name is not ["AbortError"]. *)
Record Services : Type := mkServices {
  JSON_parse : jsstring -> option json;
  typeErrorMessage : jsstring;
  qwenEnv : QwenEnv;
  plannerOutcome : FetchOutcome;
  narrationOutcome : StreamOutcome;
  world : World;
}.

Definition getErrorMessage (sv : Services) (e : jserror) : jsstring :=
  match e with
  | Error message => message
  | TypeError => typeErrorMessage sv
  end.

(** The narration sub-stage, common to both workspaces. *)
Definition explainEvents (sv : Services) (lang : Language) (panels : list Panel) : list Event :=
  let '(deltas, failure) := callQwenStream (JSON_parse sv) (qwenEnv sv) (narrationOutcome sv) in
  let written := event_delta <$> filter (fun d => d <> []) deltas in
  match failure with
  | None => written ++ [event_done true None]
  | Some e =>
      let msg := getErrorMessage sv e in
      let fb := fallbackMarkdown lang panels in
      written ++ [event_delta fb; event_done false (Some msg)]
  end.

(** The planning stage of the security workspace: the warning it writes,
    if any, and the plan it resolves to. *)
Definition planningSecurity (sv : Services) (env : Env) (userMsg : jsstring)
  : option jsstring * Plan :=
  let attempt : result (option Plan) :=
    plannerRaw ← callQwenNonStream (JSON_parse sv) (qwenEnv sv) (plannerOutcome sv);
    let planObj := extractJsonObjectLoose (JSON_parse sv) plannerRaw in
    if truthy planObj then
      plan ← normalizePlan env planObj userMsg;
      Ok (Some (ensureGuardrails plan userMsg))
    else Ok None in
  let '(warning, plan) :=
    match attempt with
    | Ok p => (None, p)
    | Throw e => (Some (getErrorMessage sv e), None)
    end in
  (warning,
   match plan with
   | Some p => p
   | None => ensureGuardrails (defaultPlan env userMsg) userMsg
   end).

Definition planningObservability (sv : Services) (userMsg : jsstring)
  : option jsstring * ObservabilityPlan :=
  let attempt : result (option ObservabilityPlan) :=
    plannerRaw ← callQwenNonStream (JSON_parse sv) (qwenEnv sv) (plannerOutcome sv);
    let planObj := extractJsonObjectLoose (JSON_parse sv) plannerRaw in
    if truthy planObj then Ok (Some (normalizeObservabilityPlan planObj userMsg))
    else Ok None in
  let '(warning, plan) :=
    match attempt with
    | Ok p => (None, p)
    | Throw e => (Some (getErrorMessage sv e), None)
    end in
  let plan := match plan with
              | Some p => if bool_decide (length (requests p) = 0%nat)
                          then fallbackObservabilityPlan userMsg else p
              | None => fallbackObservabilityPlan userMsg
              end in
  (warning, enforceObservabilityIntent plan userMsg).

Definition warningEvents (warning : option jsstring) : list Event :=
  match warning with
  | Some msg => [event_status (js "planning_warning") (Some msg)]
  | None => []
  end.

(** The events written by [start] for the security workspace. *)
Definition securityEvents (sv : Services) (env : Env) (userMsg : jsstring) : list Event :=
  let '(warning, plan) := planningSecurity sv env userMsg in
  let '(outcome, trace) := runPanels (world sv) plan startTrace in
  [event_status (js "planning") None] ++ warningEvents warning ++
  [event_plan plan; event_status (js "querying_splunk") None] ++
  (event_panel <$> emitted trace) ++
  match outcome with
  | Ok _ =>
      [event_status (js "explaining") None]
      ++ explainEvents sv (language plan) (emitted trace)
  | Throw e => [event_error (js "querying_splunk") (getErrorMessage sv e)]
  end.

(** The events written by [start] for the observability workspace. *)
Definition observabilityEvents (sv : Services) (userMsg : jsstring) : list Event :=
  let '(warning, plan) := planningObservability sv userMsg in
  let '(outcome, trace) := runObservabilityPanels (world sv) plan startTrace in
  [event_status (js "planning") None] ++ warningEvents warning ++
  [event_observability_plan plan; event_status (js "querying_mcp") None] ++
  (event_panel <$> emitted trace) ++
  match outcome with
  | Ok _ =>
      [event_status (js "explaining") None]
      ++ explainEvents sv (obs_language plan) (emitted trace)
  | Throw e => [event_error (js "querying_mcp") (getErrorMessage sv e)]
  end.

(** The answer of [POST]: a rejection before any stage, or the stream of
    events. *)
Inductive Response : Type :=
  | response_unauthorized
  | response_bad_request (error : jsstring)
  | response_stream (events : list Event).

(** [POST], on the token configured, the two credential headers and the
    decoded body of the request ([JObj []] when it does not decode). The
    conversion of the message to a string is not guarded: its exception
    leaves the handler. *)
Definition POST (sv : Services) (env : Env)
    (APP_ACCESS_TOKEN authorization x_app_token : option jsstring) (body : json)
  : result Response :=
  if negb (requireAuthIfConfigured APP_ACCESS_TOKEN authorization x_app_token)
  then Ok response_unauthorized
  else
    text ← String_ (nullish (get (Some body) "message") (Some (JStr [])));
    let userMsg := trim text in
    let stream := negb (match get (Some body) "stream" with
                        | Some (JBool false) => true
                        | _ => false
                        end) in
    let observability := match get (Some body) "workspace" with
                         | Some (JStr w) => streq w (js "observability")
                         | _ => false
                         end in
    match userMsg with
    | [] => Ok (response_bad_request (js "Empty message"))
    | _ =>
        if negb stream then Ok (response_bad_request (js "This endpoint expects stream=true"))
        else if observability then Ok (response_stream (observabilityEvents sv userMsg))
        else Ok (response_stream (securityEvents sv env userMsg))
    end.


(** *** Definitions used to state the properties of result rows *)

(** A field name that is an ordinary property name: not [__proto__] and
    not an array index. *)
Definition plainName (n : jsstring) : Prop :=
  n <> js "__proto__" /\ arrayIndex n = None.

(** [Array.isArray(row) ? row[i] : undefined] *)
Definition cellAt (row : json) (i : nat) : option json :=
  match row with
  | JArr cells => cells !! i
  | _ => None
  end.


(** *** Definitions used to state the properties of the stream reader *)

(** The text [p] put in front of what a scan gives: in front of its first
    frame, or of the remainder when there is no frame. *)
Definition attach (p : jsstring) (scan : list jsstring * jsstring) : list jsstring * jsstring :=
  match scan with
  | ([], rest) => ([], p ++ rest)
  | (f :: fs, rest) => ((p ++ f) :: fs, rest)
  end.

(** The frames of a whole body. *)
Definition framesOf (body : jsstring) : list jsstring := (takeFrames [] body).1.


(** *** Definitions used to state the properties of the event stream *)

(** What the planner call hands to normalization: the object read from
    its answer, or nothing when the call raised. *)
Definition plannerAnswer (sv : Services) : option json :=
  match callQwenNonStream (JSON_parse sv) (qwenEnv sv) (plannerOutcome sv) with
  | Ok plannerRaw => extractJsonObjectLoose (JSON_parse sv) plannerRaw
  | Throw _ => None
  end.

Definition isTerminal (e : Event) : bool :=
  match e with
  | event_done _ _ | event_error _ _ => true
  | _ => false
  end.

Definition isError (e : Event) : bool :=
  match e with
  | event_error _ _ => true
  | _ => false
  end.

(** The panels a stream carries, in order. *)
Definition panelsOf (events : list Event) : list Panel :=
  omap (fun e => match e with event_panel p => Some p | _ => None end) events.

(** A delta event has text. *)
Definition deltaHasText (e : Event) : Prop :=
  match e with
  | event_delta text => text <> []
  | _ => True
  end.

(** Services in which every request to the model fails. *)
Definition modelDown : Services :=
  mkServices (fun _ => None) (js "type error") (mkQwenEnv (Some (js "http://qwen:8000")) None None None)
    (fetch_failed (Error (js "fetch failed")))
    (stream_failed (Error (js "fetch failed")))
    quietWorld.


(** *** Definitions used to state the properties of a normalized plan *)

(** A text that is not empty and has no white space at its ends. *)
Definition trimmedText (s : jsstring) : Prop := s <> [] /\ trim s = s.

(** No filter is present and empty: a list filter has an element, a text
    filter is a trimmed text, and every tag has the tag syntax. *)
Definition wellFormedFilters (f : Filters) : Prop :=
  (forall l, severity_exact f = Some l -> l <> []) /\
  (forall s, description_like f = Some s -> trimmedText s) /\
  (forall s, details_like f = Some s -> trimmedText s) /\
  (forall s, node_like f = Some s -> trimmedText s) /\
  (forall l, tags_exact f = Some l ->
     l <> [] /\ Forall (fun t => isTagToken t = true) l).


(** *** Definitions used to state the properties of shaped rows *)



(** *** Definitions used to state the properties of panel identifiers *)

(** The digits an identifier ends with. *)
Definition idSeq (id : jsstring) : jsstring := rev (spanWhile isDigit (rev id)).1.


(** *** Definitions used to state the properties of quoted literals *)

(** The reader's side of a quoted literal, from the unit after the opening
    quote on: a backslash takes the unit that follows it with it, the first
    quote that is not taken this way closes the literal. The result is the
    body of the literal and the text after the closing quote. *)
Fixpoint readLiteral (s : jsstring) : option (jsstring * jsstring) :=
  match s with
  | [] => None
  | c :: r =>
      if (c =? dquote)%N then Some ([], r)
      else if (c =? backslash)%N then
        match r with
        | d :: r' => (fun p => (c :: d :: p.1, p.2)) <$> readLiteral r'
        | [] => None
        end
      else (fun p => (c :: p.1, p.2)) <$> readLiteral r
  end.


(** *** Definitions used to state the properties of compiled queries *)

(** The clause a tag contributes to the query. *)
Definition tagClause (t : jsstring) : jsstring :=
  js "mvfind(__tags," ++ quoted t ++ js ")>=0".

(** The clause the network flag contributes to the query. *)
Definition networkClause (b : bool) : jsstring :=
  if b then js "recent_network_activity!=" ++ quoted (js "N/A")
  else js "recent_network_activity=" ++ quoted (js "N/A").

(** [x] occurs in [s]. *)
Definition occurs (x s : jsstring) : Prop := exists a b, s = a ++ x ++ b.



(** * Properties *)

(** ** The model on sample inputs *)

Example numberToString_samples :
  numberToString (Fin 1611 0) = js "1611" /\
  numberToString (Fin 15 (-1)) = js "1.5" /\
  numberToString (Fin 1 21) = js "1e+21" /\
  numberToString (Fin 1 (-7)) = js "1e-7" /\
  numberToString (Fin (-125) 20) = js "-1.25e+22" /\
  numberToString (Fin 5 (-3)) = js "0.005" /\
  numberToString (Fin 1200 0) = js "1200".
Proof. repeat split; vm_compute; reflexivity. Qed.

Example StringToNumber_samples :
  StringToNumber (js "abc") = NaN /\
  StringToNumber (js " 20 ") = Fin 20 0 /\
  StringToNumber (js "") = Fin 0 0 /\
  StringToNumber (js "-1.5e2") = Fin (-15) 1 /\
  StringToNumber (js "0x1F") = Fin 31 0 /\
  StringToNumber (js "1e999") = PosInf /\
  StringToNumber (js ".") = NaN /\
  StringToNumber (js "5.") = Fin 5 0 /\
  StringToNumber (js "12px") = NaN /\
  StringToNumber (js "-Infinity") = NegInf.
Proof. repeat split; vm_compute; reflexivity. Qed.

Example ToString_samples :
  ToString (JArr [JStr (js "ba"); JNull; JArr [JNum (Fin 1 0)]]) = Ok (js "ba,,1") /\
  ToString (JObj []) = Ok (js "[object Object]") /\
  ToString (JObj [(js "toString", JNum (Fin 0 0))]) = Throw TypeError.
Proof. repeat split; vm_compute; reflexivity. Qed.

Example clampInt_samples :
  clampInt (Some (JNum (Fin 0 0))) 3 50 10 = Ok 3 /\
  clampInt (Some (JNum (Fin 9999 0))) 3 50 10 = Ok 50 /\
  clampInt (Some (JStr (js "abc"))) 3 50 10 = Ok 10 /\
  clampInt (Some (JNum (Fin 127 (-1)))) 3 50 10 = Ok 12 /\
  clampInt None 5 200 50 = Ok 50 /\
  clampInt (Some JNull) 3 50 10 = Ok 3.
Proof. repeat split; vm_compute; reflexivity. Qed.

Example extractTagTokens_samples :
  extractTagTokens (js "show Attack.T1611 and attack.t1611.001x nist.AC-2, NIST.") =
    [js "attack.t1611"; js "attack.t1611.001"; js "nist.ac-2"] /\
  extractTagTokens (js "mitre att&ck overview") = [] /\
  extractTagTokens (js "attack.t12345 attack.t1234.12") = [js "attack.t1234"].
Proof. repeat split; vm_compute; reflexivity. Qed.

Example normalizeOutputs_samples :
  normalizeOutputs (Some (JArr [JObj [(js "kind", JStr (js "pie")); (js "template", JStr (js "count_by"));
                                      (js "limit", JNum (Fin 0 0))];
                                JStr (js "junk")])) =
    Ok [mkOutputSpec kind_pie (js "Result") tpl_count_by (Some gb_Severity) (Some 3) None None;
        mkOutputSpec kind_table (js "Result") tpl_table None (Some 50) None None] /\
  normalizeOutputs (Some (JArr [JObj [(js "kind", JObj [(js "toString", JNull)])]])) = Throw TypeError /\
  normalizeOutputs None = Ok [].
Proof. repeat split; vm_compute; reflexivity. Qed.

Example normalizePlan_sample :
  filters <$> normalizePlan (mkEnv None None)
    (Some (JObj [(js "filters", JObj [(js "severity", JArr [JStr (js " critical "); JStr (js "bogus")]);
                                      (js "node_like", JStr (js " node-7 "));
                                      (js "tags_exact", JArr [JStr (js "Attack.T1611"); JNum (Fin 1611 0); JStr (js "a b")])])]))
    (js "show me critical alerts") =
  Ok (mkFilters (Some [CRITICAL]) None None (Some (js "node-7")) None
                (Some [js "attack.t1611"; js "1611"])).
Proof. vm_compute. reflexivity. Qed.

(** ** Escaping *)

Section Escaping.

Lemma replaceAll_cons c by_ x s :
  replaceAll c by_ (x :: s) = (if (x =? c)%N then by_ else [x]) ++ replaceAll c by_ s.
Proof. reflexivity. Qed.

Lemma replaceAll_app c by_ s t :
  replaceAll c by_ (s ++ t) = replaceAll c by_ s ++ replaceAll c by_ t.
Proof. unfold replaceAll. apply bind_app. Qed.

Lemma escapeSplString_cons c s :
  escapeSplString (c :: s) = escapeUnit c ++ escapeSplString s.
Proof.
  unfold escapeSplString, escapeUnit.
  rewrite (replaceAll_cons backslash), replaceAll_app.
  f_equal.
  destruct (c =? backslash)%N eqn:Hb; [reflexivity|].
  rewrite replaceAll_cons, app_nil_r. reflexivity.
Qed.

Lemma escapeSplString_units s : escapeSplString s = s ≫= escapeUnit.
Proof.
  induction s as [|c s IH]; [reflexivity|].
  rewrite escapeSplString_cons, IH. reflexivity.
Qed.

Lemma unescape_escapeUnit c r :
  unescapeSplString (escapeUnit c ++ r) = c :: unescapeSplString r.
Proof.
  unfold escapeUnit.
  destruct (c =? backslash)%N eqn:Hb.
  - apply N.eqb_eq in Hb. subst c. reflexivity.
  - destruct (c =? dquote)%N eqn:Hq.
    + apply N.eqb_eq in Hq. subst c. reflexivity.
    + simpl. rewrite Hb. reflexivity.
Qed.

Lemma escapeSplString_app s t :
  escapeSplString (s ++ t) = escapeSplString s ++ escapeSplString t.
Proof. rewrite !escapeSplString_units. apply bind_app. Qed.

Lemma unescape_escapeSplString s : unescapeSplString (escapeSplString s) = s.
Proof.
  induction s as [|c s IH]; [reflexivity|].
  rewrite escapeSplString_cons, unescape_escapeUnit, IH. reflexivity.
Qed.

Lemma escapeSplString_inj s t : escapeSplString s = escapeSplString t -> s = t.
Proof.
  intros H.
  rewrite <- (unescape_escapeSplString s), <- (unescape_escapeSplString t).
  now rewrite H.
Qed.

End Escaping.


(** ** Tag guardrail *)

Section TagGuardrail.

Lemma Set_add_elem out x y : y ∈ Set_add out x <-> y ∈ out \/ y = x.
Proof.
  unfold Set_add. case_bool_decide as Hx.
  - split; [auto|]. intros [H| ->]; assumption.
  - rewrite elem_of_app, list_elem_of_singleton. reflexivity.
Qed.

Lemma Set_add_NoDup out x : NoDup out -> NoDup (Set_add out x).
Proof.
  intros Hnd. unfold Set_add. case_bool_decide as Hx; [assumption|].
  apply list.NoDup_app. split; [assumption|]. split.
  - intros y Hy Hy'. apply list_elem_of_singleton in Hy'. subst. contradiction.
  - apply NoDup_singleton.
Qed.

Lemma fold_Set_add_elem (ms : list jsstring) : forall out y,
  y ∈ fold_left (fun out m => Set_add out (toLowerCase m)) ms out
  <-> y ∈ out \/ y ∈ (toLowerCase <$> ms).
Proof.
  induction ms as [|m ms IH]; intros out y; simpl.
  - rewrite elem_of_nil. tauto.
  - rewrite IH, Set_add_elem, elem_of_cons. tauto.
Qed.

Lemma fold_Set_add_NoDup (ms : list jsstring) : forall out,
  NoDup out -> NoDup (fold_left (fun out m => Set_add out (toLowerCase m)) ms out).
Proof.
  induction ms as [|m ms IH]; intros out Hnd; simpl; [assumption|].
  apply IH, Set_add_NoDup, Hnd.
Qed.

Lemma extractTagTokens_fold userMsg :
  extractTagTokens userMsg =
  fold_left (fun out m => Set_add out (toLowerCase m)) (tagMatches userMsg) [].
Proof. unfold extractTagTokens, tagMatches. now rewrite fold_left_app. Qed.

Lemma extractTagTokens_elem userMsg t :
  t ∈ extractTagTokens userMsg <-> t ∈ (toLowerCase <$> tagMatches userMsg).
Proof.
  rewrite extractTagTokens_fold, fold_Set_add_elem, elem_of_nil. tauto.
Qed.

Lemma extractTagTokens_NoDup userMsg : NoDup (extractTagTokens userMsg).
Proof. rewrite extractTagTokens_fold. apply fold_Set_add_NoDup, NoDup_nil_2. Qed.

Lemma fold_Set_add_keepFirst (ms : list jsstring) : forall out,
  fold_left (fun out m => Set_add out (toLowerCase m)) ms out
  = out ++ keepFirst out (toLowerCase <$> ms).
Proof.
  induction ms as [|m ms IH]; intros out; cbn [fold_left fmap list_fmap keepFirst].
  - now rewrite app_nil_r.
  - rewrite IH. unfold Set_add. case_bool_decide; [reflexivity|].
    now rewrite <- app_assoc.
Qed.

Lemma extractTagTokens_keepFirst userMsg :
  extractTagTokens userMsg = keepFirst [] (toLowerCase <$> tagMatches userMsg).
Proof. now rewrite extractTagTokens_fold, fold_Set_add_keepFirst. Qed.

Lemma extractTagTokens_nil userMsg :
  tagMatches userMsg = [] -> extractTagTokens userMsg = [].
Proof. intros H. now rewrite extractTagTokens_fold, H. Qed.

Lemma intent_of_tokens userMsg :
  extractTagTokens userMsg <> [] -> userExplicitTagIntent userMsg = true.
Proof.
  intros H. unfold userExplicitTagIntent.
  repeat (case_match; [reflexivity|]).
  apply negb_true_iff, bool_decide_eq_false.
  destruct (extractTagTokens userMsg); [contradiction | discriminate].
Qed.

(** What the guardrail leaves in [tags_exact], whatever the plan held. *)
Lemma ensureGuardrails_tags plan userMsg :
  tags_exact (filters (ensureGuardrails plan userMsg)) = nonEmpty (extractTagTokens userMsg).
Proof.
  unfold ensureGuardrails. cbn [filters].
  pose proof (intent_of_tokens userMsg) as Hi.
  destruct (extractTagTokens userMsg) as [|t ts] eqn:Ht.
  - rewrite orb_true_r. cbn. now case_match.
  - rewrite Hi by discriminate. cbn. now case_match.
Qed.

Lemma planSecurity_guarded env planObj userMsg :
  exists plan, planSecurity env planObj userMsg = ensureGuardrails plan userMsg.
Proof.
  unfold planSecurity.
  destruct (truthy planObj); [|eauto].
  destruct (normalizePlan env planObj userMsg); eauto.
Qed.

Lemma planSecurity_tags env planObj userMsg :
  tags_exact (filters (planSecurity env planObj userMsg)) =
  nonEmpty (extractTagTokens userMsg).
Proof.
  destruct (planSecurity_guarded env planObj userMsg) as [plan ->].
  apply ensureGuardrails_tags.
Qed.

Lemma no_signal_no_matches userMsg :
  tagIntentSignal userMsg = false -> tagMatches userMsg = [].
Proof.
  unfold tagIntentSignal, tagMatches. intros H.
  apply orb_false_iff in H as [H Hn]. apply orb_false_iff in H as [_ Ha].
  apply negb_false_iff, bool_decide_eq_true in Hn, Ha.
  now rewrite Hn, Ha.
Qed.

End TagGuardrail.

(** C2. When the user message carries no explicit tag-intent signal (none
    of the keywords, no token matching a tag pattern), the plan has no
    [tags_exact] filter after the guardrails, whatever plan they are
    applied to and whatever the model proposed. *)
Theorem no_tag_signal_strips_tags :
  forall userMsg : jsstring,
    tagIntentSignal userMsg = false ->
    (forall plan, tags_exact (filters (ensureGuardrails plan userMsg)) = None) /\
    (forall env planObj, tags_exact (filters (planSecurity env planObj userMsg)) = None).
Proof.
  intros userMsg Hsig.
  pose proof (extractTagTokens_nil _ (no_signal_no_matches _ Hsig)) as Hnil.
  split; intros.
  - now rewrite ensureGuardrails_tags, Hnil.
  - now rewrite planSecurity_tags, Hnil.
Qed.

Lemma no_tag_signal_strips_tags_witness :
  tagIntentSignal (js "show critical alerts from node-7") = false /\
  (tags_exact ∘ filters <$>
     normalizePlan (mkEnv None None) (Some proposedTagsObj) (js "show critical alerts from node-7"))
    = Ok (Some [js "attack.t1611"]) /\
  tags_exact (filters (planSecurity (mkEnv None None) (Some proposedTagsObj)
                                    (js "show critical alerts from node-7"))) = None.
Proof.
  split; [vm_compute; reflexivity|].
  split; [vm_compute; reflexivity|].
  apply (no_tag_signal_strips_tags (js "show critical alerts from node-7")).
  vm_compute; reflexivity.
Defined.

(** C10. The tag filter that survives the guardrails is a function of the
    user message alone: two runs on the same message agree on it whatever
    the two candidate plans were; it is the list of the lower-cased
    pattern matches of the message, attack tokens first, each kept at its
    first occurrence and none repeated, or it is absent when there is no
    match; the bare keyword "mitre" gives no tag filter; a value proposed
    by the model is in the filter only if the message itself contains
    it. *)
Theorem tags_depend_on_message_only :
  forall (env : Env) (userMsg : jsstring),
    (forall planObj1 planObj2,
       tags_exact (filters (planSecurity env planObj1 userMsg)) =
       tags_exact (filters (planSecurity env planObj2 userMsg))) /\
    (forall planObj,
       tags_exact (filters (planSecurity env planObj userMsg)) =
       nonEmpty (extractTagTokens userMsg)) /\
    extractTagTokens userMsg = keepFirst [] (toLowerCase <$> tagMatches userMsg) /\
    NoDup (extractTagTokens userMsg) /\
    (forall t, t ∈ extractTagTokens userMsg <-> t ∈ (toLowerCase <$> tagMatches userMsg)) /\
    (forall planObj, tags_exact (filters (planSecurity env planObj (js "mitre"))) = None).
Proof.
  intros env userMsg. split; [|split; [|split; [|split; [|split]]]].
  - intros. now rewrite !planSecurity_tags.
  - intros. apply planSecurity_tags.
  - apply extractTagTokens_keepFirst.
  - apply extractTagTokens_NoDup.
  - apply extractTagTokens_elem.
  - intros. rewrite planSecurity_tags. reflexivity.
Qed.

(** ** Conversions of decoded values *)

Section Conversions.

(** Induction over a decoded value and the values inside it. *)
Lemma json_induction (P : json -> Prop) :
  P JNull -> (forall b, P (JBool b)) -> (forall x, P (JNum x)) -> (forall s, P (JStr s)) ->
  (forall items, Forall P items -> P (JArr items)) ->
  (forall fields, Forall (fun kv => P (snd kv)) fields -> P (JObj fields)) ->
  forall v, P v.
Proof.
  intros Hnull Hbool Hnum Hstr Harr Hobj.
  fix IH 1. intros [ | b | x | s | items | fields].
  - exact Hnull.
  - apply Hbool.
  - apply Hnum.
  - apply Hstr.
  - apply Harr. induction items as [|x r IHr]; constructor; [apply IH | exact IHr].
  - apply Hobj. induction fields as [|[k x] r IHr]; constructor; [apply IH | exact IHr].
Qed.

Lemma ToString_plain v : plain v = true -> returns (ToString v).
Proof.
  induction v as [ | b | x | s | items IH | fields IH] using json_induction;
    intros Hp; try (eexists; reflexivity).
  - cbn [ToString].
    match goal with |- returns (_ <$> ?e) => assert (returns e) as [ss ->] end;
      [|eexists; reflexivity].
    cbn [plain] in Hp.
    induction items as [|x r IHr]; [eexists; reflexivity|].
    apply andb_true_iff in Hp as [Hx Hr].
    inversion IH as [|? ? IHx IHrest]; subst.
    destruct (IHr IHrest Hr) as [ss Hss]. rewrite Hss.
    destruct (IHx Hx) as [sx Hsx].
    destruct x; try (rewrite Hsx); eexists; reflexivity.
  - cbn [ToString plain] in *. apply andb_true_iff in Hp as [Hown _].
    apply negb_true_iff in Hown. rewrite Hown. eexists; reflexivity.
Qed.

Lemma plain_lookupField k fields v :
  forallb (fun kv => plain (snd kv)) fields = true ->
  lookupField k fields = Some v -> plain v = true.
Proof.
  induction fields as [|[k' x] r IH]; cbn; [discriminate|].
  intros Hp Hl. apply andb_true_iff in Hp as [Hx Hr].
  destruct (streq k k'); [now inversion Hl; subst | now apply IH].
Qed.

Lemma plain_get o k v : plain o = true -> get (Some o) k = Some v -> plain v = true.
Proof.
  destruct o; cbn; try discriminate.
  intros Hp. apply andb_true_iff in Hp as [_ Hp]. now apply plain_lookupField.
Qed.

Lemma String_plain o k : plain o = true -> String_ (get (Some o) k) = Ok (coerced (get (Some o) k)).
Proof.
  intros Hp. unfold coerced.
  destruct (get (Some o) k) as [v|] eqn:Hg; [|reflexivity].
  destruct (ToString_plain v (plain_get _ _ _ Hp Hg)) as [s Hs].
  cbn [String_]. now rewrite Hs.
Qed.

Lemma Number_plain o k : plain o = true -> Number_ (get (Some o) k) = Ok (numeric (get (Some o) k)).
Proof.
  intros Hp. unfold numeric.
  destruct (get (Some o) k) as [v|] eqn:Hg; [|reflexivity].
  pose proof (plain_get _ _ _ Hp Hg) as Hv.
  destruct v as [ | b | x | s | items | fields]; try reflexivity.
  - destruct (ToString_plain _ Hv) as [s Hs]. cbn [Number_]. now rewrite Hs.
  - cbn [plain] in Hv. apply andb_true_iff in Hv as [Hown _].
    apply negb_true_iff in Hown. cbn [Number_]. now rewrite Hown.
Qed.

Lemma clampNum_range x lo hi dflt :
  lo <= hi -> lo <= dflt <= hi -> lo <= clampNum x lo hi dflt <= hi.
Proof. intros Hlh Hd. destruct x; cbn; lia. Qed.

Lemma clampInt_plain o k lo hi dflt :
  plain o = true ->
  clampInt (get (Some o) k) lo hi dflt = Ok (clampNum (numeric (get (Some o) k)) lo hi dflt).
Proof. intros Hp. unfold clampInt. now rewrite Number_plain. Qed.

End Conversions.

(** ** Output normalization *)

Section Outputs.

Ltac run_output :=
  repeat first
    [ rewrite String_plain by assumption
    | rewrite clampInt_plain by assumption
    | progress cbn [mbind result_bind kind title template group_by limit span split
                    set_kind set_group_by set_limit set_span set_split]
    | case_decide; try congruence ].

Lemma normalizeOutput_plain o :
  plain o = true -> normalizeOutput (Some o) = Ok (documentedOutput o).
Proof.
  intros Hp. unfold normalizeOutput, documentedOutput.
  rewrite (String_plain o "kind" Hp). cbn [mbind result_bind].
  rewrite (String_plain o "template" Hp). cbn [mbind result_bind].
  generalize (coerced (get (Some o) "kind")) as ks.
  generalize (trimmedOr (get (Some o) "title") (js "Result")) as ttl.
  intros ttl ks.
  destruct (default tpl_table (parseTemplate (coerced (get (Some o) "template"))));
    run_output; try reflexivity;
    destruct (parseKind ks) as [[]|]; cbn in *; try reflexivity; exfalso; intuition congruence.
Qed.

(** Whatever the element, a specification that comes out of the loop
    has a kind forced by its template, never ["none"]. *)
Lemma normalizeOutput_kind o spec :
  normalizeOutput o = Ok spec -> kind spec <> kind_none.
Proof.
  unfold normalizeOutput.
  destruct (String_ (get o "kind")) as [ks|]; [|discriminate]. cbn [mbind result_bind].
  destruct (String_ (get o "template")) as [ts|]; [|discriminate]. cbn [mbind result_bind].
  generalize (trimmedOr (get o "title") (js "Result")) as ttl. intros ttl.
  generalize (trimmedOr (get o "span") (js "5m")) as sp. intros sp.
  destruct (default tpl_table (parseTemplate ts));
    repeat first
      [ progress cbn [mbind result_bind kind title template group_by limit span split
                      set_kind set_group_by set_limit set_span set_split]
      | match goal with
        | |- context [String_ ?v] => destruct (String_ v); [|discriminate]
        | |- context [clampInt ?v ?a ?b ?c] => destruct (clampInt v a b c); [|discriminate]
        end
      | case_decide; try congruence ];
    intros [= <-]; cbn; try discriminate.
  intros E. apply H3. rewrite E. split; discriminate.
Qed.

Lemma normalizeOutputs_kinds raw outs :
  normalizeOutputs raw = Ok outs -> Forall (fun spec => kind spec <> kind_none) outs.
Proof.
  unfold normalizeOutputs. generalize (default [] (asArray raw)) as items.
  intros items. revert outs.
  induction items as [|o r IH]; intros outs; cbn.
  - intros [= <-]. constructor.
  - destruct (normalizeOutput (Some o)) as [spec|] eqn:Ho; [|discriminate].
    cbn. destruct (mapM (fun o => normalizeOutput (Some o)) r) as [rest|]; [|discriminate].
    cbn. intros [= <-]. constructor; [eapply normalizeOutput_kind, Ho | now apply IH].
Qed.

Lemma normalizeOutputs_plain items :
  forallb plain items = true ->
  normalizeOutputs (Some (JArr items)) = Ok (documentedOutput <$> items).
Proof.
  unfold normalizeOutputs. cbn [asArray default].
  induction items as [|o r IH]; cbn; [reflexivity|].
  intros Hp. apply andb_true_iff in Hp as [Ho Hr].
  rewrite (normalizeOutput_plain o Ho). cbn.
  specialize (IH Hr). cbn in IH. rewrite IH. reflexivity.
Qed.



End Outputs.

Section Guardrails.

Lemma meaningful_live outs : outs <> [] -> Forall live outs -> meaningful outs = true.
Proof.
  destruct outs as [|o r]; [contradiction|]. intros _ H.
  inversion H as [|? ? Ho _]; subst. unfold meaningful. cbn [existsb].
  apply orb_true_iff. left. apply negb_true_iff, bool_decide_eq_false, Ho.
Qed.

Lemma meaningful_none outs :
  Forall (fun o => kind o = kind_none) outs -> meaningful outs = false.
Proof.
  induction 1 as [|o r Ho _ IH]; [reflexivity|].
  unfold meaningful in *. cbn [existsb]. rewrite IH, orb_false_r.
  apply negb_false_iff, bool_decide_eq_true, Ho.
Qed.

Lemma ensureGuardrails_outputs plan userMsg :
  outputs (ensureGuardrails plan userMsg) =
  take 4 (if bool_decide (outputs plan = []) || negb (meaningful (outputs plan))
          then [defaultTable] else outputs plan).
Proof.
  unfold ensureGuardrails. cbn [outputs].
  destruct (outputs plan) as [|o r]; [reflexivity|].
  cbn [length bool_decide]. rewrite !bool_decide_eq_false_2 by discriminate.
  cbn [orb]. now destruct (meaningful (o :: r)).
Qed.

Lemma ensureGuardrails_live plan userMsg :
  Forall live (outputs plan) ->
  let outs := outputs (ensureGuardrails plan userMsg) in
  (1 <= length outs <= 4)%nat /\ Forall live outs.
Proof.
  intros Hl. cbn zeta. rewrite ensureGuardrails_outputs.
  destruct (outputs plan) as [|o r] eqn:Ho.
  - cbn. split; [lia|]. repeat constructor. discriminate.
  - rewrite bool_decide_eq_false_2 by discriminate.
    rewrite meaningful_live by (assumption || discriminate).
    cbn [orb negb]. split.
    + rewrite length_take. cbn [length]. lia.
    + now apply Forall_take.
Qed.

Lemma ensureGuardrails_default plan userMsg :
  outputs plan = [] \/ Forall (fun o => kind o = kind_none) (outputs plan) ->
  outputs (ensureGuardrails plan userMsg) = [defaultTable].
Proof.
  intros H. rewrite ensureGuardrails_outputs.
  destruct H as [-> | H]; [reflexivity|].
  rewrite (meaningful_none _ H), orb_true_r. reflexivity.
Qed.

Lemma normalizePlan_live env raw userMsg plan :
  normalizePlan env raw userMsg = Ok plan -> Forall live (outputs plan).
Proof.
  unfold normalizePlan.
  repeat match goal with
         | |- context [mbind _ ?m] =>
             lazymatch m with
             | normalizeOutputs _ => fail
             | _ => destruct m; [|discriminate]; cbn [mbind result_bind]
             end
         end.
  destruct (normalizeOutputs (get raw "outputs")) as [outs|] eqn:Ho; [|discriminate].
  cbn [mbind result_bind]. intros [= <-]. cbn [outputs].
  eapply normalizeOutputs_kinds, Ho.
Qed.

Lemma defaultPlan_live env userMsg : Forall live (outputs (defaultPlan env userMsg)).
Proof.
  unfold defaultPlan. cbn [outputs].
  destruct (containsNetworkActivityIntent userMsg); repeat constructor; discriminate.
Qed.

Lemma planSecurity_live env planObj userMsg :
  let outs := outputs (planSecurity env planObj userMsg) in
  (1 <= length outs <= 4)%nat /\ Forall live outs.
Proof.
  unfold planSecurity.
  destruct (truthy planObj);
    [destruct (normalizePlan env planObj userMsg) as [p|] eqn:Hn|];
    apply ensureGuardrails_live;
    first [eapply normalizePlan_live, Hn | apply defaultPlan_live].
Qed.

End Guardrails.




(** C5. After the guardrails the plan of a run has between one and four
    outputs and at least one of them is not of kind ["none"], whatever the
    candidate plan and the message; and when the outputs handed to the
    guardrails are empty or all of kind ["none"], the result is the single
    default table output. *)
Theorem outputs_after_guardrails :
  forall (env : Env) (planObj : option json) (userMsg : jsstring),
    let outs := outputs (planSecurity env planObj userMsg) in
    (1 <= length outs <= 4)%nat /\
    Exists live outs /\
    (forall plan,
       outputs plan = [] \/ Forall (fun o => kind o = kind_none) (outputs plan) ->
       outputs (ensureGuardrails plan userMsg) = [defaultTable]).
Proof.
  intros env planObj userMsg outs.
  destruct (planSecurity_live env planObj userMsg) as [Hlen Hlive].
  fold outs in Hlen, Hlive. split; [exact Hlen|]. split.
  - destruct outs as [|o r]; [cbn in Hlen; lia|].
    inversion Hlive; subst. now constructor.
  - intros plan. apply ensureGuardrails_default.
Qed.

Lemma outputs_after_guardrails_witness :
  outputs (ensureGuardrails suppressedPlan (js "list events")) = [defaultTable].
Proof.
  apply (outputs_after_guardrails (mkEnv None None) None (js "list events")).
  right. repeat constructor.
Defined.
(** ** Observability allow-list *)

Section AllowList.

Lemma isAllowedObservabilityCombo_allowList req :
  isAllowedObservabilityCombo req = bool_decide (comboOf req ∈ allowList).
Proof.
  destruct req as [a b c d e t]. unfold comboOf. cbn [mcp tool target metric viz].
  destruct a, b, c, d, e; vm_compute; reflexivity.
Qed.

Lemma normalizeRequest_allowed r : normalizeRequest r = allowedRequest r.
Proof.
  unfold normalizeRequest, allowedRequest, spelledRequest.
  assert (forall k, get (nullish (Some r) (Some (JObj []))) k = get (Some r) k) as Hg.
  { intros k. destruct r; reflexivity. }
  rewrite !Hg.
  destruct (firstNamed OBSERVABILITY_ALLOWED_MCPS _) as [a|]; [|reflexivity].
  destruct (firstNamed OBSERVABILITY_ALLOWED_TOOLS _) as [b|]; [|reflexivity].
  destruct (firstNamed OBSERVABILITY_ALLOWED_TARGETS _) as [c|]; [|reflexivity].
  destruct (firstNamed OBSERVABILITY_ALLOWED_METRICS _) as [d|]; [|reflexivity].
  destruct (firstNamed OBSERVABILITY_ALLOWED_VIZ _) as [e|]; [|reflexivity].
  cbn [mbind option_bind]. rewrite isAllowedObservabilityCombo_allowList.
  now destruct (bool_decide _).
Qed.

Lemma normalizeObservabilityPlan_requests raw userMsg :
  requests (normalizeObservabilityPlan raw userMsg) =
  take 3 (omap allowedRequest (default [] (asArray (get raw "requests")))).
Proof.
  unfold normalizeObservabilityPlan. cbn [requests]. f_equal.
  generalize (default [] (asArray (get raw "requests"))) as l.
  induction l as [|r l IH]; [reflexivity|].
  cbn [omap list_omap]. rewrite normalizeRequest_allowed, IH. reflexivity.
Qed.

Lemma allowedRequest_on_list r req :
  allowedRequest r = Some req -> comboOf req ∈ allowList.
Proof.
  unfold allowedRequest. destruct (spelledRequest r) as [q|]; [|discriminate].
  cbn [mbind option_bind]. case_bool_decide; [|discriminate]. now intros [= <-].
Qed.

End AllowList.

(** C3. Normalization of an observability candidate keeps, in order,
    exactly the elements whose five fields spell a combination of the
    allow-list, drops every other element without repairing it, and cuts
    the result to three requests; every request of the result is on the
    list, and a candidate with one allowed and one other element, in
    either order, yields exactly the allowed one. *)
Theorem normalizeObservabilityPlan_allowList :
  forall (raw : option json) (userMsg : jsstring),
    let reqs := requests (normalizeObservabilityPlan raw userMsg) in
    reqs = take 3 (omap allowedRequest (default [] (asArray (get raw "requests")))) /\
    (length reqs <= 3)%nat /\
    Forall (fun req => comboOf req ∈ allowList) reqs /\
    (forall good bad req top,
       allowedRequest good = Some req -> allowedRequest bad = None ->
       (raw = Some (JObj ((js "requests", JArr [good; bad]) :: top)) \/
        raw = Some (JObj ((js "requests", JArr [bad; good]) :: top))) ->
       reqs = [req]).
Proof.
  intros raw userMsg reqs. subst reqs.
  rewrite normalizeObservabilityPlan_requests. repeat split.
  - rewrite length_take. lia.
  - apply Forall_take, Forall_forall. intros req Hin.
    apply list_elem_of_In, list_elem_of_omap in Hin as (r & _ & Hr).
    eapply allowedRequest_on_list, Hr.
  - assert (streq (js "requests") (js "requests") = true) as Hk by (vm_compute; reflexivity).
    intros good bad req top Hgood Hbad [-> | ->]; cbn [get lookupField];
      rewrite Hk; cbn -[allowedRequest]; rewrite Hgood, Hbad; reflexivity.
Qed.

Lemma normalizeObservabilityPlan_allowList_witness :
  requests (normalizeObservabilityPlan
              (Some (JObj [(js "requests", JArr [validRequestObj; invalidRequestObj])]))
              (js "how is vllm doing")) =
  [mkRequest grafana query_dashboard_timeseries vllm_dashboard success_count_per_minute
             viz_line (js "vLLM")].
Proof.
  destruct (normalizeObservabilityPlan_allowList
              (Some (JObj [(js "requests", JArr [validRequestObj; invalidRequestObj])]))
              (js "how is vllm doing")) as (_ & _ & _ & H).
  apply (H validRequestObj invalidRequestObj _ []).
  - vm_compute; reflexivity.
  - vm_compute; reflexivity.
  - left. reflexivity.
Defined.

(** ** Intent enforcement *)

Section Intent.

Lemma detectObservabilityIntent_gpu userMsg :
  isAnomalyText (toLowerCase userMsg) = false ->
  isSuccessRateText (toLowerCase userMsg) = false ->
  includes (toLowerCase userMsg) (js "gpu") = true ->
  detectObservabilityIntent userMsg = intent_gpu.
Proof. intros Ha Hs Hg. unfold detectObservabilityIntent. now rewrite Ha, Hs, Hg. Qed.

Lemma enforceObservabilityIntent_language plan userMsg :
  obs_language (enforceObservabilityIntent plan userMsg) = obs_language plan.
Proof. unfold enforceObservabilityIntent. now destruct (detectObservabilityIntent userMsg). Qed.

Lemma fallbackObservabilityPlan_language userMsg :
  obs_language (fallbackObservabilityPlan userMsg) = detectLanguage userMsg.
Proof. unfold fallbackObservabilityPlan. repeat case_match; reflexivity. Qed.

Lemma planObservability_enforced planObj userMsg :
  exists plan,
    obs_language plan = detectLanguage userMsg /\
    planObservability planObj userMsg = enforceObservabilityIntent plan userMsg.
Proof.
  unfold planObservability.
  destruct (truthy planObj); [case_bool_decide|];
    eexists; (split; [|reflexivity]);
    first [apply fallbackObservabilityPlan_language | reflexivity].
Qed.

End Intent.

(** C7, as the code has it. The intents are tried in a fixed order:
    anomaly, success rate, GPU, success count. When the lower-cased
    message contains "gpu" and none of the anomaly or success-rate
    keywords, the requests of the resolved plan are exactly the canonical
    GPU request, titled in the language of the message, whatever the model
    produced. *)
Theorem gpu_intent_overrides_model :
  forall userMsg : jsstring,
    includes (toLowerCase userMsg) (js "gpu") = true ->
    isAnomalyText (toLowerCase userMsg) = false ->
    isSuccessRateText (toLowerCase userMsg) = false ->
    (forall plan,
       requests (enforceObservabilityIntent plan userMsg) = [gpuRequest (obs_language plan)]) /\
    (forall planObj,
       requests (planObservability planObj userMsg) = [gpuRequest (detectLanguage userMsg)]) /\
    (forall lang, comboOf (gpuRequest lang) = gpuCombo).
Proof.
  intros userMsg Hg Ha Hs.
  pose proof (detectObservabilityIntent_gpu _ Ha Hs Hg) as Hi.
  assert (forall plan,
            requests (enforceObservabilityIntent plan userMsg) = [gpuRequest (obs_language plan)])
    as He by (intros plan; unfold enforceObservabilityIntent; now rewrite Hi).
  split; [exact He|]. split; [|reflexivity].
  intros planObj.
  destruct (planObservability_enforced planObj userMsg) as (plan & Hl & ->).
  now rewrite He, Hl.
Qed.

Lemma gpu_intent_overrides_model_witness :
  requests (planObservability (Some (JObj [(js "requests", JArr [validRequestObj])]))
                              (js "What is the GPU status?")) =
  [gpuRequest en].
Proof.
  apply (gpu_intent_overrides_model (js "What is the GPU status?"));
    vm_compute; reflexivity.
Defined.

(** C7 as it is worded fails on a message that contains "gpu" together
    with a keyword of an earlier intent: the anomaly requests win, here
    even though the model itself proposed the GPU request. *)
Lemma gpu_intent_counterexample :
  includes (toLowerCase (js "any GPU anomaly?")) (js "gpu") = true /\
  requests (planObservability (Some gpuRequestObj) (js "any GPU anomaly?")) =
    [hubbleRequest en; ndiRequest en] /\
  comboOf <$> requests (planObservability (Some gpuRequestObj) (js "any GPU anomaly?")) <>
    [gpuCombo].
Proof. repeat split; vm_compute; (reflexivity || discriminate). Qed.

(** ** Order of the panels *)

Section PanelOrder.

Example mixed_order :
  let plan := planObservability (Some mixedRequestsObj) (js "how is the cluster") in
  req_title <$> requests plan = [js "Flows"; js "Load"] /\
  panelTitle <$> emitted (snd (runObservabilityPanels quietWorld plan startTrace)) =
    [js "Load"; js "Communication anomalies (Overlay/Underlay)"].
Proof. vm_compute. split; reflexivity. Qed.

Ltac run_io :=
  repeat progress
    (unfold mbind, IO_bind, mret, IO_ret, callSplunkMcp, liftResult, newPanelId, Date_now,
       pushPanel in *;
     cbn beta iota zeta;
     cbn [calls ticks emitted fst snd] in *).

(** Materializing a panel emits nothing by itself; when it succeeds the
    panel answers the output. *)
Lemma materialize_spec w plan seq out t0 :
  live out ->
  match materialize w plan seq out t0 with
  | (Ok p, t1) => emitted t1 = emitted t0 /\ panelOfOutput (filters plan) seq out p
  | (Throw _, t1) => emitted t1 = emitted t0
  end.
Proof.
  intros Hl. unfold materialize, panelOfOutput, compileOutput.
  rewrite (decide_False (P := kind out = kind_none)) by exact Hl.
  destruct (template out); run_io.
  - destruct (splunk _ _ _ _ _ _); [|reflexivity].
    destruct (Number_ _); [|reflexivity].
    cbn. repeat split. eexists; reflexivity.
  - destruct (splunk _ _ _ _ _ _); [|reflexivity].
    destruct (normalizeTableRows _ _); [|reflexivity].
    cbn. repeat split. eexists; reflexivity.
  - destruct (splunk _ _ _ _ _ _); [|reflexivity].
    destruct (normalizeChartData _); [|reflexivity].
    destruct (default gb_Severity (group_by out)); case_decide; cbn;
      repeat split; try assumption; eexists; reflexivity.
  - destruct (splunk _ _ _ _ _ _); [|reflexivity].
    destruct (normalizeChartData _); [|reflexivity].
    cbn. repeat split. eexists; reflexivity.
Qed.

(** The loop from sequence number [seq] on: what it adds to the emitted
    panels answers, in order, the live outputs it has gone through, all
    of them if it ends normally and a strict prefix if it raises. *)
Lemma runPanelsFrom_spec w plan outs : forall seq t0,
  match runPanelsFrom w plan seq outs t0 with
  | (r, t1) =>
      exists ps : list Panel, emitted t1 = emitted t0 ++ ps /\
        match r with
        | Ok _ => inOrder (panelOfOutput (filters plan)) seq
                          (filter (fun o => kind o <> kind_none) outs) ps
        | Throw _ =>
            exists n, (n < length (filter (fun o => kind o <> kind_none) outs))%nat /\
              inOrder (panelOfOutput (filters plan)) seq
                      (take n (filter (fun o => kind o <> kind_none) outs)) ps
        end
  end.
Proof.
  induction outs as [|out rest IH]; intros seq t0; cbn [runPanelsFrom].
  - exists []. now rewrite app_nil_r.
  - destruct (decide (kind out = kind_none)) as [Hn|Hn].
    + rewrite filter_cons_False by (intros H; now apply H). apply IH.
    + rewrite filter_cons_True by exact Hn.
      pose proof (materialize_spec w plan seq out t0 Hn) as Hm.
      run_io. destruct (materialize w plan seq out t0) as [[p|e] t1].
      * destruct Hm as [Hem Hp].
        specialize (IH (S seq) (mkTrace (calls t1) (ticks t1) (emitted t1 ++ [p]))).
        destruct (runPanelsFrom w plan (S seq) rest _) as [r t2].
        destruct IH as (ps & Hps & Hr). cbn [emitted] in Hps.
        exists (p :: ps). split.
        { rewrite Hps, Hem, <- app_assoc. reflexivity. }
        destruct r as [u|e].
        -- cbn [inOrder]. now split.
        -- destruct Hr as (n & Hn' & Hr). exists (S n). split; [cbn [length]; lia|].
           cbn [take inOrder]. now split.
      * exists []. split; [now rewrite app_nil_r|].
        exists 0%nat. split; [cbn [length]; lia|]. exact I.
Qed.

Lemma mockGrafanaSeries_spec w m t0 :
  exists data,
    mockGrafanaSeries w m t0 = (Ok data, mkTrace (calls t0) (S (ticks t0)) (emitted t0)) /\
    length data = 15%nat.
Proof.
  unfold mockGrafanaSeries, buildMinuteSeries.
  destruct m; run_io; eexists; (split; [reflexivity|]); now rewrite length_imap.
Qed.

Lemma networkRowOf_push rows req :
  viz req <> viz_line ->
  (let rows1 := if decide (mcp req = hubble) then rows ++ [mockHubbleRow] else rows in
   if decide (mcp req = ndi) then rows1 ++ [mockNdiRow] else rows1)
  = rows ++ option_list (networkRowOf req).
Proof.
  intros Hv. unfold networkRowOf.
  destruct (viz req); [contradiction|].
  destruct (mcp req); cbn; now rewrite ?app_nil_r.
Qed.

(** The loop of an observability run never raises; it emits one line
    panel per line request, in order, and collects one row per network
    request. *)
Lemma runObservabilityFrom_spec w plan reqs : forall seq rows t0,
  exists (ps : list Panel) t1,
    runObservabilityFrom w plan seq rows reqs t0
      = (Ok ((seq + length ps)%nat, rows ++ omap networkRowOf reqs), t1) /\
    emitted t1 = emitted t0 ++ ps /\
    inOrder (lineOfRequest plan) seq (filter (fun r => viz r = viz_line) reqs) ps.
Proof.
  induction reqs as [|req rest IH]; intros seq rows t0; cbn [runObservabilityFrom].
  - exists [], t0. cbn. rewrite Nat.add_0_r, !app_nil_r. repeat split.
  - destruct (decide (viz req = viz_line)) as [Hv|Hv].
    + rewrite filter_cons_True by exact Hv.
      destruct (mockGrafanaSeries_spec w (metric req) t0) as (data & Hd & Hlen).
      run_io. rewrite Hd. run_io.
      match goal with
      | |- context [runObservabilityFrom w plan (S seq) rows rest ?t] =>
          destruct (IH (S seq) rows t) as (ps & t1 & Hrun & Hem & Hord)
      end.
      rewrite Hrun. cbn [emitted] in Hem.
      eexists (_ :: ps), t1. split; [|split].
      * cbn [length]. rewrite Nat.add_succ_r.
        assert (networkRowOf req = None) as Hnone
          by (unfold networkRowOf; now rewrite Hv).
        cbn [omap list_omap]. rewrite Hnone. reflexivity.
      * rewrite Hem, <- app_assoc. reflexivity.
      * cbn [inOrder]. split; [|exact Hord].
        eexists _, data. split; [reflexivity|]. split; [eexists; reflexivity | exact Hlen].
    + rewrite filter_cons_False by exact Hv.
      match goal with
      | |- context [runObservabilityFrom w plan seq ?e rest t0] =>
          replace e with (rows ++ option_list (networkRowOf req))
            by (symmetry; exact (networkRowOf_push rows req Hv))
      end.
      destruct (IH seq (rows ++ option_list (networkRowOf req)) t0)
        as (ps & t1 & Hrun & Hem & Hord).
      exists ps, t1. split; [|now split].
      rewrite Hrun. cbn [omap list_omap].
      destruct (networkRowOf req); cbn [option_list]; now rewrite <- ?app_assoc, ?app_nil_r.
Qed.

Lemma runObservabilityPanels_spec w plan :
  exists (lines net : list Panel) t,
    runObservabilityPanels w plan startTrace = (Ok tt, t) /\
    emitted t = lines ++ net /\
    inOrder (lineOfRequest plan) 0 (lineRequests plan) lines /\
    networkPanels plan (length lines) net.
Proof.
  unfold runObservabilityPanels, networkPanels, lineRequests.
  destruct (runObservabilityFrom_spec w plan (requests plan) 0%nat [] startTrace)
    as (ps & t1 & Hrun & Hem & Hord).
  run_io. rewrite Hrun. cbn [app Nat.add] in *.
  destruct (omap networkRowOf (requests plan)) as [|row rows].
  - exists ps, [], t1. rewrite app_nil_r. repeat split; assumption.
  - run_io. eexists ps, [_], _. split; [reflexivity|]. cbn [emitted].
    split; [now rewrite Hem|]. split; [exact Hord|].
    eexists. split; [reflexivity|]. eexists; reflexivity.
Qed.

End PanelOrder.

(** C8, as the code has it. In the security workspace the panels emitted
    by a run answer the outputs of the plan that are not suppressed, one
    for one and in the order of the plan, each with the title of its
    output and the query compiled for it; a run that raises has emitted
    the panels of a strict prefix of those outputs. In the observability
    workspace a run never raises; it emits one line panel per line request,
    in the order of the plan, and after them at most one network panel,
    which gathers the rows of all the network requests. *)
Theorem panels_follow_plan :
  forall w : World,
    (forall plan : Plan,
       let '(r, t) := runPanels w plan startTrace in
       match r with
       | Ok _ => inOrder (panelOfOutput (filters plan)) 0 (liveOutputs plan) (emitted t)
       | Throw _ =>
           exists n, (n < length (liveOutputs plan))%nat /\
             inOrder (panelOfOutput (filters plan)) 0 (take n (liveOutputs plan)) (emitted t)
       end) /\
    (forall plan : ObservabilityPlan,
       exists (lines net : list Panel) t,
         runObservabilityPanels w plan startTrace = (Ok tt, t) /\
         emitted t = lines ++ net /\
         inOrder (lineOfRequest plan) 0 (lineRequests plan) lines /\
         networkPanels plan (length lines) net).
Proof.
  intros w. split.
  - intros plan. unfold runPanels, liveOutputs.
    pose proof (runPanelsFrom_spec w plan (outputs plan) 0%nat startTrace) as H.
    destruct (runPanelsFrom w plan 0 (outputs plan) startTrace) as [r t].
    destruct H as (ps & Hem & H). cbn in Hem. subst ps. exact H.
  - intros plan. apply runObservabilityPanels_spec.
Qed.

(** C8 as it is worded fails in the observability workspace. With the
    topology requested first and a trend second, the trend panel is
    emitted first and the network panel last; and the two requests of the
    anomaly intent are answered by a single panel. *)
Lemma panels_follow_requests_counterexample :
  (let plan := planObservability (Some mixedRequestsObj) (js "how is the cluster") in
   let ps := emitted (snd (runObservabilityPanels quietWorld plan startTrace)) in
   req_title <$> requests plan = [js "Flows"; js "Load"] /\
   panelTitle <$> ps = [js "Load"; js "Communication anomalies (Overlay/Underlay)"] /\
   sameOrder (requests plan) ps = false) /\
  (let plan := planObservability None (js "any anomaly?") in
   let ps := emitted (snd (runObservabilityPanels quietWorld plan startTrace)) in
   length (requests plan) = 2%nat /\ length ps = 1%nat).
Proof. vm_compute. repeat split; reflexivity. Qed.

(** ** Evidence *)

Section EvidenceBounds.











End EvidenceBounds.



(** ** The span of a trend *)

Section TrendSpan.

(** The bucket of a trend is the trimmed span as it stands. *)
Lemma splTrend_span f span c r :
  trim span = c :: r ->
  splTrend f span split_none =
  join newline ([BASE_SEARCH] ++ buildFilterPipeline f ++
                [js "| timechart span=" ++ trim span ++ js " count as total";
                 strftimeLine; js "| fields time total"]).
Proof. intros H. unfold splTrend. now rewrite H. Qed.

(** A substring filter with the same text is escaped. *)
Example like_filter_escaped :
  likeClause "Description" (Some injectedSpan) =
  [js "like(Description, " ++ quoted (js "%" ++ escapeSplString injectedSpan ++ js "%")
   ++ js ")"].
Proof. reflexivity. Qed.

End TrendSpan.

(** C1 does not hold of the code. The [span] of a trend output is free
    text of the model: normalization only trims it, and [splTrend] puts it
    into the query as it stands, without [escapeSplString] and outside any
    quoted literal. On the candidate [injectedSpanObj] the plan keeps the
    span, the query that is compiled and sent carries its pipe characters
    and its double quotes unchanged, and escaping would have changed
    it. *)
Theorem trend_span_not_escaped :
  let plan := planSecurity (mkEnv None None) (Some injectedSpanObj) (js "show the trend") in
  let query := join newline [BASE_SEARCH;
                             js "| timechart span=" ++ injectedSpan ++ js " count as total";
                             strftimeLine; js "| fields time total"] in
  span <$> outputs plan = [Some injectedSpan] /\
  compileOutput (filters plan) <$> outputs plan = [Some query] /\
  panelSpl <$> emitted (snd (runPanels quietWorld plan startTrace)) = [Some query] /\
  escapeSplString injectedSpan <> injectedSpan /\
  includes query (escapeSplString injectedSpan) = false.
Proof. vm_compute. repeat split; (reflexivity || discriminate). Qed.

(** ** A run on the default plan *)

Example default_plan_run :
  let plan := planSecurity (mkEnv None None) None (js "egress from node-7") in
  let run := runPanels quietWorld plan startTrace in
  title <$> outputs plan = [js "Network Activity"; js "Events"] /\
  has_network_activity (filters plan) = Some true /\
  fst run = Ok tt /\
  panelId <$> emitted (snd run) =
    [js "p_dist_1700000000000_0"; js "p_table_1700000000001_1"] /\
  panelTitle <$> emitted (snd run) = [js "Network Activity"; js "Events"].
Proof. vm_compute. repeat split; reflexivity. Qed.

(** * Further properties of the pipeline *)

(** ** Tag tokens have the tag syntax *)

Section TagSyntax.

Lemma spanWhile_spec {A} (p : A -> bool) l a b :
  spanWhile p l = (a, b) -> l = a ++ b /\ forallb p a = true.
Proof.
  revert a b. induction l as [|x l IH]; intros a b; cbn.
  - intros [= <- <-]. now split.
  - destruct (p x) eqn:Hp.
    + destruct (spanWhile p l) as [a' b'] eqn:Hs. intros [= <- <-].
      destruct (IH a' b' eq_refl) as [-> Ha]. cbn. now rewrite Hp, Ha.
    + intros [= <- <-]. now split.
Qed.

Lemma matchAll_elem matchAt s : forall skip m,
  m ∈ matchAll matchAt skip s ->
  exists suffix n, matchAt suffix = Some n /\ m = take n suffix.
Proof.
  induction s as [|c r IH]; intros skip m; cbn [matchAll].
  - intros H. now apply elem_of_nil in H.
  - destruct skip as [|k]; [|apply IH].
    destruct (matchAt (c :: r)) as [n|] eqn:Hm; [|apply IH].
    intros H. apply elem_of_cons in H as [-> | H]; [eauto | eapply IH, H].
Qed.

Lemma ciEq_tagChar p c :
  isTagChar false p = true -> ciEq p c = true -> isTagChar true c = true.
Proof.
  unfold ciEq, isTagChar. intros Hp Hc.
  apply orb_true_iff in Hc as [Hc | Hc].
  - apply N.eqb_eq in Hc. subst c. cbn [andb] in Hp. rewrite orb_false_r in Hp.
    apply orb_true_iff. now left.
  - apply andb_true_iff in Hc as [Hu _]. rewrite Hu. now rewrite !orb_true_r.
Qed.

Lemma dot_match {A} (c : N) (a b : A) :
  match c with 46%N => a | _ => b end = if (c =? 46)%N then a else b.
Proof.
  destruct c as [|p]; [reflexivity|].
  do 6 (destruct p as [p|p|]; try reflexivity).
Qed.

Lemma startsWithCI_tagChars pat : forall s,
  forallb (isTagChar false) pat = true -> startsWithCI s pat = true ->
  forallb (isTagChar true) (take (length pat) s) = true /\
  length (take (length pat) s) = length pat.
Proof.
  induction pat as [|p pat IH]; intros s Hp Hs; [now split|].
  destruct s as [|c s]; [discriminate|]. cbn in Hp, Hs |- *.
  apply andb_true_iff in Hp as [Hp1 Hp2]. apply andb_true_iff in Hs as [Hc Hs].
  destruct (IH s Hp2 Hs) as [Hall Hlen].
  rewrite (ciEq_tagChar p c Hp1 Hc), Hall, Hlen. now split.
Qed.

Lemma digits_tagChars s : forallb isDigit s = true -> forallb (isTagChar true) s = true.
Proof.
  induction s as [|c s IH]; [reflexivity|]. cbn. intros H.
  apply andb_true_iff in H as [Hc Hs]. rewrite (IH Hs), andb_true_r.
  unfold isTagChar. now rewrite Hc, orb_true_r.
Qed.

Lemma digitsAt_spec n s :
  digitsAt n s = true -> length (take n s) = n /\ forallb (isTagChar true) (take n s) = true.
Proof.
  unfold digitsAt. intros H. apply andb_true_iff in H as [Hl Hd].
  apply bool_decide_eq_true in Hl. split; [exact Hl | now apply digits_tagChars].
Qed.

Lemma take_plus {A} (n m : nat) (l : list A) :
  take (n + m) l = take n l ++ take m (drop n l).
Proof.
  revert l. induction n as [|n IH]; intros l; [reflexivity|].
  destruct l as [|x l]; [cbn; now rewrite take_nil|]. cbn. now rewrite IH.
Qed.

Lemma matchAttackAt_shape s n :
  matchAttackAt s = Some n ->
  take n s <> [] /\ forallb (isTagChar true) (take n s) = true.
Proof.
  unfold matchAttackAt.
  destruct (startsWithCI s (js "attack.t") && digitsAt 4 (drop 8 s)) eqn:H; [|discriminate].
  apply andb_true_iff in H as [Hpre Hdig].
  destruct (startsWithCI_tagChars (js "attack.t") s eq_refl Hpre) as [Hall Hlen].
  change (length (js "attack.t")) with 8%nat in Hall, Hlen.
  destruct (digitsAt_spec _ _ Hdig) as [Hl4 Hd4].
  assert (take 12 s <> [] /\ forallb (isTagChar true) (take 12 s) = true) as H12.
  { rewrite (take_plus 8 4). split.
    - intros E. apply (f_equal length) in E. rewrite length_app, Hlen in E. discriminate.
    - now rewrite forallb_app, Hall, Hd4. }
  assert (forall r, drop 12 s = 46%N :: r -> digitsAt 3 r = true ->
            take 16 s <> [] /\ forallb (isTagChar true) (take 16 s) = true) as H16.
  { intros r Hr Hd3. destruct (digitsAt_spec _ _ Hd3) as [_ Hd].
    rewrite (take_plus 12 4), Hr. cbn [take]. split.
    - intros E. apply app_eq_nil in E as [E _]. now apply H12.
    - rewrite forallb_app. cbn [forallb]. rewrite (proj2 H12), Hd. reflexivity. }
  destruct (drop 12 s) as [|c r] eqn:Hdrop; [now intros [= <-]|].
  rewrite dot_match. destruct (c =? 46)%N eqn:Hc; [|now intros [= <-]].
  apply N.eqb_eq in Hc. subst c.
  destruct (digitsAt 3 r) eqn:Hd3; intros [= <-]; [now apply (H16 r) | exact H12].
Qed.

Lemma matchNistAt_shape s n :
  matchNistAt s = Some n ->
  take n s <> [] /\ forallb (isTagChar true) (take n s) = true.
Proof.
  unfold matchNistAt.
  destruct (startsWithCI s (js "nist.")) eqn:Hpre; [|discriminate].
  destruct (startsWithCI_tagChars (js "nist.") s eq_refl Hpre) as [Hall Hlen].
  change (length (js "nist.")) with 5%nat in Hall, Hlen.
  destruct (spanWhile (isTagChar true) (drop 5 s)) as [body rest] eqn:Hs.
  destruct (spanWhile_spec _ _ _ _ Hs) as [Hd Hb].
  destruct body as [|b body]; [discriminate|]. intros Hn.
  assert (n = (5 + length (b :: body))%nat) as -> by (injection Hn; cbn [length]; lia).
  rewrite (take_plus 5), Hd, take_app_length. split.
  - intros E. apply app_eq_nil in E as [_ E]. discriminate.
  - now rewrite forallb_app, Hall, Hb.
Qed.

Lemma lowerUnit_tagChar c :
  isTagChar true c = true ->
  exists d, lowerUnit c = [d] /\ isTagChar false d = true.
Proof.
  unfold isTagChar, lowerUnit, isLowerAscii, isUpperAscii, isDigit. intros H.
  destruct ((65 <=? c)%N && (c <=? 90)%N) eqn:Hu.
  - eexists. split; [reflexivity|].
    apply andb_true_iff in Hu as [H1 H2]. apply N.leb_le in H1, H2.
    assert ((97 <=? c + 32)%N = true) as -> by (apply N.leb_le; lia).
    assert ((c + 32 <=? 122)%N = true) as -> by (apply N.leb_le; lia).
    reflexivity.
  - cbn [andb] in H. rewrite orb_false_r in H.
    assert (c < 128)%N as Hlt.
    { repeat (apply orb_true_iff in H as [H|H]);
        rewrite ?andb_true_iff, ?N.leb_le, ?N.eqb_eq in H; lia. }
    destruct (c =? 304)%N eqn:E1; [apply N.eqb_eq in E1; lia|].
    destruct (c =? 8490)%N eqn:E2; [apply N.eqb_eq in E2; lia|].
    exists c. split; [reflexivity|]. cbn [andb]. now rewrite orb_false_r.
Qed.

Lemma toLowerCase_tagChars m :
  forallb (isTagChar true) m = true ->
  forallb (isTagChar false) (toLowerCase m) = true /\ length (toLowerCase m) = length m.
Proof.
  induction m as [|c m IH]; [now split|]. cbn [forallb]. intros H.
  apply andb_true_iff in H as [Hc Hm].
  destruct (lowerUnit_tagChar c Hc) as (d & Hd & Ht). destruct (IH Hm) as [Hall Hlen].
  unfold toLowerCase in *. cbn [mbind list_bind]. rewrite Hd. cbn. now rewrite Ht, Hall, Hlen.
Qed.

Lemma extractTagTokens_syntax userMsg t :
  t ∈ extractTagTokens userMsg -> isTagToken t = true.
Proof.
  intros Ht. apply extractTagTokens_elem, list_elem_of_fmap in Ht as (m & -> & Hm).
  assert (m <> [] /\ forallb (isTagChar true) m = true) as [Hne Hall].
  { unfold tagMatches in Hm. apply elem_of_app in Hm as [Hm | Hm];
      apply matchAll_elem in Hm as (suffix & n & Hmatch & ->);
      [now apply matchAttackAt_shape | now apply matchNistAt_shape]. }
  destruct (toLowerCase_tagChars m Hall) as [Hlow Hlen].
  unfold isTagToken. rewrite Hlow, andb_true_r.
  apply negb_true_iff, bool_decide_eq_false. intros E.
  rewrite E in Hlen. destruct m; [contradiction | discriminate].
Qed.

End TagSyntax.

(** X1. A tag filter that survives the guardrails is never empty, and
    each of its tokens has the tag syntax of the plan: lower-case letters,
    digits, dot, underscore and hyphen only, at least one. *)
Theorem guarded_tags_have_tag_syntax :
  forall (env : Env) (planObj : option json) (userMsg : jsstring) (tags : list jsstring),
    tags_exact (filters (planSecurity env planObj userMsg)) = Some tags ->
    tags <> [] /\ Forall (fun t => isTagToken t = true) tags.
Proof.
  intros env planObj userMsg tags. rewrite planSecurity_tags.
  destruct (extractTagTokens userMsg) as [|t ts] eqn:Ht; [discriminate|].
  cbn. intros [= <-]. split; [discriminate|].
  apply Forall_forall. intros x Hx. apply (extractTagTokens_syntax userMsg).
  rewrite Ht. now apply list_elem_of_In.
Qed.

Lemma guarded_tags_have_tag_syntax_witness :
  Forall (fun t => isTagToken t = true) [js "attack.t1611"; js "nist.ac-2"].
Proof.
  apply (guarded_tags_have_tag_syntax (mkEnv None None) None
           (js "MITRE Attack.T1611 and NIST.AC-2 please")).
  vm_compute. reflexivity.
Defined.

(** ** Trimming *)

Section Trimming.

Lemma dropWhile_idem {A} (p : A -> bool) l : dropWhile p (dropWhile p l) = dropWhile p l.
Proof.
  induction l as [|x l IH]; [reflexivity|]. cbn.
  destruct (p x) eqn:Hp; [exact IH|]. cbn. now rewrite Hp.
Qed.

Lemma dropWhile_all {A} (p : A -> bool) ws l :
  forallb p ws = true -> dropWhile p (ws ++ l) = dropWhile p l.
Proof.
  induction ws as [|w ws IH]; [reflexivity|]. cbn. intros H.
  apply andb_true_iff in H as [Hw Hws]. rewrite Hw. now apply IH.
Qed.

Lemma dropWhile_stop {A} (p : A -> bool) c l : p c = false -> dropWhile p (c :: l) = c :: l.
Proof. intros H. cbn. now rewrite H. Qed.

Lemma dropWhile_snoc {A} (p : A -> bool) l c :
  p c = false -> exists l', dropWhile p (l ++ [c]) = l' ++ [c].
Proof.
  intros Hc. induction l as [|x l IH]; cbn.
  - rewrite Hc. now exists [].
  - destruct (p x); [exact IH | now exists (x :: l)].
Qed.

(** A text with no white space at either end is left alone. *)
Lemma trim_fixed c s d :
  isWhiteSpace c = false -> isWhiteSpace d = false -> trim (c :: s ++ [d]) = c :: s ++ [d].
Proof.
  intros Hc Hd. unfold trim, trimEnd, trimStart.
  rewrite (dropWhile_stop _ c) by exact Hc.
  assert (rev (c :: s ++ [d]) = d :: rev (c :: s)) as Hr.
  { change (c :: s ++ [d]) with ((c :: s) ++ [d]). now rewrite rev_app_distr. }
  rewrite Hr, (dropWhile_stop _ d) by exact Hd.
  rewrite <- Hr. now rewrite rev_involutive.
Qed.

Lemma trim_single c : isWhiteSpace c = false -> trim [c] = [c].
Proof. intros Hc. unfold trim, trimEnd, trimStart. cbn. rewrite Hc. cbn. now rewrite Hc. Qed.

Lemma dropWhile_head {A} (p : A -> bool) l x r : dropWhile p l = x :: r -> p x = false.
Proof.
  induction l as [|y l IH]; cbn; [discriminate|].
  destruct (p y) eqn:Hy; [exact IH|]. now intros [= <- <-].
Qed.

Lemma list_last_case {A} (t : list A) : t = [] \/ exists m d, t = m ++ [d].
Proof. destruct t as [|d m _] using rev_ind; [now left | right; eauto]. Qed.

(** What [trim] returns: nothing, or a text that begins and ends with a
    unit that is not white space. *)
Lemma trim_shape s :
  trim s = [] \/
  (exists c, trim s = [c] /\ isWhiteSpace c = false) \/
  (exists c m d, trim s = c :: m ++ [d] /\ isWhiteSpace c = false /\ isWhiteSpace d = false).
Proof.
  unfold trim, trimEnd, trimStart.
  destruct (dropWhile isWhiteSpace s) as [|c a] eqn:Ha; [now left|].
  pose proof (dropWhile_head _ _ _ _ Ha) as Hc.
  right. cbn [rev].
  destruct (dropWhile_snoc isWhiteSpace (rev a) c Hc) as [l' Hl']. rewrite Hl'.
  rewrite rev_app_distr. cbn [rev app].
  destruct (list_last_case (rev l')) as [Hr | (m & d & Hr)]; rewrite Hr.
  - left. now exists c.
  - right. exists c, m, d. split; [reflexivity|]. split; [exact Hc|].
    assert (l' = d :: rev m) as ->.
    { rewrite <- (rev_involutive l'), Hr, rev_app_distr. reflexivity. }
    eapply dropWhile_head, Hl'.
Qed.

Lemma trim_idem s : trim (trim s) = trim s.
Proof.
  destruct (trim_shape s) as [-> | [(c & -> & Hc) | (c & m & d & -> & Hc & Hd)]].
  - reflexivity.
  - now apply trim_single.
  - now apply trim_fixed.
Qed.

(** White space around a text that has none at its ends is removed and
    nothing else. *)
Lemma trim_padding ws1 ws2 s :
  forallb isWhiteSpace ws1 = true -> forallb isWhiteSpace ws2 = true ->
  trim s = s -> trim (ws1 ++ s ++ ws2) = s.
Proof.
  intros H1 H2 Hs.
  assert (forall t, trimEnd (t ++ ws2) = trimEnd t) as He.
  { intros t. unfold trimEnd, trimStart. rewrite rev_app_distr.
    rewrite dropWhile_all; [reflexivity|].
    rewrite forallb_forall in H2 |- *. intros x Hx. apply H2. now apply in_rev. }
  destruct (trim_shape s) as [E | [(c & E & Hc) | (c & m & d & E & Hc & Hd)]];
    rewrite Hs in E; subst s; unfold trim at 1; unfold trimStart.
  - rewrite dropWhile_all by exact H1. cbn [app].
    rewrite <- (app_nil_r ws2), dropWhile_all by exact H2. reflexivity.
  - rewrite dropWhile_all by exact H1. cbn [app]. rewrite dropWhile_stop by exact Hc.
    change (c :: ws2) with ([c] ++ ws2). rewrite He.
    unfold trimEnd, trimStart. cbn. now rewrite Hc.
  - rewrite dropWhile_all by exact H1.
    change ((c :: m ++ [d]) ++ ws2) with (c :: (m ++ [d]) ++ ws2).
    rewrite dropWhile_stop by exact Hc.
    change (c :: (m ++ [d]) ++ ws2) with ((c :: m ++ [d]) ++ ws2). rewrite He.
    pose proof (trim_fixed c m d Hc Hd) as Hf. unfold trim, trimStart in Hf.
    rewrite dropWhile_stop in Hf by exact Hc. exact Hf.
Qed.

End Trimming.

(** ** Configuration and credentials *)

Section Configuration.

Lemma startsWith_refl p : startsWith p p = true.
Proof. induction p as [|c p IH]; [reflexivity|]. cbn. now rewrite N.eqb_refl. Qed.

Lemma startsWith_nil s : startsWith s [] = true.
Proof. now destruct s. Qed.

Lemma startsWith_app s t p : startsWith s p = true -> startsWith (s ++ t) p = true.
Proof.
  revert s. induction p as [|c p IH]; intros s; [intros _; apply startsWith_nil|].
  destruct s as [|x s]; [discriminate|]. cbn. intros H.
  apply andb_true_iff in H as [Hx Hs]. now rewrite Hx, IH.
Qed.




Lemma includes_middle a p b : includes (a ++ p ++ b) p = true.
Proof.
  induction a as [|x a IH].
  - cbn [app]. destruct (p ++ b) eqn:E; cbn [includes];
      rewrite <- E, (startsWith_app p b p (startsWith_refl p)); reflexivity.
  - cbn [app includes]. rewrite IH. apply orb_true_r.
Qed.





Lemma quote_not_space q : q = dquote \/ q = 39%N -> isWhiteSpace q = false.
Proof. intros [-> | ->]; reflexivity. Qed.

End Configuration.

(** X2. [stripQuotes] undoes one level of quoting: a text between two
    double quotes or two single quotes, with any white space around the
    quotes, comes back as it was; a text whose trimmed form does not begin
    with a quote is only trimmed. *)
Theorem stripQuotes_unquotes :
  forall (q : N) (ws1 ws2 s : jsstring),
    q = dquote \/ q = 39%N ->
    forallb isWhiteSpace ws1 = true -> forallb isWhiteSpace ws2 = true ->
    stripQuotes (ws1 ++ (q :: s ++ [q]) ++ ws2) = s /\
    (forall v, startsWith (trim v) [dquote] = false ->
               startsWith (trim v) (js "'") = false -> stripQuotes v = trim v).
Proof.
  intros q ws1 ws2 s Hq H1 H2. split.
  - unfold stripQuotes.
    pose proof (quote_not_space q Hq) as Hsp.
    rewrite (trim_padding ws1 ws2 (q :: s ++ [q]) H1 H2 (trim_fixed q s q Hsp Hsp)).
    assert (rev (q :: s ++ [q]) = q :: rev (q :: s)) as Hr.
    { change (q :: s ++ [q]) with ((q :: s) ++ [q]). now rewrite rev_app_distr. }
    assert ((startsWith (q :: s ++ [q]) [dquote] && endsWith (q :: s ++ [q]) [dquote]
             || startsWith (q :: s ++ [q]) (js "'") && endsWith (q :: s ++ [q]) (js "'"))
            = true) as ->.
    { assert (forall X, startsWith (q :: X) [q] = true) as Hst
        by (intros X; cbn; now rewrite N.eqb_refl, startsWith_nil).
      unfold endsWith. rewrite Hr.
      destruct Hq as [-> | ->].
      - change (rev [dquote]) with [dquote]. now rewrite !Hst.
      - change (rev (js "'")) with [39%N]. change (js "'") with [39%N].
        rewrite !Hst. apply orb_true_r. }
    cbn [drop length]. rewrite length_app. cbn [length].
    replace (S (length s + 1) - 2)%nat with (length s) by lia.
    apply take_app_length.
  - intros v Hd Hs. unfold stripQuotes. now rewrite Hd, Hs.
Qed.

Lemma stripQuotes_unquotes_witness :
  stripQuotes (js "  " ++ (dquote :: js "s3cr3t token" ++ [dquote]) ++ js " ") = js "s3cr3t token".
Proof.
  apply (stripQuotes_unquotes dquote (js "  ") (js " ") (js "s3cr3t token"));
    [now left | reflexivity | reflexivity].
Defined.



Section Credentials.

Lemma startsWithCI_app s t p : startsWithCI s p = true -> startsWithCI (s ++ t) p = true.
Proof.
  revert s. induction p as [|c p IH]; intros s; [intros _; now destruct (s ++ t)|].
  destruct s as [|x s]; [discriminate|]. cbn. intros H.
  apply andb_true_iff in H as [Hx Hs]. now rewrite Hx, IH.
Qed.

Lemma trim_trimStart s : trim (trimStart s) = trim s.
Proof. unfold trim, trimStart. now rewrite dropWhile_idem. Qed.

Lemma extractBearerToken_bearer scheme ws t alt :
  startsWithCI scheme (js "bearer") = true -> length scheme = 6%nat ->
  ws <> [] -> forallb isWhiteSpace ws = true -> trim t = t ->
  extractBearerToken (Some (scheme ++ ws ++ t)) alt = t.
Proof.
  intros Hs Hl Hws Hall Ht. unfold extractBearerToken.
  assert (firstSet (Some (scheme ++ ws ++ t)) None = scheme ++ ws ++ t) as ->.
  { destruct scheme; [discriminate | reflexivity]. }
  assert (drop 6 (scheme ++ ws ++ t) = ws ++ t) as Hd.
  { rewrite <- Hl. apply drop_app_length. }
  unfold hasBearerPrefix. rewrite (startsWithCI_app _ _ _ Hs), Hd.
  destruct ws as [|w ws]; [contradiction|]. cbn [app forallb] in *.
  apply andb_true_iff in Hall as [Hw Hall]. rewrite Hw. cbn [andb].
  change (w :: ws ++ t) with ((w :: ws) ++ t).
  rewrite dropWhile_all by (cbn; now rewrite Hw, Hall).
  change (dropWhile isWhiteSpace t) with (trimStart t).
  now rewrite trim_trimStart.
Qed.

End Credentials.

(** X5. The access check. Without a configured token, or with one that
    is blank, every request passes. With a token configured, a request
    passes exactly when the credential read from its headers equals the
    trimmed token, so a request without credentials never passes; and when
    the [Authorization] header has the bearer form, the [x-app-token]
    header is not looked at. *)
Theorem requireAuthIfConfigured_spec :
  forall (token authorization x_app_token : option jsstring),
    let required := getRequiredAppToken token in
    (required = [] -> requireAuthIfConfigured token authorization x_app_token = true) /\
    (required <> [] ->
       (requireAuthIfConfigured token authorization x_app_token = true <->
        extractBearerToken authorization x_app_token = required) /\
       requireAuthIfConfigured token None None = false) /\
    (forall auth, hasBearerPrefix auth = true ->
       extractBearerToken (Some auth) x_app_token = extractBearerToken (Some auth) None).
Proof.
  intros token authorization x_app_token required.
  unfold requireAuthIfConfigured. fold required. split; [|split].
  - now intros ->.
  - intros Hne. destruct required as [|c r] eqn:Hr; [contradiction|]. split.
    + unfold streq. set (got := extractBearerToken authorization x_app_token).
      destruct (decide (got = [])) as [He|He];
        [rewrite (bool_decide_eq_true_2 _ He) | rewrite (bool_decide_eq_false_2 _ He)];
        (destruct (decide (got = c :: r)) as [Hq|Hq];
         [rewrite (bool_decide_eq_true_2 _ Hq) | rewrite (bool_decide_eq_false_2 _ Hq)]);
        cbn; split; intros Hx; try discriminate; try reflexivity; congruence.
    + reflexivity.
  - intros auth Hb. unfold extractBearerToken.
    assert (firstSet (Some auth) None = auth) as ->.
    { destruct auth; [discriminate | reflexivity]. }
    now rewrite Hb.
Qed.

Lemma requireAuthIfConfigured_spec_witness :
  requireAuthIfConfigured (Some (js " s3cret ")) (Some (js "Bearer s3cret")) None = true.
Proof.
  destruct (requireAuthIfConfigured_spec (Some (js " s3cret ")) (Some (js "Bearer s3cret")) None)
    as (_ & Hcheck & _).
  apply Hcheck; [discriminate | vm_compute; reflexivity].
Defined.

(** X6. A bearer credential is read back whatever the case of the scheme
    word and however much white space follows it: from a header made of
    the word [bearer] in any mix of cases, at least one white-space unit
    and a token without white space at its ends, the token is extracted;
    the request then passes exactly when the token is the configured
    one. *)
Theorem bearer_token_roundtrip :
  forall (scheme ws t : jsstring) (token alt : option jsstring),
    startsWithCI scheme (js "bearer") = true -> length scheme = 6%nat ->
    ws <> [] -> forallb isWhiteSpace ws = true ->
    trim t = t -> t <> [] ->
    extractBearerToken (Some (scheme ++ ws ++ t)) alt = t /\
    (getRequiredAppToken token <> [] ->
     requireAuthIfConfigured token (Some (scheme ++ ws ++ t)) alt
       = bool_decide (t = getRequiredAppToken token)).
Proof.
  intros scheme ws t token alt Hs Hl Hws Hall Ht Hne.
  pose proof (extractBearerToken_bearer scheme ws t alt Hs Hl Hws Hall Ht) as He.
  split; [exact He|].
  intros Hreq. unfold requireAuthIfConfigured. rewrite He.
  destruct (getRequiredAppToken token) as [|c r] eqn:Hr; [contradiction|].
  unfold streq. rewrite (bool_decide_eq_false_2 (t = [])) by exact Hne. cbn [orb].
  now case_bool_decide.
Qed.

Lemma bearer_token_roundtrip_witness :
  extractBearerToken (Some (js "BeArEr" ++ js "   " ++ js "tok-123")) (Some (js "other"))
  = js "tok-123".
Proof.
  refine (proj1 (bearer_token_roundtrip (js "BeArEr") (js "   ") (js "tok-123") None
                   (Some (js "other")) _ _ _ _ _ _));
    (reflexivity || discriminate).
Defined.

(** X7. [applyNoThinkIfNeeded] keeps the number, the order and the roles
    of the messages; it changes at most the last message, and that only
    when thinking is disabled and the last message is a user message,
    whose content then gets the [/no_think] line in front. *)
Theorem applyNoThinkIfNeeded_spec :
  forall (messages : list Message) (disableThinking : bool),
    let out := applyNoThinkIfNeeded messages disableThinking in
    length out = length messages /\
    role <$> out = role <$> messages /\
    (forall i m, messages !! i = Some m ->
       out !! i = Some (if disableThinking && bool_decide (S i = length messages)
                           && bool_decide (role m = role_user)
                        then mkMessage role_user (js "/no_think" ++ newline ++ content m)
                        else m)).
Proof.
  intros messages disableThinking out. subst out. unfold applyNoThinkIfNeeded.
  destruct disableThinking; cbn [negb andb].
  - split; [apply length_imap|]. split.
    + apply list_eq. intros i. rewrite !list_lookup_fmap, list_lookup_imap.
      destruct (messages !! i) as [m|]; [|reflexivity]. cbn. now case_match.
    + intros i m Hm. rewrite list_lookup_imap, Hm. cbn. f_equal.
      apply lookup_lt_Some in Hm.
      destruct (bool_decide (role m = role_user)) eqn:Hu.
      * apply bool_decide_eq_true in Hu. rewrite Hu, !andb_true_r.
        repeat case_bool_decide; try reflexivity; lia.
      * now rewrite !andb_false_r.
  - split; [reflexivity|]. split; [reflexivity|]. intros i m Hm. now rewrite Hm.
Qed.

Lemma applyNoThinkIfNeeded_spec_witness :
  applyNoThinkIfNeeded [mkMessage role_system (js "rules"); mkMessage role_user (js "hi")] true
    !! 1%nat
  = Some (mkMessage role_user (js "/no_think" ++ newline ++ js "hi")).
Proof.
  destruct (applyNoThinkIfNeeded_spec
              [mkMessage role_system (js "rules"); mkMessage role_user (js "hi")] true)
    as (_ & _ & Hlast).
  exact (Hlast 1%nat (mkMessage role_user (js "hi")) eq_refl).
Defined.

Section Fallback.



End Fallback.



(** ** Reading the model's answers *)

Section LooseJson.

Lemma indexOf_first c pre rest :
  c ∉ pre -> indexOf c (pre ++ c :: rest) = Some (length pre).
Proof.
  induction pre as [|x pre IH]; intros Hn; cbn.
  - now rewrite N.eqb_refl.
  - apply not_elem_of_cons in Hn as [Hx Hn].
    destruct (N.eqb_spec x c) as [->|_]; [contradiction|]. now rewrite IH.
Qed.

Lemma indexOf_none c s : c ∉ s -> indexOf c s = None.
Proof.
  induction s as [|x s IH]; intros Hn; cbn; [reflexivity|].
  apply not_elem_of_cons in Hn as [Hx Hn].
  destruct (N.eqb_spec x c) as [->|_]; [contradiction|]. now rewrite IH.
Qed.

Lemma lastIndexOf_last c front post :
  c ∉ post -> lastIndexOf c (front ++ c :: post) = Some (length front).
Proof.
  intros Hn. unfold lastIndexOf.
  rewrite rev_app_distr. cbn [rev]. rewrite <- app_assoc. cbn [app].
  rewrite indexOf_first
    by (intros Hin; apply Hn, list_elem_of_In, in_rev, list_elem_of_In, Hin).
  cbn. f_equal. rewrite length_app, length_rev. cbn [length]. lia.
Qed.

Lemma lastIndexOf_none c s : c ∉ s -> lastIndexOf c s = None.
Proof.
  intros Hn. unfold lastIndexOf. rewrite indexOf_none; [reflexivity|].
  intros Hin. apply Hn. apply list_elem_of_In. apply in_rev. now apply list_elem_of_In.
Qed.

End LooseJson.

(** X9. The plan is read from the model's answer whatever prose surrounds
    it: when the text before the first opening brace has no opening brace
    and the text after the last closing brace has no closing brace, what is
    decoded is exactly the text from the one brace to the other. A text
    without an opening brace, or without a closing one, gives no plan, and
    the decoder is not called on it. *)
Theorem extractJsonObjectLoose_spec :
  forall (JSON_parse : jsstring -> option json) (pre body post : jsstring),
    lbrace ∉ pre -> rbrace ∉ post ->
    extractJsonObjectLoose JSON_parse (pre ++ lbrace :: body ++ rbrace :: post)
      = JSON_parse (lbrace :: body ++ [rbrace]) /\
    extractJsonObjectLoose JSON_parse pre = None /\
    extractJsonObjectLoose JSON_parse post = None.
Proof.
  intros JSON_parse pre body post Hpre Hpost. unfold extractJsonObjectLoose. split; [|split].
  - rewrite indexOf_first by exact Hpre.
    replace (pre ++ lbrace :: body ++ rbrace :: post)
      with ((pre ++ lbrace :: body) ++ rbrace :: post) by now rewrite <- app_assoc.
    rewrite lastIndexOf_last by exact Hpost.
    rewrite length_app. cbn [length].
    destruct (Nat.leb_spec (length pre + S (length body)) (length pre)) as [Hle|_]; [lia|].
    f_equal. unfold slice. rewrite <- app_assoc. rewrite drop_app_length.
    replace (length pre + S (length body) + 1 - length pre)%nat
      with (length (lbrace :: body ++ [rbrace])) by (cbn; rewrite length_app; cbn; lia).
    change (lbrace :: body ++ rbrace :: post) with ((lbrace :: body) ++ rbrace :: post).
    replace ((lbrace :: body) ++ rbrace :: post) with ((lbrace :: body ++ [rbrace]) ++ post)
      by (cbn; now rewrite <- app_assoc).
    apply take_app_length.
  - now rewrite indexOf_none.
  - rewrite (lastIndexOf_none rbrace post Hpost). now destruct (indexOf lbrace post).
Qed.

Lemma extractJsonObjectLoose_spec_witness :
  extractJsonObjectLoose (fun s => Some (JStr s))
    (js "Here is the plan: " ++ lbrace :: js "a:{}" ++ rbrace :: js " Done.")
  = Some (JStr (lbrace :: js "a:{}" ++ [rbrace])).
Proof.
  refine (proj1 (extractJsonObjectLoose_spec (fun s => Some (JStr s))
                   (js "Here is the plan: ") (js "a:{}") (js " Done.") _ _));
    vm_compute; intros H; repeat (apply elem_of_cons in H as [H|H]; [discriminate|]);
    inversion H.
Defined.

(** ** Rows of a backend result *)

Section ResultRows.

Lemma setOwn_fresh k v own :
  hasOwnKey k own = false -> arrayIndex k = None -> setOwn k v own = own ++ [(k, v)].
Proof.
  intros Hk Hi. induction own as [|[k' v'] own IH]; [reflexivity|].
  cbn in Hk. apply orb_false_iff in Hk as [Hk' Hk].
  cbn [setOwn app]. cbn in Hk'. rewrite Hk', Hi. now rewrite IH.
Qed.

Lemma hasOwnKey_app k own more :
  hasOwnKey k (own ++ more) = hasOwnKey k own || hasOwnKey k more.
Proof. unfold hasOwnKey. apply existsb_app. Qed.

Lemma assign_plain obj n v :
  plainName n -> hasOwnKey n (row_own obj) = false ->
  assign obj n v = mkResultRow (row_own obj ++ [(n, v)]) (row_proto obj).
Proof.
  intros [Hp Hi] Hk. unfold assign, streq.
  rewrite (bool_decide_eq_false_2 _ Hp). cbn [negb]. now rewrite setOwn_fresh.
Qed.

Lemma zipFrom_aligned names : forall i row own proto,
  NoDup names -> Forall plainName names ->
  Forall (fun n => hasOwnKey n own = false) names ->
  zipFrom i (JStr <$> names) row (mkResultRow own proto)
  = mkResultRow (own ++ imap (fun j n => (n, cellAt row (i + j))) names) proto.
Proof.
  induction names as [|n names IH]; intros i row own proto Hnd Hpl Hfresh.
  - cbn. now rewrite app_nil_r.
  - apply list.NoDup_cons in Hnd as [Hn Hnd].
    apply list.Forall_cons in Hpl as [Hp Hpl].
    apply list.Forall_cons in Hfresh as [Hf Hfresh].
    cbn [fmap list_fmap zipFrom]. fold (cellAt row i).
    rewrite assign_plain by assumption. cbn [row_own row_proto].
    change (list_fmap jsstring json JStr names) with (JStr <$> names).
    rewrite IH; [| assumption | assumption |].
    + rewrite <- app_assoc. cbn [app imap]. rewrite Nat.add_0_r. do 3 f_equal.
      apply imap_ext. intros j x _. cbn. f_equal. f_equal. lia.
    + clear IH. induction names as [|m names IHn]; [constructor|].
      apply list.Forall_cons in Hfresh as [Hm Hfresh].
      apply list.Forall_cons in Hpl as [_ Hpl].
      apply list.NoDup_cons in Hnd as [_ Hnd].
      constructor.
      * rewrite hasOwnKey_app, Hm. cbn. unfold streq.
        rewrite bool_decide_eq_false_2; [reflexivity|].
        intros ->. apply Hn. constructor.
      * apply IHn; try assumption. intros Hin. apply Hn. now constructor.
Qed.

End ResultRows.

(** X10. The columnar shape of a backend result. When the result gives
    [rows] and [fields] as arrays (and no [results] array, at the top or
    under [structuredContent], takes precedence), every element of [rows]
    becomes one row, in order, and with distinct field names that are
    neither array indices nor [__proto__] the row has exactly the named
    properties, in the order of [fields], the i-th holding the i-th cell;
    a row shorter than [fields], or one that is no array, leaves the
    remaining properties [undefined]. *)
Theorem extractResultsFromMcpResult_columnar :
  forall (JSON_parse : jsstring -> option json) (r : option json)
         (rows : list json) (names : list jsstring),
    asArray (get (get r "structuredContent") "results") = None ->
    asArray (get (get r "structuredContent") "data") = None ->
    asArray (get r "results") = None ->
    asArray (get r "rows") = Some rows ->
    asArray (get r "fields") = Some (JStr <$> names) ->
    NoDup names -> Forall plainName names ->
    extractResultsFromMcpResult JSON_parse r
    = (fun row => mkResultRow (imap (fun i n => (n, cellAt row i)) names) proto_Object)
        <$> rows.
Proof.
  intros JSON_parse r rows names Hsr Hsd Hres Hrows Hfields Hnd Hpl.
  assert (exists fs, r = Some (JObj fs)) as [fs ->].
  { destruct r as [[]|]; try discriminate. now eexists. }
  unfold extractResultsFromMcpResult.
  change (truthy (Some (JObj fs))) with true.
  change (isObject (Some (JObj fs))) with true. cbn [negb].
  rewrite Hsr, Hsd, Hres, Hrows, Hfields. cbn [fmap option_fmap option_map orElse].
  replace (if truthy (get (Some (JObj fs)) "structuredContent")
              && isObject (get (Some (JObj fs)) "structuredContent")
           then @None (list ResultRow) else None) with (@None (list ResultRow))
    by now destruct (_ && _).
  cbn [orElse default]. apply list_fmap_ext. intros _ row _.
  unfold zipRow. rewrite zipFrom_aligned; try assumption; [reflexivity|].
  apply Forall_forall. now intros.
Qed.

Lemma extractResultsFromMcpResult_columnar_witness :
  extractResultsFromMcpResult (fun _ => None)
    (Some (JObj [(js "fields", JArr [JStr (js "Severity"); JStr (js "count")]);
                 (js "rows", JArr [JArr [JStr (js "high"); JNum (Fin 3 0)];
                                   JArr [JStr (js "low")];
                                   JNull])]))
  = [mkResultRow [(js "Severity", Some (JStr (js "high"))); (js "count", Some (JNum (Fin 3 0)))]
       proto_Object;
     mkResultRow [(js "Severity", Some (JStr (js "low"))); (js "count", None)] proto_Object;
     mkResultRow [(js "Severity", None); (js "count", None)] proto_Object].
Proof.
  apply (extractResultsFromMcpResult_columnar (fun _ => None)
           (Some (JObj [(js "fields", JArr [JStr (js "Severity"); JStr (js "count")]);
                        (js "rows", JArr [JArr [JStr (js "high"); JNum (Fin 3 0)];
                                          JArr [JStr (js "low")];
                                          JNull])]))
           [JArr [JStr (js "high"); JNum (Fin 3 0)]; JArr [JStr (js "low")]; JNull]
           [js "Severity"; js "count"]);
    try reflexivity.
  - apply list.NoDup_cons. split; [|apply list.NoDup_cons; split; [|constructor]].
    + intros H. apply list_elem_of_singleton in H. discriminate.
    + intros H. inversion H.
  - repeat constructor; discriminate.
Defined.

(** ** The streamed answer *)

Section StreamFrames.

Lemma attach_attach p q scan : attach p (attach q scan) = attach (p ++ q) scan.
Proof. destruct scan as [[|f fs] rest]; cbn; now rewrite app_assoc. Qed.

Lemma takeFrames_cons2 cur x y r' :
  takeFrames cur (x :: y :: r') =
  if (x =? 10)%N && (y =? 10)%N
  then let '(fs, rest) := takeFrames [] r' in (rev cur :: fs, rest)
  else takeFrames (x :: cur) (y :: r').
Proof. reflexivity. Qed.

Lemma takeFrames_cur s : forall cur, takeFrames cur s = attach (rev cur) (takeFrames [] s).
Proof.
  induction s as [|x s IH]; intros cur.
  - cbn. now rewrite app_nil_r.
  - destruct s as [|y r'].
    + cbn. reflexivity.
    + rewrite !takeFrames_cons2.
      destruct ((x =? 10)%N && (y =? 10)%N) eqn:Hnl.
      * destruct (takeFrames [] r') as [fs rest]. cbn. now rewrite app_nil_r.
      * rewrite (IH (x :: cur)), (IH [x]), attach_attach. reflexivity.
Qed.

Lemma takeFrames_no_frame0 s : forall rest,
  takeFrames [] s = ([], rest) -> rest = s.
Proof.
  induction s as [|x s IH]; intros rest.
  - cbn. now intros [= <-].
  - destruct s as [|y r'].
    + cbn. now intros [= <-].
    + rewrite takeFrames_cons2.
      destruct ((x =? 10)%N && (y =? 10)%N) eqn:Hnl.
      * destruct (takeFrames [] r') as [fs rest']. discriminate.
      * rewrite takeFrames_cur.
        destruct (takeFrames [] (y :: r')) as [[|f fs] rest'] eqn:Hscan; cbn; [|discriminate].
        intros [= <-]. f_equal. now apply IH.
Qed.

Lemma takeFrames_no_frame s cur rest :
  takeFrames cur s = ([], rest) -> rest = rev cur ++ s.
Proof.
  rewrite takeFrames_cur.
  destruct (takeFrames [] s) as [[|f fs] rest'] eqn:Hscan; cbn; [|discriminate].
  intros [= <-]. f_equal. now apply takeFrames_no_frame0.
Qed.

Lemma takeFrames_app_step x y a' b :
  (x =? 10)%N && (y =? 10)%N = false ->
  takeFrames [] (x :: y :: a' ++ b) = attach [x] (takeFrames [] (y :: a' ++ b)).
Proof.
  intros Hnl. rewrite takeFrames_cons2, Hnl. now rewrite takeFrames_cur.
Qed.

Lemma takeFrames_app_len n : forall a b, (length a <= n)%nat ->
  takeFrames [] (a ++ b) =
  let '(fa, ra) := takeFrames [] a in
  let '(fb, rb) := takeFrames [] (ra ++ b) in (fa ++ fb, rb).
Proof.
  induction n as [|n IH]; intros a b Hlen.
  - destruct a; [|cbn in Hlen; lia]. cbn. now destruct (takeFrames [] b).
  - destruct a as [|x [|y a']].
    + cbn. now destruct (takeFrames [] b).
    + change (takeFrames [] [x]) with (@nil jsstring, [x]).
      change ([x] ++ b) with (x :: b). cbv beta iota.
      change ([x] ++ b) with (x :: b).
      now destruct (takeFrames [] (x :: b)).
    + cbn [length] in Hlen.
      destruct ((x =? 10)%N && (y =? 10)%N) eqn:Hnl.
      * change ((x :: y :: a') ++ b) with (x :: y :: a' ++ b).
        rewrite !takeFrames_cons2, Hnl.
        rewrite (IH a' b) by lia.
        destruct (takeFrames [] a') as [fa ra].
        now destruct (takeFrames [] (ra ++ b)) as [fb rb].
      * change ((x :: y :: a') ++ b) with (x :: y :: a' ++ b).
        rewrite (takeFrames_app_step x y a' b Hnl).
        change (y :: a' ++ b) with ((y :: a') ++ b).
        rewrite (IH (y :: a') b) by (cbn [length]; lia).
        pose proof (takeFrames_app_step x y a' [] Hnl) as Ha.
        rewrite !app_nil_r in Ha. rewrite Ha.
        destruct (takeFrames [] (y :: a')) as [[|f fs] ra1] eqn:Hscan.
        -- apply takeFrames_no_frame in Hscan. cbn in Hscan. subst ra1.
           cbn [attach app].
           rewrite (takeFrames_app_step x y a' b Hnl).
           now destruct (takeFrames [] (y :: a' ++ b)) as [[|g gs] rb].
        -- cbn [attach app].
           now destruct (takeFrames [] (ra1 ++ b)) as [fb rb].
Qed.

Lemma takeFrames_app a b :
  takeFrames [] (a ++ b) =
  let '(fa, ra) := takeFrames [] a in
  let '(fb, rb) := takeFrames [] (ra ++ b) in (fa ++ fb, rb).
Proof. now apply (takeFrames_app_len (length a)). Qed.

Lemma takeFrames_rest s fs rest :
  takeFrames [] s = (fs, rest) -> takeFrames [] rest = ([], rest).
Proof.
  intros Hs. pose proof (takeFrames_app s []) as Happ.
  rewrite app_nil_r, Hs in Happ. rewrite app_nil_r in Happ.
  destruct (takeFrames [] rest) as [fb rb]. injection Happ as Hf Hr.
  f_equal; [|congruence].
  apply (f_equal length) in Hf. rewrite length_app in Hf.
  destruct fb; [reflexivity | cbn in Hf; lia].
Qed.

Lemma streamYields_frames JSON_parse pieces : forall buf,
  (takeFrames [] buf).1 = [] ->
  streamYields JSON_parse buf pieces
  = framesOf (buf ++ concat pieces) ≫= frameYields JSON_parse.
Proof.
  unfold framesOf.
  induction pieces as [|value rest IH]; intros buf Hbuf.
  - cbn. rewrite app_nil_r, Hbuf. reflexivity.
  - cbn [streamYields concat]. rewrite app_assoc, (takeFrames_app (buf ++ value)).
    destruct (takeFrames [] (buf ++ value)) as [frames buf'] eqn:Hscan.
    rewrite IH by (now rewrite (takeFrames_rest _ _ _ Hscan)).
    destruct (takeFrames [] (buf' ++ concat rest)) as [fb rb]. cbn [fst].
    now rewrite bind_app.
Qed.

Lemma framesOf_no_blank_line s :
  includes s [10%N; 10%N] = false -> framesOf s = [].
Proof.
  unfold framesOf. induction s as [|x s IH]; [reflexivity|].
  destruct s as [|y r']; [reflexivity|].
  intros Hinc.
  change (includes (x :: y :: r') [10%N; 10%N])
    with (startsWith (x :: y :: r') [10%N; 10%N] || includes (y :: r') [10%N; 10%N]) in Hinc.
  apply orb_false_iff in Hinc as [Hst Hinc].
  rewrite takeFrames_cons2.
  assert ((x =? 10)%N && (y =? 10)%N = false) as ->.
  { cbn [startsWith] in Hst. rewrite startsWith_nil, andb_true_r in Hst.
    now rewrite (N.eqb_sym x 10), (N.eqb_sym y 10). }
  rewrite takeFrames_cur. specialize (IH Hinc).
  destruct (takeFrames [] (y :: r')) as [fs rest]. cbn in IH. now subst fs.
Qed.

End StreamFrames.

(** X11. What the streamed answer yields does not depend on how the
    transport cut the body into pieces: it is what the frames of the whole
    body yield, frame by frame, so two deliveries of the same body yield
    the same texts. A body in which no empty line occurs yields nothing:
    a frame is read only once the empty line that ends it has arrived. *)
Theorem streamYields_chunk_invariant :
  forall (JSON_parse : jsstring -> option json) (pieces : list jsstring),
    streamYields JSON_parse [] pieces
      = framesOf (concat pieces) ≫= frameYields JSON_parse /\
    (forall pieces', concat pieces' = concat pieces ->
       streamYields JSON_parse [] pieces' = streamYields JSON_parse [] pieces) /\
    (includes (concat pieces) [10%N; 10%N] = false ->
       streamYields JSON_parse [] pieces = []).
Proof.
  intros JSON_parse pieces.
  assert (forall ps, streamYields JSON_parse [] ps
                     = framesOf (concat ps) ≫= frameYields JSON_parse) as Hall.
  { intros ps. now rewrite streamYields_frames. }
  split; [apply Hall|]. split.
  - intros pieces' Heq. now rewrite !Hall, Heq.
  - intros Hinc. now rewrite Hall, framesOf_no_blank_line.
Qed.

Lemma streamYields_chunk_invariant_witness :
  streamYields (fun _ => None) [] [js "data: {}"; [10%N]; [10%N]; js "data"]
  = streamYields (fun _ => None) [] [js "data: {}" ++ [10%N; 10%N] ++ js "data"].
Proof.
  destruct (streamYields_chunk_invariant (fun _ => None)
              [js "data: {}" ++ [10%N; 10%N] ++ js "data"]) as (_ & Hsame & _).
  apply Hsame. reflexivity.
Defined.

(** ** The event stream *)

Section EventStream.

Variable sv : Services.

Lemma planningSecurity_plan env userMsg :
  (planningSecurity sv env userMsg).2 = planSecurity env (plannerAnswer sv) userMsg.
Proof.
  unfold planningSecurity, planSecurity, plannerAnswer.
  destruct (callQwenNonStream _ _ _) as [raw|e]; cbn; [|reflexivity].
  destruct (truthy (extractJsonObjectLoose (JSON_parse sv) raw)); [|reflexivity].
  now destruct (normalizePlan env _ userMsg).
Qed.

Lemma planningObservability_plan userMsg :
  (planningObservability sv userMsg).2 = planObservability (plannerAnswer sv) userMsg.
Proof.
  unfold planningObservability, planObservability, plannerAnswer.
  destruct (callQwenNonStream _ _ _) as [raw|e]; cbn; [|reflexivity].
  now destruct (truthy (extractJsonObjectLoose (JSON_parse sv) raw)).
Qed.

Lemma fallbackMarkdown_text lang panels : fallbackMarkdown lang panels <> [].
Proof.
  unfold fallbackMarkdown.
  destruct (decide (lang = zh)); destruct (List.find isSingle panels ≫= singleValue);
    discriminate.
Qed.

Lemma explainEvents_shape lang panels :
  exists init t,
    explainEvents sv lang panels = init ++ [t] /\
    Forall (fun e => isTerminal e = false) init /\
    Forall deltaHasText init /\
    panelsOf init = [] /\
    (exists ok err, t = event_done ok err).
Proof.
  unfold explainEvents.
  destruct (callQwenStream _ _ _) as [deltas failure].
  assert (Forall (fun e => isTerminal e = false)
            (event_delta <$> filter (fun d => d <> []) deltas)) as Hnt.
  { apply Forall_fmap, Forall_true. intros; reflexivity. }
  assert (Forall deltaHasText (event_delta <$> filter (fun d => d <> []) deltas)) as Hd.
  { apply Forall_fmap. apply list.Forall_forall. intros d Hin.
    now apply list_elem_of_filter in Hin as [Hne _]. }
  assert (panelsOf (event_delta <$> filter (fun d => d <> []) deltas) = []) as Hp.
  { unfold panelsOf. generalize (filter (fun d => d <> []) deltas) as l.
    induction l as [|d l IH]; [reflexivity | exact IH]. }
  destruct failure as [e|].
  - eexists (_ ++ [event_delta _]), _. split; [now rewrite <- app_assoc|].
    split; [apply Forall_app; split; [exact Hnt | repeat constructor]|].
    split; [apply Forall_app; split; [exact Hd|]|].
    { constructor; [apply fallbackMarkdown_text | constructor]. }
    split; [|eauto]. unfold panelsOf in *. rewrite omap_app, Hp. reflexivity.
  - eexists _, _. split; [reflexivity|]. repeat split; eauto.
Qed.

Lemma panelsOf_app a b : panelsOf (a ++ b) = panelsOf a ++ panelsOf b.
Proof. apply omap_app. Qed.

Lemma panelsOf_panels ps : panelsOf (event_panel <$> ps) = ps.
Proof. unfold panelsOf. induction ps as [|p ps IH]; cbn; [reflexivity | now rewrite IH]. Qed.

Lemma warningEvents_shape warning :
  Forall (fun e => isTerminal e = false) (warningEvents warning) /\
  Forall deltaHasText (warningEvents warning) /\
  panelsOf (warningEvents warning) = [].
Proof. destruct warning; cbn; repeat constructor. Qed.

Lemma panel_events_shape ps :
  Forall (fun e => isTerminal e = false) (event_panel <$> ps) /\
  Forall deltaHasText (event_panel <$> ps).
Proof. split; apply Forall_fmap, Forall_true; intros; exact I || reflexivity. Qed.

End EventStream.

(** X12. The plan a stream announces is the plan resolved from the
    planner's answer, in both workspaces; a planner call that raises does
    not stop the run: its message becomes the planning warning and the plan
    is the guarded default plan, or the fallback plan put through the
    intent override. *)
Theorem planning_resolves_plan :
  forall (sv : Services) (env : Env) (userMsg : jsstring),
    (planningSecurity sv env userMsg).2 = planSecurity env (plannerAnswer sv) userMsg /\
    (planningObservability sv userMsg).2 = planObservability (plannerAnswer sv) userMsg /\
    (forall e,
       callQwenNonStream (JSON_parse sv) (qwenEnv sv) (plannerOutcome sv) = Throw e ->
       planningSecurity sv env userMsg
         = (Some (getErrorMessage sv e), ensureGuardrails (defaultPlan env userMsg) userMsg) /\
       planningObservability sv userMsg
         = (Some (getErrorMessage sv e),
            enforceObservabilityIntent (fallbackObservabilityPlan userMsg) userMsg)).
Proof.
  intros sv env userMsg. split; [apply planningSecurity_plan|].
  split; [apply planningObservability_plan|].
  intros e He. unfold planningSecurity, planningObservability. rewrite He. now split.
Qed.

Lemma planning_resolves_plan_witness :
  planningSecurity modelDown (mkEnv None None) (js "show T1059")
  = (Some (js "fetch failed"),
     ensureGuardrails (defaultPlan (mkEnv None None) (js "show T1059")) (js "show T1059")).
Proof.
  destruct (planning_resolves_plan modelDown (mkEnv None None) (js "show T1059"))
    as (_ & _ & Hdown).
  apply (Hdown (Error (js "fetch failed"))). reflexivity.
Defined.

(** X13. The shape of a security stream. It opens with the planning
    status and closes with exactly one terminal event, a [done] or an
    [error]; it announces the resolved plan; the panels it carries are
    those the run on that plan emitted, whatever the narration request
    does; it ends in an [error] exactly when the run of the panels raised;
    and every delta it writes has text. *)
Theorem securityEvents_grammar :
  forall (sv : Services) (env : Env) (userMsg : jsstring),
    let plan := planSecurity env (plannerAnswer sv) userMsg in
    let run := runPanels (world sv) plan startTrace in
    exists body t,
      securityEvents sv env userMsg = event_status (js "planning") None :: body ++ [t] /\
      isTerminal t = true /\
      Forall (fun e => isTerminal e = false) body /\
      Forall deltaHasText body /\
      event_plan plan ∈ body /\
      panelsOf (securityEvents sv env userMsg) = emitted run.2 /\
      (isError t = true <-> exists e, run.1 = Throw e).
Proof.
  intros sv env userMsg plan run. unfold securityEvents.
  pose proof (planningSecurity_plan sv env userMsg) as Hplan.
  destruct (planningSecurity sv env userMsg) as [warning plan']. cbn [snd] in Hplan.
  subst plan'. fold plan. fold run.
  destruct run as [outcome trace] eqn:Hrun. cbn [fst snd].
  destruct (warningEvents_shape warning) as (Hw1 & Hw2 & Hw3).
  destruct (panel_events_shape (emitted trace)) as (Hp1 & Hp2).
  destruct outcome as [[]|e].
  - destruct (explainEvents_shape sv (language plan) (emitted trace))
      as (init & t & Hex & Hi1 & Hi2 & Hi3 & ok & err & ->).
    rewrite Hex.
    exists (warningEvents warning ++ [event_plan plan; event_status (js "querying_splunk") None]
            ++ (event_panel <$> emitted trace) ++ [event_status (js "explaining") None] ++ init),
           (event_done ok err).
    split; [cbn [app]; f_equal; repeat (rewrite <- app_assoc; cbn [app]); reflexivity|].
    split; [reflexivity|].
    split; [repeat (apply Forall_app; split); try assumption; repeat constructor|].
    split; [repeat (apply Forall_app; split); try assumption; repeat constructor|].
    split; [apply elem_of_app; right; constructor|].
    split.
    + rewrite !panelsOf_app, Hw3, panelsOf_panels, Hi3. cbn. now rewrite app_nil_r.
    + split; [discriminate | intros [e [=]]].
  - exists (warningEvents warning ++ [event_plan plan; event_status (js "querying_splunk") None]
            ++ (event_panel <$> emitted trace)),
           (event_error (js "querying_splunk") (getErrorMessage sv e)).
    split; [cbn [app]; f_equal; repeat (rewrite <- app_assoc; cbn [app]); reflexivity|].
    split; [reflexivity|].
    split; [repeat (apply Forall_app; split); try assumption; repeat constructor|].
    split; [repeat (apply Forall_app; split); try assumption; repeat constructor|].
    split; [apply elem_of_app; right; constructor|].
    split.
    + rewrite !panelsOf_app, Hw3, panelsOf_panels. cbn. now rewrite app_nil_r.
    + split; [eauto | reflexivity].
Qed.

Section ObservabilityRun.

Lemma canonical_requests_allowed intent lang :
  Forall (fun r => comboOf r ∈ allowList) (buildObservabilityRequest intent lang).
Proof.
  destruct intent; cbn [buildObservabilityRequest];
    repeat (apply list.Forall_cons; split;
            [apply (bool_decide_unpack _); vm_compute; exact I|]);
    constructor.
Qed.

Lemma fallbackObservabilityPlan_requests userMsg :
  exists intent,
    requests (fallbackObservabilityPlan userMsg)
    = buildObservabilityRequest intent (detectLanguage userMsg) /\
    obs_earliest_time (fallbackObservabilityPlan userMsg) = js "-15m" /\
    obs_latest_time (fallbackObservabilityPlan userMsg) = js "now".
Proof.
  unfold fallbackObservabilityPlan.
  destruct (isAnomalyText _); [now exists intent_anomaly|].
  destruct (isSuccessRateText _); [now exists intent_success_rate|].
  destruct (includes _ _); [now exists intent_gpu | now exists intent_success_count].
Qed.

Lemma buildObservabilityRequest_length intent lang :
  (1 <= length (buildObservabilityRequest intent lang) <= 3)%nat.
Proof. destruct intent; cbn; lia. Qed.

Lemma normalizeObservabilityPlan_times raw userMsg :
  obs_earliest_time (normalizeObservabilityPlan raw userMsg) ∈ OBSERVABILITY_ALLOWED_TIMES /\
  obs_latest_time (normalizeObservabilityPlan raw userMsg) = js "now".
Proof.
  unfold normalizeObservabilityPlan. cbn [obs_earliest_time obs_latest_time].
  split; [|reflexivity].
  destruct (get raw "earliest_time") as [[| | |t| |]|]; try (now constructor).
  case_bool_decide; [assumption | now constructor].
Qed.

Lemma inOrder_length {A} (R : nat -> A -> Panel -> Prop) xs : forall i ps,
  inOrder R i xs ps -> length ps = length xs.
Proof.
  induction xs as [|x xs IH]; intros i [|p ps] H; cbn in H; try contradiction;
    [reflexivity|].
  cbn. f_equal. eapply IH, H.
Qed.

Lemma allowed_request_contributes req :
  comboOf req ∈ allowList -> viz req = viz_line \/ is_Some (networkRowOf req).
Proof.
  intros Hin. apply (bool_decide_pack _) in Hin.
  destruct req as [a b c d e t]. unfold networkRowOf. cbn [viz mcp].
  destruct a, b, c, d, e; vm_compute in Hin; try contradiction;
    first [now left | right; eexists; reflexivity].
Qed.

Lemma networkRows_bound reqs :
  (length (filter (fun r => viz r = viz_line) reqs) + length (omap networkRowOf reqs)
   <= length reqs)%nat.
Proof.
  induction reqs as [|r reqs IH]; [cbn; lia|].
  cbn [omap list_omap length].
  destruct (decide (viz r = viz_line)) as [Hv|Hv].
  - rewrite filter_cons_True by exact Hv.
    unfold networkRowOf at 1. rewrite Hv. cbn [length]. lia.
  - rewrite filter_cons_False by exact Hv.
    destruct (networkRowOf r); cbn [length]; lia.
Qed.

End ObservabilityRun.

(** A property of the resolved observability plan holds as soon as the
    fallback plan has it, the intent override keeps it, and the normalized
    plan has it when it has requests. *)
Lemma planObservability_cases (inv : ObservabilityPlan -> Prop) planObj userMsg :
  inv (fallbackObservabilityPlan userMsg) ->
  (forall p, inv p -> inv (enforceObservabilityIntent p userMsg)) ->
  (requests (normalizeObservabilityPlan planObj userMsg) <> [] ->
   inv (normalizeObservabilityPlan planObj userMsg)) ->
  inv (planObservability planObj userMsg).
Proof.
  intros Hfb Henf Hnorm. unfold planObservability. apply Henf.
  destruct (truthy planObj); [|exact Hfb].
  case_bool_decide as Hlen; [exact Hfb|].
  apply Hnorm. intros Hnil. apply Hlen. now rewrite Hnil.
Qed.

Lemma planObservability_requests_allowed planObj userMsg :
  (1 <= length (requests (planObservability planObj userMsg)) <= 3)%nat /\
  Forall (fun r => comboOf r ∈ allowList) (requests (planObservability planObj userMsg)).
Proof.
  apply (planObservability_cases
           (fun p => (1 <= length (requests p) <= 3)%nat /\
                     Forall (fun r => comboOf r ∈ allowList) (requests p))).
  - destruct (fallbackObservabilityPlan_requests userMsg) as (intent & -> & _).
    split; [apply buildObservabilityRequest_length | apply canonical_requests_allowed].
  - intros p [Hlen Hall]. unfold enforceObservabilityIntent.
    destruct (detectObservabilityIntent userMsg); cbn [requests];
      (split; [first [assumption | apply buildObservabilityRequest_length]
              | first [assumption | apply canonical_requests_allowed]]).
  - rewrite normalizeObservabilityPlan_requests. intros Hne. split.
    + destruct (take 3 _) eqn:Ht; [contradiction|].
      apply (f_equal length) in Ht. rewrite length_take in Ht. cbn [length] in *. lia.
    + apply Forall_take. apply list.Forall_forall. intros req Hin.
      apply list_elem_of_omap in Hin as (r & _ & Hr).
      eapply allowedRequest_on_list, Hr.
Qed.

(** X14. Whatever the model answered, the observability plan that is
    resolved is in the language of the message, has one of the three
    allowed time ranges and ends at [now], and has between one and three
    requests, each a combination of the allow-list: this holds of the
    normalized plan, of the fallback plan and after the intent override. *)
Theorem planObservability_invariant :
  forall (planObj : option json) (userMsg : jsstring),
    let plan := planObservability planObj userMsg in
    obs_language plan = detectLanguage userMsg /\
    obs_earliest_time plan ∈ OBSERVABILITY_ALLOWED_TIMES /\
    obs_latest_time plan = js "now" /\
    (1 <= length (requests plan) <= 3)%nat /\
    Forall (fun r => comboOf r ∈ allowList) (requests plan).
Proof.
  intros planObj userMsg plan. subst plan.
  assert (obs_language (planObservability planObj userMsg) = detectLanguage userMsg /\
          obs_earliest_time (planObservability planObj userMsg) ∈ OBSERVABILITY_ALLOWED_TIMES /\
          obs_latest_time (planObservability planObj userMsg) = js "now") as (Hl & He & Hn).
  { apply (planObservability_cases
             (fun p => obs_language p = detectLanguage userMsg /\
                       obs_earliest_time p ∈ OBSERVABILITY_ALLOWED_TIMES /\
                       obs_latest_time p = js "now")).
    - destruct (fallbackObservabilityPlan_requests userMsg) as (intent & _ & -> & ->).
      split; [apply fallbackObservabilityPlan_language|]. split; [now constructor | reflexivity].
    - intros p (Hl & He & Hn). rewrite enforceObservabilityIntent_language.
      split; [exact Hl|]. unfold enforceObservabilityIntent.
      destruct (detectObservabilityIntent userMsg);
        cbn [obs_earliest_time obs_latest_time]; now split.
    - intros _. split; [reflexivity|]. apply normalizeObservabilityPlan_times. }
  destruct (planObservability_requests_allowed planObj userMsg) as [Hlen Hall].
  repeat split; try assumption; lia.
Qed.

(** X15. The shape of an observability stream. It opens with the
    planning status, announces the resolved plan and always closes with
    [done]: a run of the observability panels never raises, so the stream
    has no [error] event. It carries between one and three panels, those
    the run on the resolved plan emitted, and every delta it writes has
    text. *)
Theorem observabilityEvents_grammar :
  forall (sv : Services) (userMsg : jsstring),
    let plan := planObservability (plannerAnswer sv) userMsg in
    let events := observabilityEvents sv userMsg in
    exists body ok err,
      events = event_status (js "planning") None :: body ++ [event_done ok err] /\
      Forall (fun e => isTerminal e = false) body /\
      Forall deltaHasText body /\
      event_observability_plan plan ∈ body /\
      panelsOf events = emitted (runObservabilityPanels (world sv) plan startTrace).2 /\
      (1 <= length (panelsOf events) <= 3)%nat.
Proof.
  intros sv userMsg plan events. subst events. unfold observabilityEvents.
  pose proof (planningObservability_plan sv userMsg) as Hplan.
  destruct (planningObservability sv userMsg) as [warning plan']. cbn [snd] in Hplan.
  subst plan'. fold plan.
  destruct (runObservabilityPanels_spec (world sv) plan)
    as (lines & net & t & Hrun & Hem & Hlines & Hnet).
  rewrite Hrun. cbn [snd].
  destruct (warningEvents_shape warning) as (Hw1 & Hw2 & Hw3).
  destruct (panel_events_shape (emitted t)) as (Hp1 & Hp2).
  destruct (explainEvents_shape sv (obs_language plan) (emitted t))
    as (init & tm & Hex & Hi1 & Hi2 & Hi3 & ok & err & ->).
  rewrite Hex.
  exists (warningEvents warning
          ++ [event_observability_plan plan; event_status (js "querying_mcp") None]
          ++ (event_panel <$> emitted t) ++ [event_status (js "explaining") None] ++ init),
         ok, err.
  split; [cbn [app]; f_equal; repeat (rewrite <- app_assoc; cbn [app]); reflexivity|].
  split; [repeat (apply Forall_app; split); try assumption; repeat constructor|].
  split; [repeat (apply Forall_app; split); try assumption; repeat constructor|].
  split; [apply elem_of_app; right; constructor|].
  assert (panelsOf
            ([event_status (js "planning") None] ++ warningEvents warning ++
             [event_observability_plan plan; event_status (js "querying_mcp") None] ++
             (event_panel <$> emitted t) ++
             [event_status (js "explaining") None] ++ init ++ [event_done ok err])
          = emitted t) as Hpanels.
  { rewrite !panelsOf_app, Hw3, panelsOf_panels, Hi3. cbn. now rewrite app_nil_r. }
  split; [exact Hpanels|]. rewrite Hpanels, Hem, length_app.
  apply inOrder_length in Hlines. fold (lineRequests plan) in *.
  destruct (planObservability_requests_allowed (plannerAnswer sv) userMsg) as [Hlen Hall].
  fold plan in Hlen, Hall.
  pose proof (networkRows_bound (requests plan)) as Hb.
  fold (lineRequests plan) in Hb. unfold lineRequests in *.
  unfold networkPanels in Hnet.
  destruct (omap networkRowOf (requests plan)) as [|row rows] eqn:Hrows.
  - subst net. cbn [length] in *. split; [|lia].
    destruct (requests plan) as [|r reqs] eqn:Hreqs; [cbn in Hlen; lia|].
    apply list.Forall_cons in Hall as [Hr _].
    destruct (allowed_request_contributes r Hr) as [Hv|[row Hrow]].
    + rewrite filter_cons_True in Hlines by exact Hv. cbn [length] in Hlines. lia.
    + cbn [omap list_omap] in Hrows. rewrite Hrow in Hrows. discriminate.
  - destruct Hnet as (id & -> & _). cbn [length] in *. lia.
Qed.

(** ** The handler *)

(** X16. What reaches the pipeline. A request that fails the access
    check is refused whatever its body is. [POST] answers with a stream
    only to a request that passed the access check, whose [stream] field is
    not [false] and whose message, converted to a string and trimmed, is
    not empty; the pipeline is then run on that trimmed message, for the
    observability workspace exactly when [workspace] is the string
    "observability". *)
Theorem POST_stream_only_when_valid :
  forall (sv : Services) (env : Env) (token authorization x_app_token : option jsstring)
         (body : json),
    (requireAuthIfConfigured token authorization x_app_token = false ->
     POST sv env token authorization x_app_token body = Ok response_unauthorized) /\
    (forall events,
       POST sv env token authorization x_app_token body = Ok (response_stream events) ->
       requireAuthIfConfigured token authorization x_app_token = true /\
       get (Some body) "stream" <> Some (JBool false) /\
       exists text,
         String_ (nullish (get (Some body) "message") (Some (JStr []))) = Ok text /\
         trim text <> [] /\
         (get (Some body) "workspace" = Some (JStr (js "observability")) /\
          events = observabilityEvents sv (trim text) \/
          get (Some body) "workspace" <> Some (JStr (js "observability")) /\
          events = securityEvents sv env (trim text))).
Proof.
  intros sv env token authorization x_app_token body. unfold POST. split.
  - now intros ->.
  - intros events.
    destruct (requireAuthIfConfigured token authorization x_app_token); cbn [negb];
      [|discriminate].
    destruct (String_ _) as [text|e]; cbn [mbind result_bind]; [|discriminate].
    destruct (trim text) as [|c r] eqn:Htrim; [discriminate|].
    intros H. split; [reflexivity|].
    assert (get (Some body) "stream" <> Some (JBool false) /\
            (if match get (Some body) "workspace" with
                | Some (JStr w) => streq w (js "observability")
                | _ => false
                end
             then Ok (response_stream (observabilityEvents sv (c :: r)))
             else Ok (response_stream (securityEvents sv env (c :: r))))
            = @Ok Response (response_stream events)) as [Hs Hw].
    { destruct (get (Some body) "stream") as [[|[]| | | |]|]; cbn [negb] in H;
        try discriminate; (split; [discriminate | exact H]). }
    clear H. split; [exact Hs|]. exists text. split; [reflexivity|].
    rewrite Htrim. split; [discriminate|].
    destruct (get (Some body) "workspace") as [[| | |w| |]|];
      try (right; split; [discriminate | now injection Hw]).
    unfold streq in Hw. case_bool_decide as Hobs.
    + left. subst w. split; [reflexivity | now injection Hw].
    + right. split; [congruence | now injection Hw].
Qed.

Lemma POST_stream_only_when_valid_witness :
  POST modelDown (mkEnv None None) (Some (js "s3cret")) None None
       (JObj [(js "message", JStr (js " show egress "))]) = Ok response_unauthorized.
Proof.
  apply (POST_stream_only_when_valid modelDown (mkEnv None None) (Some (js "s3cret")) None None
           (JObj [(js "message", JStr (js " show egress "))])).
  reflexivity.
Defined.

(** ** Normalized plans *)

Section NormalizedPlan.

Lemma nonEmpty_Some {A} (l l' : list A) : nonEmpty l = Some l' -> l' = l /\ l <> [].
Proof. destruct l; [discriminate|]. intros [= <-]. now split. Qed.

Lemma trimmedString_trimmed v s : trimmedString v = Some s -> trimmedText s.
Proof.
  destruct v as [[| | |t| |]|]; try discriminate. cbn [trimmedString].
  destruct (trim t) as [|c r] eqn:Ht; [discriminate|]. intros [= <-].
  split; [discriminate|]. rewrite <- Ht. apply trim_idem.
Qed.

Lemma envOr_text v dflt : dflt <> [] -> envOr v dflt <> [].
Proof. intros Hd. destruct v as [[|c r]|]; cbn; [exact Hd | discriminate | exact Hd]. Qed.

Lemma trimmedOr_text v dflt : dflt <> [] -> trimmedOr v dflt <> [].
Proof.
  intros Hd. destruct v as [[| | |t| |]|]; cbn; try exact Hd.
  destruct (trim t); [exact Hd | discriminate].
Qed.

Lemma mapM_strings_plain (f : jsstring -> jsstring) items :
  forallb plain items = true ->
  returns (mapM (fun x => s ← stringOrEmpty x; Ok (f s)) items).
Proof.
  induction items as [|x r IH]; intros Hp; [eexists; reflexivity|].
  cbn [forallb] in Hp. apply andb_true_iff in Hp as [Hx Hr].
  destruct (IH Hr) as [ss Hss]. cbn [mapM]. 
  assert (returns (stringOrEmpty x)) as [s Hs].
  { unfold stringOrEmpty. destruct (truthy (Some x)); [now apply ToString_plain|].
    eexists; reflexivity. }
  rewrite Hs. cbn [mbind result_bind]. rewrite Hss. eexists; reflexivity.
Qed.

Lemma plain_items o k items :
  plain o = true -> asArray (get (Some o) k) = Some items -> forallb plain items = true.
Proof.
  intros Hp Ha. destruct (get (Some o) k) as [[| | | |l|]|] eqn:Hg; try discriminate.
  injection Ha as <-. exact (plain_get _ _ _ Hp Hg).
Qed.

Lemma normalizeOutputs_returns o :
  plain o = true -> returns (normalizeOutputs (get (Some o) "outputs")).
Proof.
  intros Hp. destruct (get (Some o) "outputs") as [[| | | |items|]|] eqn:Hg;
    try (eexists; reflexivity).
  rewrite normalizeOutputs_plain; [eexists; reflexivity|].
  exact (plain_get _ _ _ Hp Hg).
Qed.

End NormalizedPlan.

(** X17. A plan normalized from the model's candidate is well formed: it
    is in the language of the message, both ends of its time range are
    non-empty, no filter is present and empty (a severity or tag list has
    an element, a text filter is a trimmed non-empty text, every tag has
    the tag syntax), and no output is suppressed. Normalization raises
    only on a candidate that has, somewhere inside, an object with a
    property named [toString]: on every other candidate it returns a
    plan. *)
Theorem normalizePlan_wellformed :
  forall (env : Env) (raw : option json) (userMsg : jsstring),
    (forall plan, normalizePlan env raw userMsg = Ok plan ->
       language plan = detectLanguage userMsg /\
       earliest_time plan <> [] /\ latest_time plan <> [] /\
       wellFormedFilters (filters plan) /\
       Forall live (outputs plan)) /\
    (forall o, raw = Some o -> plain o = true ->
       exists plan, normalizePlan env raw userMsg = Ok plan).
Proof.
  intros env raw userMsg. split.
  - intros plan Hn. pose proof (normalizePlan_live _ _ _ _ Hn) as Hlive.
    revert Hn. unfold normalizePlan.
    set (rf := nullish (get raw "filters") (Some (JObj []))).
    match goal with
    | |- context [mbind _ ?m] => destruct m as [sev|] eqn:Hsev; [|discriminate]
    end.
    cbn [mbind result_bind].
    match goal with
    | |- context [mbind _ ?m] => destruct m as [tags|] eqn:Htags; [|discriminate]
    end.
    cbn [mbind result_bind].
    destruct (normalizeOutputs (get raw "outputs")) as [outs|]; [|discriminate].
    cbn [mbind result_bind]. intros [= <-].
    cbn [language earliest_time latest_time filters outputs] in *.
    split; [reflexivity|].
    split; [apply trimmedOr_text, envOr_text; discriminate|].
    split; [apply trimmedOr_text, envOr_text; discriminate|].
    split; [|exact Hlive].
    unfold wellFormedFilters.
    cbn [severity_exact description_like details_like node_like tags_exact].
    split; [|split; [|split; [|split]]]; try apply trimmedString_trimmed.
    + intros l ->.
      destruct (asArray _) as [items|]; [|discriminate].
      destruct (mapM _ items) as [strs|]; [|discriminate].
      cbn [mbind result_bind] in Hsev. injection Hsev as Hsev.
      now apply nonEmpty_Some in Hsev as [-> Hne].
    + intros l ->.
      destruct (asArray (get rf "tags_exact")) as [items|]; [|discriminate].
      destruct (mapM _ items) as [strs|]; [|discriminate].
      cbn [mbind result_bind] in Htags. injection Htags as Htags.
      apply nonEmpty_Some in Htags as [-> Hne]. split; [exact Hne|].
      apply list.Forall_forall. intros t Hin.
      now apply list_elem_of_filter in Hin as [Ht _].
  - intros o -> Hp. unfold normalizePlan.
    set (rf := nullish (get (Some o) "filters") (Some (JObj []))).
    assert (exists rfo, rf = Some rfo /\ plain rfo = true) as (rfo & Hrf & Hrfp).
    { subst rf. destruct (get (Some o) "filters") as [v|] eqn:Hg.
      - pose proof (plain_get _ _ _ Hp Hg) as Hv.
        destruct v; cbn [nullish]; eauto.
      - cbn. eauto. }
    rewrite Hrf.
    match goal with
    | |- context [mbind _ ?m] => assert (returns m) as [sev ->]
    end.
    { destruct (asArray _) as [items|] eqn:Ha; [|eexists; reflexivity].
      assert (forallb plain items = true) as Hitems.
      { destruct (isObject (Some rfo)); [|discriminate].
        destruct (get (Some rfo) "severity_exact") as [v|] eqn:Hg1.
        - destruct v; cbn [nullish] in Ha; try discriminate;
            try (eapply plain_items; [exact Hrfp | exact Ha]).
          injection Ha as <-. exact (plain_get _ _ _ Hrfp Hg1).
        - cbn [nullish] in Ha. eapply plain_items; [exact Hrfp | exact Ha]. }
      destruct (mapM_strings_plain (fun s => toUpperCase (trim s)) items Hitems) as [ss ->].
      eexists; reflexivity. }
    cbn [mbind result_bind].
    match goal with
    | |- context [mbind _ ?m] => assert (returns m) as [tags ->]
    end.
    { destruct (asArray _) as [items|] eqn:Ha; [|eexists; reflexivity].
      pose proof (plain_items _ _ _ Hrfp Ha) as Hitems.
      destruct (mapM_strings_plain (fun s => toLowerCase (trim s)) items Hitems) as [ss ->].
      eexists; reflexivity. }
    cbn [mbind result_bind].
    destruct (normalizeOutputs_returns o Hp) as [outs ->].
    eexists; reflexivity.
Qed.

Lemma normalizePlan_wellformed_witness :
  exists plan, normalizePlan (mkEnv None None)
                 (Some (JObj [(js "filters",
                               JObj [(js "description_like", JStr (js "  oom  "));
                                     (js "tags_exact", JArr [JStr (js "T1059"); JNum (Fin 7 0)])])]))
                 (js "show oom") = Ok plan.
Proof.
  refine (proj2 (normalizePlan_wellformed (mkEnv None None) _ (js "show oom")) _ eq_refl _).
  reflexivity.
Defined.

(** ** Limits and queries *)

Section Limits.

Lemma clampInt_range v lo hi dflt n :
  lo <= hi -> lo <= dflt <= hi -> clampInt v lo hi dflt = Ok n -> lo <= n <= hi.
Proof.
  intros Hlh Hd. unfold clampInt. destruct (Number_ v) as [x|]; [|discriminate].
  cbn [mbind result_bind]. intros [= <-]. now apply clampNum_range.
Qed.

Lemma clampNum_fixed n lo hi dflt : lo <= n <= hi -> clampNum (ofZ n) lo hi dflt = n.
Proof.
  intros Hn. unfold clampNum, ofZ, floorFin. cbn. rewrite Z.mul_1_r. lia.
Qed.

Lemma normalizeOutput_limit o spec : normalizeOutput o = Ok spec -> limitInRange spec.
Proof.
  unfold normalizeOutput, limitInRange.
  destruct (String_ (get o "kind")) as [ks|]; [|discriminate]. cbn [mbind result_bind].
  destruct (String_ (get o "template")) as [ts|]; [|discriminate]. cbn [mbind result_bind].
  generalize (trimmedOr (get o "title") (js "Result")) as ttl. intros ttl.
  generalize (trimmedOr (get o "span") (js "5m")) as sp. intros sp.
  destruct (default tpl_table (parseTemplate ts));
    repeat first
      [ progress cbn [mbind result_bind kind title template group_by limit span split
                      set_kind set_group_by set_limit set_span set_split]
      | match goal with
        | |- context [String_ ?v] => destruct (String_ v); [|discriminate]
        | |- context [clampInt ?v ?a ?b ?c] =>
            let H := fresh "Hclamp" in
            destruct (clampInt v a b c) eqn:H; [apply clampInt_range in H; [|lia..]|discriminate]
        end
      | case_decide; try congruence ];
    intros [= <-]; cbn; eauto.
Qed.

Lemma mapM_Forall {A B} (f : A -> result B) (P : B -> Prop) l : forall outs,
  (forall x y, f x = Ok y -> P y) -> mapM f l = Ok outs -> Forall P outs.
Proof.
  induction l as [|x l IH]; intros outs Hf; cbn.
  - intros [= <-]. constructor.
  - destruct (f x) as [y|] eqn:Hy; [|discriminate]. cbn.
    destruct (mapM f l) as [ys|]; [|discriminate]. cbn. intros [= <-].
    constructor; [eapply Hf, Hy | now apply IH].
Qed.

Lemma normalizePlan_limits env raw userMsg plan :
  normalizePlan env raw userMsg = Ok plan -> Forall limitInRange (outputs plan).
Proof.
  unfold normalizePlan.
  repeat match goal with
         | |- context [mbind _ ?m] =>
             lazymatch m with
             | normalizeOutputs _ => fail
             | _ => destruct m; [|discriminate]; cbn [mbind result_bind]
             end
         end.
  destruct (normalizeOutputs (get raw "outputs")) as [outs|] eqn:Ho; [|discriminate].
  cbn [mbind result_bind]. intros [= <-]. cbn [outputs].
  unfold normalizeOutputs in Ho. eapply mapM_Forall, Ho.
  intros x y. apply normalizeOutput_limit.
Qed.

Lemma defaultTable_limit : limitInRange defaultTable.
Proof. exists 50. split; [reflexivity | lia]. Qed.

Lemma ensureGuardrails_limits plan userMsg :
  Forall limitInRange (outputs plan) ->
  Forall limitInRange (outputs (ensureGuardrails plan userMsg)).
Proof.
  intros H. rewrite ensureGuardrails_outputs. apply Forall_take.
  destruct (_ || _); [|exact H]. constructor; [apply defaultTable_limit | constructor].
Qed.

Lemma planSecurity_limits env planObj userMsg :
  Forall limitInRange (outputs (planSecurity env planObj userMsg)).
Proof.
  assert (Forall limitInRange (outputs (defaultPlan env userMsg))) as Hd.
  { unfold defaultPlan. cbn [outputs].
    destruct (containsNetworkActivityIntent userMsg); cbn [take];
      (constructor; [exists 10; split; [reflexivity | lia]|]);
      (constructor; [apply defaultTable_limit | constructor]). }
  unfold planSecurity.
  destruct (truthy planObj);
    [destruct (normalizePlan env planObj userMsg) as [p|] eqn:Hn|];
    apply ensureGuardrails_limits;
    first [eapply normalizePlan_limits, Hn | exact Hd].
Qed.



End Limits.

(** X18. The limit of the plan is the limit of the query. Every output
    of the resolved security plan has the limit its template asks for: a
    table one between 5 and 200, a distribution one between 3 and 50, a
    count or a trend none. The two further clampings, in [runPanels] and in
    the template, leave that limit as it is: the query compiled for the
    output is the template at exactly the limit of the plan. *)
Theorem plan_limit_is_query_limit :
  forall (env : Env) (planObj : option json) (userMsg : jsstring) (out : OutputSpec),
    let plan := planSecurity env planObj userMsg in
    out ∈ outputs plan ->
    limitInRange out /\
    forall n, limit out = Some n ->
      match template out with
      | tpl_table =>
          compileOutput (filters plan) out = Some (splTable (filters plan) (ofZ n)) /\
          clampNum (ofZ n) 5 200 50 = n
      | tpl_count_by =>
          compileOutput (filters plan) out
            = Some (splCountBy (filters plan) (default gb_Severity (group_by out)) (ofZ n)) /\
          clampNum (ofZ n) 3 50 10 = n
      | _ => False
      end.
Proof.
  intros env planObj userMsg out plan Hin.
  pose proof (planSecurity_limits env planObj userMsg) as Hlim.
  destruct (planSecurity_live env planObj userMsg) as [_ Hlive].
  fold plan in Hlim, Hlive. cbv zeta in Hlive.
  rewrite list.Forall_forall in Hlim, Hlive.
  specialize (Hlim out Hin). specialize (Hlive out Hin).
  split; [exact Hlim|]. intros n Hn.
  unfold limitInRange in Hlim. unfold compileOutput.
  rewrite (decide_False (P := kind out = kind_none)) by exact Hlive.
  destruct (template out).
  - congruence.
  - destruct Hlim as (m & Hm & Hr). assert (m = n) as -> by congruence.
    rewrite Hn. cbn [numOfLimit]. now rewrite clampNum_fixed by lia.
  - destruct Hlim as (m & Hm & Hr). assert (m = n) as -> by congruence.
    rewrite Hn. cbn [numOfLimit]. now rewrite clampNum_fixed by lia.
  - congruence.
Qed.

Lemma plan_limit_is_query_limit_witness :
  limitInRange defaultTable.
Proof.
  refine (proj1 (plan_limit_is_query_limit (mkEnv None None) None (js "show events")
                   defaultTable _)).
  vm_compute. apply list_elem_of_further, list_elem_of_here.
Defined.



(** ** Shaped rows *)

Section ShapedRows.




End ShapedRows.



(** ** Panel identifiers *)

Section PanelIds.

Lemma js_inj a b : js a = js b -> a = b.
Proof.
  unfold js. intros H.
  assert (list_ascii_of_string a = list_ascii_of_string b) as Hl.
  { revert H. generalize (list_ascii_of_string a) (list_ascii_of_string b).
    induction l as [|x l IH]; intros [|y l']; cbn; try discriminate; [reflexivity|].
    intros [= Hx Hl]. f_equal; [|now apply IH].
    rewrite <- (ascii_N_embedding x), <- (ascii_N_embedding y). now rewrite Hx. }
  rewrite <- (string_of_list_ascii_of_string a), <- (string_of_list_ascii_of_string b).
  now rewrite Hl.
Qed.

Lemma decN_inj n m : decN n = decN m -> n = m.
Proof.
  unfold decN. intros H. apply js_inj in H.
  apply Unsigned.to_uint_inj.
  assert (Some (N.to_uint n) = Some (N.to_uint m)) as [= ->]; [|reflexivity].
  now rewrite <- !NilEmpty.usu, H.
Qed.

Lemma decN_digits n : forallb isDigit (decN n) = true.
Proof.
  unfold decN. generalize (N.to_uint n) as d.
  induction d as [|d IH|d IH|d IH|d IH|d IH|d IH|d IH|d IH|d IH|d IH];
    [reflexivity|..]; cbn [NilEmpty.string_of_uint]; unfold js in *;
    cbn [list_ascii_of_string fmap list_fmap forallb]; rewrite IH; reflexivity.
Qed.

Lemma spanWhile_stop {A} (p : A -> bool) a x b :
  forallb p a = true -> p x = false -> spanWhile p (a ++ x :: b) = (a, x :: b).
Proof.
  intros Ha Hx. induction a as [|y a IH]; cbn.
  - now rewrite Hx.
  - cbn in Ha. apply andb_true_iff in Ha as [Hy Ha]. now rewrite Hy, IH.
Qed.

Lemma forallb_rev {A} (p : A -> bool) l : forallb p (rev l) = forallb p l.
Proof.
  induction l as [|x l IH]; [reflexivity|].
  cbn. rewrite forallb_app, IH. cbn. rewrite andb_true_r. apply andb_comm.
Qed.

Lemma idOf_idSeq prefix i id : idOf prefix i id -> idSeq id = decN (N.of_nat i).
Proof.
  intros [stamp ->]. unfold idSeq.
  rewrite !app_assoc. rewrite rev_app_distr, (rev_app_distr _ (js "_")).
  change (rev (js "_")) with [95%N]. cbn [app].
  rewrite spanWhile_stop; [apply rev_involutive | | reflexivity].
  rewrite forallb_rev. apply decN_digits.
Qed.

Lemma NoDup_idSeq (ids : list jsstring) (i : nat) :
  Forall2 (fun k id => idSeq id = decN (N.of_nat k)) (seq i (length ids)) ids -> NoDup ids.
Proof.
  intros H. apply (NoDup_fmap_1 idSeq).
  assert (idSeq <$> ids = (fun k => decN (N.of_nat k)) <$> seq i (length ids)) as ->.
  { revert i H. induction ids as [|id ids IH]; intros i H; [reflexivity|].
    cbn [length seq] in H. inversion H as [|? ? ? ? Hid Hrest]; subst.
    cbn. rewrite Hid. f_equal. now apply IH. }
  apply NoDup_fmap_2; [|apply NoDup_seq].
  intros a b Hab. apply decN_inj in Hab. lia.
Qed.

Lemma inOrder_ids {A} (R : nat -> A -> Panel -> Prop) :
  (forall i x p, R i x p -> exists prefix, idOf prefix i (panelId p)) ->
  forall xs i ps, inOrder R i xs ps ->
    Forall2 (fun k id => idSeq id = decN (N.of_nat k)) (seq i (length ps)) (panelId <$> ps).
Proof.
  intros HR. induction xs as [|x xs IH]; intros i [|p ps] H; cbn in H;
    try contradiction; [constructor|].
  destruct H as [Hp Hrest]. cbn [length seq fmap list_fmap]. constructor.
  - destruct (HR _ _ _ Hp) as [prefix Hid]. eapply idOf_idSeq, Hid.
  - now apply IH.
Qed.

Lemma panelOfOutput_id f i out p :
  panelOfOutput f i out p -> exists prefix, idOf prefix i (panelId p).
Proof.
  intros (_ & _ & H). destruct (template out), p; try contradiction; cbn [panelId];
    try destruct H as [_ H]; eauto.
Qed.

Lemma lineOfRequest_id plan i req p :
  lineOfRequest plan i req p -> exists prefix, idOf prefix i (panelId p).
Proof. intros (id & data & -> & Hid & _). cbn. eauto. Qed.

End PanelIds.

(** X21. The panels of one answer have pairwise distinct identifiers, in
    both workspaces and whatever the clock reads: an identifier ends with
    the sequence number of its panel within the run, and no two panels of a
    run share a sequence number. *)
Theorem panel_ids_distinct :
  forall (w : World) (plan : Plan) (obsPlan : ObservabilityPlan),
    NoDup (panelId <$> emitted (runPanels w plan startTrace).2) /\
    NoDup (panelId <$> emitted (runObservabilityPanels w obsPlan startTrace).2).
Proof.
  intros w plan obsPlan. split.
  - unfold runPanels.
    pose proof (runPanelsFrom_spec w plan (outputs plan) 0%nat startTrace) as Hrun.
    destruct (runPanelsFrom w plan 0 (outputs plan) startTrace) as [r t].
    destruct Hrun as (ps & Hem & Hord). cbn [snd emitted startTrace app] in *.
    rewrite Hem. clear Hem.
    assert (exists outs, inOrder (panelOfOutput (filters plan)) 0 outs ps) as (outs & Hio).
    { destruct r; [eauto|]. destruct Hord as (n & _ & Hord). eauto. }
    apply (NoDup_idSeq _ 0). rewrite length_fmap.
    eapply inOrder_ids, Hio. apply panelOfOutput_id.
  - destruct (runObservabilityPanels_spec w obsPlan)
      as (lines & net & t & Hrun & Hem & Hlines & Hnet).
    rewrite Hrun. cbn [snd]. rewrite Hem, fmap_app.
    apply (NoDup_idSeq _ 0). rewrite length_app, !length_fmap.
    rewrite seq_app. apply Forall2_app.
    + rewrite <- (length_fmap panelId lines) at 1. rewrite length_fmap.
      eapply inOrder_ids, Hlines. apply lineOfRequest_id.
    + unfold networkPanels in Hnet. cbn [Nat.add].
      destruct (omap networkRowOf (requests obsPlan)) as [|row rows].
      * subst net. constructor.
      * destruct Hnet as (id & -> & Hid). cbn. constructor; [|constructor].
        eapply idOf_idSeq, Hid.
Qed.

(** ** Backend calls *)

Section BackendCalls.

Ltac step_io :=
  repeat progress
    (unfold mbind, IO_bind, mret, IO_ret, callSplunkMcp, liftResult, newPanelId, Date_now,
       pushPanel in *;
     cbn beta iota zeta;
     cbn [calls ticks emitted fst snd] in *).

Lemma materialize_calls w plan seq out t0 :
  calls (materialize w plan seq out t0).2 = S (calls t0).
Proof.
  unfold materialize.
  destruct (template out); step_io.
  - destruct (splunk _ _ _ _ _ _); [|reflexivity].
    destruct (Number_ _); reflexivity.
  - destruct (splunk _ _ _ _ _ _); [|reflexivity].
    destruct (normalizeTableRows _ _); reflexivity.
  - destruct (splunk _ _ _ _ _ _); [|reflexivity].
    destruct (normalizeChartData _); [|reflexivity].
    destruct (default gb_Severity (group_by out)); reflexivity.
  - destruct (splunk _ _ _ _ _ _); [|reflexivity].
    destruct (normalizeChartData _); reflexivity.
Qed.

Lemma runPanelsFrom_calls w plan outs : forall seq t0,
  let run := runPanelsFrom w plan seq outs t0 in
  (calls run.2 + length (emitted t0)
   = calls t0 + length (emitted run.2)
     + match run.1 with Ok _ => 0 | Throw _ => 1 end)%nat.
Proof.
  induction outs as [|out rest IH]; intros seq t0; cbn [runPanelsFrom].
  - cbn. lia.
  - destruct (decide (kind out = kind_none)) as [Hn|Hn]; [apply IH|].
    pose proof (materialize_spec w plan seq out t0 Hn) as Hm.
    pose proof (materialize_calls w plan seq out t0) as Hc.
    step_io. destruct (materialize w plan seq out t0) as [[p|e] t1]; cbn [snd] in Hc.
    + destruct Hm as [Hem _].
      specialize (IH (S seq) (mkTrace (calls t1) (ticks t1) (emitted t1 ++ [p]))).
      cbn [calls emitted] in IH. rewrite length_app in IH. cbn [length] in IH.
      rewrite Hem in IH |- *. cbv zeta in IH. lia.
    + cbn. rewrite Hm. lia.
Qed.

Lemma mockGrafanaSeries_calls w m t0 : calls (mockGrafanaSeries w m t0).2 = calls t0.
Proof. destruct (mockGrafanaSeries_spec w m t0) as (data & -> & _). reflexivity. Qed.

Lemma runObservabilityFrom_calls w plan reqs : forall seq rows t0,
  calls (runObservabilityFrom w plan seq rows reqs t0).2 = calls t0.
Proof.
  induction reqs as [|req rest IH]; intros seq rows t0; cbn [runObservabilityFrom];
    [reflexivity|].
  destruct (decide (viz req = viz_line)); [|apply IH].
  destruct (mockGrafanaSeries_spec w (metric req) t0) as (data & Hd & _).
  step_io. rewrite Hd. step_io.
  match goal with
  | |- context [runObservabilityFrom w plan (S seq) rows rest ?t] =>
      specialize (IH (S seq) rows t)
  end.
  cbn [calls] in IH. exact IH.
Qed.

Lemma runObservabilityPanels_calls w plan t0 :
  calls (runObservabilityPanels w plan t0).2 = calls t0.
Proof.
  unfold runObservabilityPanels.
  pose proof (runObservabilityFrom_calls w plan (requests plan) 0%nat [] t0) as Ho.
  destruct (runObservabilityFrom_spec w plan (requests plan) 0%nat [] t0)
    as (ps' & t1 & Hrun & _).
  rewrite Hrun in Ho. cbn [snd] in Ho.
  step_io. rewrite Hrun. cbn [app].
  destruct (omap networkRowOf (requests plan)); step_io; exact Ho.
Qed.

End BackendCalls.

(** X22. The backend is queried once for each output that is worked on.
    A security run that ends well has made exactly as many queries as it
    emitted panels; one that raises has made one more, the query of the
    output it failed on; in either case no more than the plan has outputs
    that are not suppressed. A run of the observability workspace makes no
    query at all. *)
Theorem backend_calls :
  forall (w : World) (plan : Plan) (obsPlan : ObservabilityPlan),
    let run := runPanels w plan startTrace in
    calls run.2 = (length (emitted run.2)
                   + match run.1 with Ok _ => 0 | Throw _ => 1 end)%nat /\
    (calls run.2 <= length (liveOutputs plan))%nat /\
    calls (runObservabilityPanels w obsPlan startTrace).2 = 0%nat.
Proof.
  intros w plan obsPlan run. subst run. unfold runPanels.
  pose proof (runPanelsFrom_calls w plan (outputs plan) 0%nat startTrace) as Hc.
  pose proof (runPanelsFrom_spec w plan (outputs plan) 0%nat startTrace) as Hs.
  cbv zeta in Hc.
  destruct (runPanelsFrom w plan 0 (outputs plan) startTrace) as [r t].
  cbn [fst snd startTrace calls emitted length app] in *.
  destruct Hs as (ps & Hem & Hord).
  split; [lia|]. split.
  - unfold liveOutputs. rewrite Hem in Hc. destruct r as [[]|e].
    + apply inOrder_length in Hord. lia.
    + destruct Hord as (n & Hn & Hord). apply inOrder_length in Hord.
      rewrite length_take in Hord. lia.
  - apply (runObservabilityPanels_calls w obsPlan startTrace).
Qed.

(** ** The intent of the message and the observability plan *)

Section IntentOverride.

Lemma fallbackObservabilityPlan_canonical userMsg :
  requests (fallbackObservabilityPlan userMsg)
  = buildObservabilityRequest (detectObservabilityIntent userMsg) (detectLanguage userMsg).
Proof.
  unfold fallbackObservabilityPlan, detectObservabilityIntent.
  destruct (isAnomalyText _); [reflexivity|].
  destruct (isSuccessRateText _); [reflexivity|].
  destruct (includes (toLowerCase userMsg) (js "gpu")); [reflexivity|].
  now destruct (_ || _).
Qed.

End IntentOverride.

(** X23. What decides the requests of the observability plan. The
    model's requests are used only when the message shows none of the four
    intents and the model proposed at least one request of the allow-list;
    they are then its allowed requests, at most three. In every other case,
    in particular whenever an intent is detected, the requests are the
    canonical ones of the detected intent, in the language of the message;
    the fallback plan has the same requests. *)
Theorem observability_requests_decided :
  forall (planObj : option json) (userMsg : jsstring),
    let intent := detectObservabilityIntent userMsg in
    let canonical := buildObservabilityRequest intent (detectLanguage userMsg) in
    let proposed := take 3 (omap allowedRequest (default [] (asArray (get planObj "requests")))) in
    requests (fallbackObservabilityPlan userMsg) = canonical /\
    (intent <> intent_unknown -> requests (planObservability planObj userMsg) = canonical) /\
    (intent = intent_unknown ->
     requests (planObservability planObj userMsg)
     = if truthy planObj && negb (bool_decide (proposed = [])) then proposed else canonical).
Proof.
  intros planObj userMsg intent canonical proposed.
  split; [apply fallbackObservabilityPlan_canonical|].
  assert (obs_language
            (if truthy planObj
             then if bool_decide (length (requests (normalizeObservabilityPlan planObj userMsg))
                                  = 0%nat)
                  then fallbackObservabilityPlan userMsg
                  else normalizeObservabilityPlan planObj userMsg
             else fallbackObservabilityPlan userMsg) = detectLanguage userMsg) as Hl.
  { destruct (truthy planObj); [case_bool_decide|];
      first [apply fallbackObservabilityPlan_language | reflexivity]. }
  split.
  - intros Hi. unfold planObservability, enforceObservabilityIntent. fold intent.
    destruct (truthy planObj); cbn beta iota zeta in *;
      destruct intent; try contradiction; cbn [requests]; now rewrite Hl.
  - intros Hi. unfold planObservability, enforceObservabilityIntent. fold intent.
    rewrite Hi. subst canonical. fold intent. rewrite Hi.
    destruct (truthy planObj); cbn [andb];
      [|rewrite fallbackObservabilityPlan_canonical; fold intent; now rewrite Hi].
    rewrite normalizeObservabilityPlan_requests. fold proposed.
    destruct proposed as [|r rs] eqn:Hp.
    + rewrite bool_decide_eq_true_2 by reflexivity. cbn [negb].
      rewrite bool_decide_eq_true_2 by reflexivity.
      rewrite fallbackObservabilityPlan_canonical. fold intent. now rewrite Hi.
    + rewrite bool_decide_eq_false_2 by discriminate.
      rewrite bool_decide_eq_false_2 by discriminate. cbn [negb].
      rewrite normalizeObservabilityPlan_requests. fold proposed. now rewrite Hp.
Qed.

Lemma observability_requests_decided_witness :
  requests (planObservability (Some gpuRequestObj) (js "why are requests dropped"))
  = buildObservabilityRequest intent_anomaly en.
Proof.
  refine (proj1 (proj2 (observability_requests_decided (Some gpuRequestObj)
                          (js "why are requests dropped"))) _).
  vm_compute. discriminate.
Defined.

(** ** Texts of the streamed answer *)

Section StreamTexts.

Lemma frameYields_text JSON_parse chunk :
  Forall (fun d => d <> []) (frameYields JSON_parse chunk).
Proof.
  unfold frameYields. apply Forall_bind. apply Forall_true. intros line.
  unfold compose. cbv beta zeta. repeat case_match; repeat constructor; discriminate.
Qed.

Lemma streamYields_text JSON_parse pieces : forall buf,
  Forall (fun d => d <> []) (streamYields JSON_parse buf pieces).
Proof.
  induction pieces as [|value rest IH]; intros buf; cbn [streamYields]; [constructor|].
  destruct (takeFrames [] (buf ++ value)) as [frames buf'].
  apply Forall_app. split; [|apply IH].
  apply Forall_bind. apply Forall_true. intros chunk. apply frameYields_text.
Qed.

End StreamTexts.

(** X24. The streamed answer never yields an empty text, so the guard of
    the narration loop drops nothing: every text the model service yields
    is written as one delta, in order, and a narration that ends well
    writes exactly those deltas and then [done]. *)
Theorem narration_writes_every_text :
  forall (sv : Services) (lang : Language) (panels : list Panel),
    let '(texts, failure) :=
      callQwenStream (JSON_parse sv) (qwenEnv sv) (narrationOutcome sv) in
    Forall (fun d => d <> []) texts /\
    (failure = None ->
     explainEvents sv lang panels = (event_delta <$> texts) ++ [event_done true None]) /\
    (forall e, failure = Some e ->
     explainEvents sv lang panels
     = (event_delta <$> texts)
       ++ [event_delta (fallbackMarkdown lang panels);
           event_done false (Some (getErrorMessage sv e))]).
Proof.
  intros sv lang panels. unfold explainEvents.
  destruct (callQwenStream _ _ _) as [texts failure] eqn:Hc.
  assert (Forall (fun d => d <> []) texts) as Ht.
  { unfold callQwenStream in Hc.
    destruct (resolveQwenChatCompletionsUrl _); [|injection Hc as <- _; constructor].
    destruct (narrationOutcome sv); try (injection Hc as <- _; constructor).
    injection Hc as <- _. apply streamYields_text. }
  assert (filter (fun d => d <> []) texts = texts) as ->.
  { clear Hc. induction Ht as [|d l Hd _ IH]; [reflexivity|].
    rewrite filter_cons_True by exact Hd. now rewrite IH. }
  split; [exact Ht|]. split.
  - now intros ->.
  - now intros e ->.
Qed.

Lemma narration_writes_every_text_witness :
  explainEvents modelDown en []
  = [event_delta (fallbackMarkdown en []); event_done false (Some (js "fetch failed"))].
Proof.
  pose proof (narration_writes_every_text modelDown en []) as H.
  change (callQwenStream (JSON_parse modelDown) (qwenEnv modelDown) (narrationOutcome modelDown))
    with (@nil jsstring, Some (Error (js "fetch failed"))) in H.
  destruct H as (_ & _ & H). exact (H _ eq_refl).
Defined.

(** ** The guardrails are stable *)

Section GuardrailsStable.

Lemma ensureGuardrails_filters plan userMsg :
  filters (ensureGuardrails plan userMsg) =
  let tags := if negb (userExplicitTagIntent userMsg)
                 || bool_decide (length (extractTagTokens userMsg) = 0%nat)
              then None else Some (extractTagTokens userMsg) in
  let f := set_tags tags (filters plan) in
  if containsNetworkActivityIntent userMsg
     && negb (bool_decide (is_Some (has_network_activity f)))
  then set_network true f else f.
Proof.
  unfold ensureGuardrails. cbn [filters]. now destruct (_ || _).
Qed.

Lemma ensureGuardrails_filters_stable plan userMsg :
  filters (ensureGuardrails (ensureGuardrails plan userMsg) userMsg)
  = filters (ensureGuardrails plan userMsg).
Proof.
  rewrite (ensureGuardrails_filters (ensureGuardrails plan userMsg)).
  rewrite (ensureGuardrails_filters plan). cbv zeta.
  generalize (if negb (userExplicitTagIntent userMsg)
                 || bool_decide (length (extractTagTokens userMsg) = 0%nat)
              then None else Some (extractTagTokens userMsg)) as tags.
  intros tags. destruct (filters plan) as [sev d dt n net tg].
  unfold set_tags, set_network.
  cbn [severity_exact description_like details_like node_like has_network_activity tags_exact].
  destruct (containsNetworkActivityIntent userMsg); cbn [andb]; [|reflexivity].
  destruct net as [b|].
  - rewrite bool_decide_eq_true_2 by eauto. cbn [negb].
    cbn [severity_exact description_like details_like node_like has_network_activity
         tags_exact].
    rewrite bool_decide_eq_true_2 by eauto. reflexivity.
  - rewrite (bool_decide_eq_false_2 (is_Some (@None bool))) by (intros [? [=]]). cbn [negb].
    cbn [severity_exact description_like details_like node_like has_network_activity
         tags_exact].
    rewrite bool_decide_eq_true_2 by eauto. reflexivity.
Qed.

Lemma ensureGuardrails_stable plan userMsg :
  Forall live (outputs plan) ->
  ensureGuardrails (ensureGuardrails plan userMsg) userMsg = ensureGuardrails plan userMsg.
Proof.
  intros Hl.
  pose proof (ensureGuardrails_filters_stable plan userMsg) as Hf.
  pose proof (ensureGuardrails_outputs (ensureGuardrails plan userMsg) userMsg) as Ho.
  destruct (ensureGuardrails_live plan userMsg Hl) as [Hlen Hlive].
  cbv zeta in Hlen, Hlive.
  assert (outputs (ensureGuardrails (ensureGuardrails plan userMsg) userMsg)
          = outputs (ensureGuardrails plan userMsg)) as Ho'.
  { rewrite Ho. destruct (outputs (ensureGuardrails plan userMsg)) as [|o r] eqn:Hg;
      [cbn [length] in Hlen; lia|].
    rewrite bool_decide_eq_false_2 by discriminate.
    rewrite meaningful_live by (discriminate || exact Hlive).
    cbn [orb negb]. apply take_ge. lia. }
  clear Ho.
  assert (language (ensureGuardrails (ensureGuardrails plan userMsg) userMsg)
          = language (ensureGuardrails plan userMsg)) as Hlang by reflexivity.
  assert (earliest_time (ensureGuardrails (ensureGuardrails plan userMsg) userMsg)
          = earliest_time (ensureGuardrails plan userMsg)) as He by reflexivity.
  assert (latest_time (ensureGuardrails (ensureGuardrails plan userMsg) userMsg)
          = latest_time (ensureGuardrails plan userMsg)) as Hla by reflexivity.
  destruct (ensureGuardrails (ensureGuardrails plan userMsg) userMsg) as [l1 e1 la1 f1 o1].
  destruct (ensureGuardrails plan userMsg) as [l2 e2 la2 f2 o2].
  cbn in *. congruence.
Qed.

End GuardrailsStable.

(** X25. The guardrails are stable on the plans of the pipeline. On a
    plan without suppressed outputs a second pass of [ensureGuardrails]
    changes nothing, so the resolved security plan is a fixed point of the
    guardrails. The condition is needed: a plan that has its only live
    output after four suppressed ones comes out of the first pass with
    suppressed outputs only, and a second pass replaces them by the default
    table. *)
Theorem guardrails_stable :
  forall (env : Env) (planObj : option json) (userMsg : jsstring) (plan : Plan),
    (Forall live (outputs plan) ->
     ensureGuardrails (ensureGuardrails plan userMsg) userMsg = ensureGuardrails plan userMsg) /\
    ensureGuardrails (planSecurity env planObj userMsg) userMsg
      = planSecurity env planObj userMsg /\
    (let suppressed := mkOutputSpec kind_none (js "x") tpl_table None None None None in
     let late := mkPlan en (js "-15m") (js "now") noFilters
                   [suppressed; suppressed; suppressed; suppressed; defaultTable] in
     outputs (ensureGuardrails late userMsg) = [suppressed; suppressed; suppressed; suppressed] /\
     outputs (ensureGuardrails (ensureGuardrails late userMsg) userMsg) = [defaultTable]).
Proof.
  intros env planObj userMsg plan. split; [apply ensureGuardrails_stable|]. split.
  - unfold planSecurity.
    destruct (truthy planObj);
      [destruct (normalizePlan env planObj userMsg) as [p|] eqn:Hn|];
      apply ensureGuardrails_stable;
      first [eapply normalizePlan_live, Hn | apply defaultPlan_live].
  - cbv zeta. rewrite !ensureGuardrails_outputs. split; reflexivity.
Qed.

Lemma guardrails_stable_witness :
  ensureGuardrails (ensureGuardrails (defaultPlan (mkEnv None None) (js "egress T1059"))
                      (js "egress T1059")) (js "egress T1059")
  = ensureGuardrails (defaultPlan (mkEnv None None) (js "egress T1059")) (js "egress T1059").
Proof.
  apply (proj1 (guardrails_stable (mkEnv None None) None (js "egress T1059")
                  (defaultPlan (mkEnv None None) (js "egress T1059")))).
  apply defaultPlan_live.
Defined.

(** ** Quoted literals *)

Section QuotedLiterals.

Lemma readLiteral_escapeUnit c r body rest :
  readLiteral r = Some (body, rest) ->
  readLiteral (escapeUnit c ++ r) = Some (escapeUnit c ++ body, rest).
Proof.
  intros Hr. unfold escapeUnit.
  destruct (c =? backslash)%N eqn:Hb.
  - cbn [app readLiteral]. change (backslash =? dquote)%N with false.
    rewrite N.eqb_refl, Hr. reflexivity.
  - destruct (c =? dquote)%N eqn:Hq.
    + cbn [app readLiteral]. change (backslash =? dquote)%N with false.
      rewrite N.eqb_refl, Hr. reflexivity.
    + cbn [app readLiteral]. rewrite Hq, Hb, Hr. reflexivity.
Qed.

Lemma readLiteral_escaped s rest :
  readLiteral (escapeSplString s ++ dquote :: rest) = Some (escapeSplString s, rest).
Proof.
  induction s as [|c s IH].
  - cbn. reflexivity.
  - rewrite escapeSplString_cons, <- app_assoc. now apply readLiteral_escapeUnit.
Qed.

End QuotedLiterals.

(** X26. An escaped text cannot close the literal it is put in. Read
    from the opening quote on, with a backslash taking the next unit with
    it, the literal [quoted (escapeSplString s)] followed by any text ends
    exactly at the quote the template wrote: its body is the escaped text,
    which stands for [s], and what follows is the text of the template,
    whatever [s] contains. Without the escaping a quote in [s] closes the
    literal early. *)
Theorem escaped_literal_closes_at_its_quote :
  forall (s rest : jsstring),
    readLiteral (escapeSplString s ++ [dquote] ++ rest) = Some (escapeSplString s, rest) /\
    unescapeSplString (escapeSplString s) = s /\
    (forall a b, dquote ∉ a -> backslash ∉ a ->
       readLiteral ((a ++ [dquote] ++ b) ++ [dquote] ++ rest)
       = Some (a, b ++ [dquote] ++ rest)).
Proof.
  intros s rest. split; [apply readLiteral_escaped|].
  split; [apply unescape_escapeSplString|].
  intros a b Hq Hb. rewrite <- !app_assoc.
  induction a as [|c a IH]; [reflexivity|].
  apply not_elem_of_cons in Hq as [Hcq Hq].
  apply not_elem_of_cons in Hb as [Hcb Hb].
  cbn [app readLiteral].
  destruct (N.eqb_spec c dquote) as [->|_]; [contradiction|].
  destruct (N.eqb_spec c backslash) as [->|_]; [contradiction|].
  cbn [app] in IH. rewrite (IH Hq Hb). reflexivity.
Qed.

Lemma escaped_literal_closes_at_its_quote_witness :
  readLiteral ((js "x" ++ [dquote] ++ js " | delete") ++ [dquote] ++ js ")")
  = Some (js "x", js " | delete" ++ [dquote] ++ js ")").
Proof.
  refine (proj2 (proj2 (escaped_literal_closes_at_its_quote [] (js ")")))
            (js "x") (js " | delete") _ _);
    intros H; apply list_elem_of_singleton in H; discriminate.
Defined.

(** ** Guardrails in the compiled query *)

Section GuardedQuery.

Lemma occurs_includes x s : occurs x s -> includes s x = true.
Proof. intros (a & b & ->). apply includes_middle. Qed.

Lemma occurs_refl x : occurs x x.
Proof. exists [], []. now rewrite app_nil_r. Qed.

Lemma occurs_trans x y s : occurs x y -> occurs y s -> occurs x s.
Proof.
  intros (a & b & ->) (c & d & ->). exists (c ++ a), (b ++ d).
  now rewrite <- !app_assoc.
Qed.

Lemma occurs_wrap x p s q : occurs x s -> occurs x (p ++ s ++ q).
Proof. intros H. eapply occurs_trans; [exact H|]. now exists p, q. Qed.

Lemma join_cons2 sep p q rest : join sep (p :: q :: rest) = p ++ sep ++ join sep (q :: rest).
Proof. reflexivity. Qed.

Lemma occurs_join sep parts x : x ∈ parts -> occurs x (join sep parts).
Proof.
  induction parts as [|p parts IH]; intros Hin; [inversion Hin|].
  destruct parts as [|q rest].
  - apply list_elem_of_singleton in Hin as ->. apply occurs_refl.
  - rewrite join_cons2. apply elem_of_cons in Hin as [->|Hin].
    + exists [], (sep ++ join sep (q :: rest)). reflexivity.
    + destruct (IH Hin) as (a & b & ->). exists (p ++ sep ++ a), b.
      now rewrite <- !app_assoc.
Qed.

Lemma escapeUnit_tagChar c : isTagChar false c = true -> escapeUnit c = [c].
Proof.
  intros Hc. unfold escapeUnit.
  destruct (N.eqb_spec c backslash) as [->|_]; [discriminate|].
  destruct (N.eqb_spec c dquote) as [->|_]; [discriminate|]. reflexivity.
Qed.

Lemma escapeSplString_tag t : isTagToken t = true -> escapeSplString t = t.
Proof.
  unfold isTagToken. intros H. apply andb_true_iff in H as [_ H].
  induction t as [|c t IH]; [reflexivity|].
  cbn [forallb] in H. apply andb_true_iff in H as [Hc Ht].
  rewrite escapeSplString_cons, (escapeUnit_tagChar c Hc), (IH Ht). reflexivity.
Qed.

Lemma pipeline_tag f tags t :
  tags_exact f = Some tags -> t ∈ tags -> isTagToken t = true ->
  exists line, line ∈ buildFilterPipeline f /\ occurs (tagClause t) line.
Proof.
  intros Hf Hin Htag. unfold buildFilterPipeline. rewrite Hf.
  destruct tags as [|t0 ts]; [inversion Hin|]. cbn [present].
  set (ors := join (js " OR ") _).
  assert (occurs (tagClause t) ors) as Hors.
  { apply occurs_join. apply list_elem_of_fmap. exists t. split; [|exact Hin].
    unfold tagClause. now rewrite escapeSplString_tag. }
  exists (js "| where (" ++ ors ++ js ")"). split; [|now apply occurs_wrap].
  match goal with
  | |- context [join (js " AND ") ?c] => generalize c
  end.
  intros clauses. destruct clauses; [|apply elem_of_app; left];
    apply list_elem_of_further, list_elem_of_here.
Qed.

Lemma pipeline_network f b :
  has_network_activity f = Some b ->
  exists line, line ∈ buildFilterPipeline f /\ occurs (networkClause b) line.
Proof.
  intros Hf. unfold buildFilterPipeline. rewrite Hf.
  match goal with
  | |- context [join (js " AND ") (?cs ++ [?c])] =>
      generalize cs; change c with (networkClause b)
  end.
  intros clauses.
  exists (js "| where " ++ join (js " AND ") (clauses ++ [networkClause b])). split.
  - destruct (clauses ++ [networkClause b]) eqn:E;
      [now destruct clauses|].
    apply elem_of_app. right. constructor.
  - rewrite <- (app_nil_r (join _ _)). apply occurs_wrap, occurs_join.
    apply elem_of_app. right. constructor.
Qed.

Lemma compileOutput_line f out q line :
  compileOutput f out = Some q -> line ∈ buildFilterPipeline f -> occurs line q.
Proof.
  intros Hc Hin.
  assert (forall rest, occurs line (join newline ([BASE_SEARCH] ++ buildFilterPipeline f ++ rest)))
    as Hq.
  { intros rest. apply occurs_join. apply elem_of_app. right. apply elem_of_app. now left. }
  revert Hc. unfold compileOutput. case_decide; [discriminate|].
  destruct (template out); intros [= <-].
  - apply Hq.
  - apply Hq.
  - unfold splCountBy. destruct (default gb_Severity (group_by out)); apply Hq.
  - unfold splTrend. destruct (if decide _ then _ else _); apply Hq.
Qed.

End GuardedQuery.

(** X27. The guardrails reach the query. Every query compiled from the
    resolved security plan has, for each tag token of the message, the
    clause that matches that tag, written with the token as it stands (a
    tag token needs no escaping); and when the message shows the
    network-activity intent it has the clause of the network flag of the
    plan, which is then always set. *)
Theorem guardrails_reach_query :
  forall (env : Env) (planObj : option json) (userMsg : jsstring) (out : OutputSpec)
         (q : jsstring),
    let plan := planSecurity env planObj userMsg in
    compileOutput (filters plan) out = Some q ->
    (forall t, t ∈ extractTagTokens userMsg -> includes q (tagClause t) = true) /\
    (containsNetworkActivityIntent userMsg = true ->
     exists b, has_network_activity (filters plan) = Some b /\
               includes q (networkClause b) = true).
Proof.
  intros env planObj userMsg out q plan. subst plan.
  intros Hc. split.
  - intros t Ht.
    pose proof (planSecurity_tags env planObj userMsg) as Htags.
    destruct (extractTagTokens userMsg) as [|t0 ts] eqn:Htok; [inversion Ht|].
    cbn [nonEmpty] in Htags.
    destruct (pipeline_tag _ _ t Htags Ht) as (line & Hline & Hocc).
    { apply (extractTagTokens_syntax userMsg). now rewrite Htok. }
    apply occurs_includes. eapply occurs_trans; [exact Hocc|].
    eapply compileOutput_line; eassumption.
  - intros Hnet.
    destruct (planSecurity_guarded env planObj userMsg) as [plan Hplan].
    assert (exists b, has_network_activity (filters (planSecurity env planObj userMsg)) = Some b)
      as [b Hb].
    { rewrite Hplan, ensureGuardrails_filters. cbv zeta. rewrite Hnet. cbn [andb].
      destruct (filters plan) as [sev d dt n [b0|] tg]; unfold set_tags, set_network;
        cbn [has_network_activity severity_exact description_like details_like node_like
             tags_exact].
      - rewrite bool_decide_eq_true_2 by eauto. cbn. eauto.
      - rewrite bool_decide_eq_false_2 by (intros [? [=]]). cbn. eauto. }
    exists b. split; [exact Hb|].
    destruct (pipeline_network _ _ Hb) as (line & Hline & Hocc).
    apply occurs_includes. eapply occurs_trans; [exact Hocc|].
    eapply compileOutput_line; eassumption.
Qed.

Lemma guardrails_reach_query_witness :
  includes (splCount (filters (planSecurity (mkEnv None None) None (js "egress attack.T1059"))))
           (tagClause (js "attack.t1059")) = true.
Proof.
  refine (proj1 (guardrails_reach_query (mkEnv None None) None (js "egress attack.T1059")
                   (mkOutputSpec kind_single (js "Total") tpl_count None None None None)
                   _ eq_refl) (js "attack.t1059") _).
  vm_compute. apply list_elem_of_here.
Defined.

(** ** Failures of the services *)

(** X28. How the two services fail. A response that is not OK always
    raises, whatever its body decodes to: the message names the service and
    the status and quotes at most the first 800 units of the body. An OK
    response never raises: a body that does not decode, or decodes to
    something of another shape, gives no rows from the backend and the
    empty text from the model. *)
Theorem service_failures :
  forall (JSON_parse : jsstring -> option json) (env : QwenEnv) (url : jsstring)
         (status : Z) (text : jsstring),
    resolveQwenChatCompletionsUrl env = Ok url ->
    splunkResponseRows JSON_parse false status text
      = Throw (Error (js "Splunk MCP HTTP " ++ decZ status ++ js ": " ++ take 800 text)) /\
    callQwenNonStream JSON_parse env (fetch_response false status text)
      = Throw (Error (js "Qwen HTTP " ++ decZ status ++ js ": " ++ take 800 text)) /\
    callQwenStream JSON_parse env (stream_http_error status text)
      = ([], Some (Error (js "Qwen HTTP " ++ decZ status ++ js ": " ++ take 800 text))) /\
    (exists rows, splunkResponseRows JSON_parse true status text = Ok rows) /\
    (exists content, callQwenNonStream JSON_parse env (fetch_response true status text)
                     = Ok content) /\
    (JSON_parse text = None ->
     splunkResponseRows JSON_parse true status text = Ok [] /\
     callQwenNonStream JSON_parse env (fetch_response true status text) = Ok []).
Proof.
  intros JSON_parse env url status text Hurl.
  assert (match text with [] => [] | _ => slice 0 800 text end = take 800 text) as Hpre.
  { destruct text; reflexivity. }
  unfold splunkResponseRows, callQwenNonStream, callQwenStream. rewrite Hurl.
  cbn [mbind result_bind negb]. rewrite Hpre.
  split; [reflexivity|]. split; [reflexivity|]. split; [reflexivity|].
  split; [|split].
  - destruct (_ || _); [eauto|]. destruct (negb _); eauto.
  - eauto.
  - intros Hnone. unfold tryParseJson. rewrite Hnone. split; reflexivity.
Qed.

Lemma service_failures_witness :
  callQwenNonStream (fun _ => None) (qwenEnv modelDown)
    (fetch_response false 503 (js "busy"))
  = Throw (Error (js "Qwen HTTP 503: busy")).
Proof.
  refine (proj1 (proj2 (service_failures (fun _ => None) (qwenEnv modelDown)
                          (js "http://qwen:8000") 503 (js "busy") _))).
  vm_compute. reflexivity.
Defined.

(** ** The mock time series *)

(** X29. A mock series has one point a minute and ends at the reading of
    the clock: building it reads the clock once, emits nothing and never
    raises; it has one point for each value, in order, and the point at
    index [i] of [n] carries the local-time label of the instant
    [n - 1 - i] minutes before the reading, so the last point is labelled
    with the reading itself. Each of the three mock series has fifteen
    points. *)
Theorem buildMinuteSeries_minutes :
  forall (w : World) (values : list Z) (t0 : Trace),
    let now := clock w (ticks t0) in
    let n := Z.of_nat (length values) in
    exists data,
      buildMinuteSeries w values t0
        = (Ok data, mkTrace (calls t0) (S (ticks t0)) (emitted t0)) /\
      length data = length values /\
      (forall i v, values !! i = Some v ->
         data !! i = Some [(js "time",
                            CStr (timeLabel w (now - (n - 1 - Z.of_nat i) * 60000)));
                           (js "value", CNum (ofZ v))]) /\
      (forall m, exists series,
         (mockGrafanaSeries w m t0).1 = Ok series /\ length series = 15%nat).
Proof.
  intros w values t0 now n.
  eexists. split; [reflexivity|]. split; [apply length_imap|]. split.
  - intros i v Hv. rewrite list_lookup_imap, Hv. cbn [fmap option_fmap option_map].
    do 5 f_equal. subst now n. cbn [ticks]. lia.
  - intros m. destruct (mockGrafanaSeries_spec w m t0) as (series & -> & Hlen). eauto.
Qed.

Lemma buildMinuteSeries_minutes_witness :
  exists data,
    buildMinuteSeries quietWorld [7; 9] startTrace = (Ok data, mkTrace 0 1 []) /\
    data !! 1%nat = Some [(js "time", CStr (js "12:00")); (js "value", CNum (ofZ 9))].
Proof.
  destruct (buildMinuteSeries_minutes quietWorld [7; 9] startTrace)
    as (data & Hrun & _ & Hat & _).
  exists data. split; [exact Hrun|]. exact (Hat 1%nat 9 eq_refl).
Defined.

(** ** Rows of the other result shapes *)

Section ObjectRows.





End ObjectRows.


